(** * Admin analytics routes: a shallow embedding and its properties

    The six handlers of the analytics router ([/overview],
    [/user-engagement], [/challenge-stats], [/traffic],
    [/leaderboard-stats], [/submissions]) are embedded as functions from
    the documents returned by the queries (and the clock) to the [data]
    object of the JSON response.

    JavaScript Numbers are IEEE 754 binary64 values: they are modelled by
    [spec_float] and the operations of [SpecFloat] at precision 53.
    Counters that the handlers build by adding array lengths are kept as
    [Z] and converted where a floating-point operation consumes them;
    the stored points are integers, and their sums are accumulated as
    Numbers, one rounded addition after the other.

    A handler issues several queries; each of them is answered here from
    the same state of the collections. *)

From Stdlib Require Import ZArith QArith Qabs Qpower Lia Lqa List Bool Ascii String.
From Stdlib Require Import Permutation Sorted.
From Stdlib Require Import Floats.SpecFloat.
From stdpp Require Import gmap strings list fin_maps.

Local Open Scope Z_scope.

(** ** JavaScript Numbers *)

Module JsNumber.

Definition prec : Z := 53.
Definition emax : Z := 1024.

Abbreviation number := spec_float.

(** An integer literal or an array length used as a Number. *)
Definition of_Z (z : Z) : number := binary_normalize prec emax z 0 false.

Definition add : number -> number -> number := SFadd prec emax.
Definition sub : number -> number -> number := SFsub prec emax.
Definition mul : number -> number -> number := SFmul prec emax.
Definition div : number -> number -> number := SFdiv prec emax.

(** [x > 0] *)
Definition gt0 (x : number) : bool := SFltb (S754_zero false) x.

(** The literal [0.3]: the binary64 nearest to 3/10. *)
Definition lit_0_3 : number := div (of_Z 3) (of_Z 10).

(** [2^e] as a rational: the finite Number of sign [s], mantissa [m] and
    exponent [e] has the magnitude [m * 2^e]. *)
Definition Q2pow (e : Z) : Q := Qpower 2 e.

(** [floor (m * 2^e)] for an integer [m]. *)
Definition floor_scaled (m e : Z) : Z :=
  if 0 <=? e then m * 2 ^ e else m / 2 ^ (- e).

(** [Math.floor]. *)
Definition Math_floor (x : number) : number :=
  match x with
  | S754_finite s m e =>
      let z := floor_scaled (cond_Zopp s (Zpos m)) e in
      if z =? 0 then S754_zero s else of_Z z
  | _ => x
  end.

(** The strings [Number.prototype.toFixed(2)] returns, by the case of
    the algorithm that produces them: a sign and the decimal digits of
    an integer [n] with the point before its last two digits, or the
    result of [Number::toString] for a Number that is not finite or is
    at least [1e21]. *)
Inductive fixed2 :=
| FxDec (neg : bool) (n : Z)
| FxToString (x : number).

(** The integer [n] for which [n / 100 - m * 2^e] is as close to zero
    as possible, the larger one if there are two ([0 <= m]). *)
Definition nearest_hundredth (m e : Z) : Z :=
  if 0 <=? e then 100 * m * 2 ^ e
  else (200 * m + 2 ^ (- e)) / (2 * 2 ^ (- e)).

Definition toFixed2 (x : number) : fixed2 :=
  match x with
  | S754_zero _ => FxDec false 0
  | S754_finite s m e =>
      if 10 ^ 21 <=? floor_scaled (Zpos m) e then FxToString x
      else FxDec s (nearest_hundredth (Zpos m) e)
  | _ => FxToString x
  end.

(** [ToNumber] of such a string (also [parseFloat]): the Number nearest
    to the decimal, for decimals of fewer than 16 digits. *)
Definition fixed2_to_number (f : fixed2) : number :=
  match f with
  | FxDec neg n =>
      if n =? 0 then S754_zero neg
      else div (of_Z (cond_Zopp neg n)) (of_Z 100)
  | FxToString x => x
  end.

(** *** Rendering of the decimal strings *)

Definition digit_char (d : Z) : ascii :=
  ascii_of_nat (48 + Z.to_nat (d mod 10)).

(** The [k] low decimal digits of [n], most significant first. *)
Fixpoint digits_fixed (k : nat) (n : Z) (acc : string) : string :=
  match k with
  | O => acc
  | S k' => digits_fixed k' (n / 10) (String (digit_char n) acc)
  end.

Fixpoint digits_fuel (fuel : nat) (n : Z) (acc : string) : string :=
  match fuel with
  | O => acc
  | S f =>
      let acc' := String (digit_char n) acc in
      if n / 10 =? 0 then acc' else digits_fuel f (n / 10) acc'
  end.

(** The decimal digits of [0 <= n], no leading zero. *)
Definition decimal (n : Z) : string :=
  digits_fuel (S (Z.to_nat (Z.log2 n))) n EmptyString.

(** The string itself; that of a finite Number of [1e21] or more is not
    spelled out. *)
Definition fixed2_string (f : fixed2) : option string :=
  match f with
  | FxDec neg n =>
      Some ((if neg then "-" else "") ++ decimal (n / 100) ++ "."
            ++ digits_fixed 2 (n mod 100) EmptyString)%string
  | FxToString S754_nan => Some "NaN"%string
  | FxToString (S754_infinity false) => Some "Infinity"%string
  | FxToString (S754_infinity true) => Some "-Infinity"%string
  | FxToString _ => None
  end.

End JsNumber.

Import JsNumber.

(** A value that is a Number on one branch and a string on the other. *)
Inductive num_or_fixed :=
| JNum (x : number)
| JFixed (f : fixed2).

(** [100 - v] and [parseFloat(v)] convert [v] to a Number first. *)
Definition to_number (v : num_or_fixed) : number :=
  match v with
  | JNum x => x
  | JFixed f => fixed2_to_number f
  end.

(** ** Documents *)

(** A solved challenge as a user document carries it once populated with
    [title category difficulty points]; unpopulated, only the length of
    the array is read. *)
Record SolvedChallenge := {
  sc_title : string;
  sc_category : string;
  sc_difficulty : string;
  sc_points : Z
}.

Record User := {
  username : string;
  email : string;
  points : Z;
  solvedChallenges : option (list SolvedChallenge);
  createdAt : Z;          (* time value of the Date, ms since the epoch *)
  isBlocked : bool;
  role : string
}.

(** An entry of [solvedBy] populated with [username email points]. *)
Record Solver := {
  sv_username : string;
  sv_email : string;
  sv_points : Z
}.

Record Challenge := {
  title : string;
  category : string;
  difficulty : string;
  ch_points : Z;
  isVisible : bool;
  solvedBy : option (list Solver)
}.

(** [arr?.length || 0] *)
Definition length_or_0 {A} (arr : option (list A)) : Z :=
  match arr with
  | Some l => Z.of_nat (length l)
  | None => 0
  end.

(** [n || 0] on an integer: [0] is the only falsy one. *)
Definition or_0 (n : Z) : Z := if n =? 0 then 0 else n.

(** [Model.countDocuments(filter)] *)
Definition countDocuments {A} (p : A -> bool) (coll : list A) : Z :=
  Z.of_nat (length (List.filter p coll)).

Definition ms_per_day : Z := 24 * 60 * 60 * 1000.

(** [{ createdAt: { $gte: since } }] *)
Definition created_gte (since : Z) (u : User) : bool := since <=? createdAt u.

(** [arr.reduce((sum, x) => sum + f(x), 0)] over array lengths. *)
Definition reduce_sum {A} (f : A -> Z) (arr : list A) : Z :=
  fold_left (fun sum x => sum + f x) arr 0.

(** The same reduction over stored Numbers: every [+] rounds. *)
Definition reduce_add {A} (f : A -> number) (arr : list A) : number :=
  fold_left (fun sum x => add sum (f x)) arr (of_Z 0).

(** ** Plain objects used as maps

    An object literal [{}] inherits the members of [Object.prototype]:
    for a key that names one of them and is not an own property,
    [obj[key]] is that member, a function or (for [__proto__]) the
    prototype itself, and so a truthy value. *)
Definition object_prototype_names : list string :=
  ["constructor"; "__defineGetter__"; "__defineSetter__"; "hasOwnProperty";
   "__lookupGetter__"; "__lookupSetter__"; "isPrototypeOf";
   "propertyIsEnumerable"; "toString"; "valueOf"; "__proto__";
   "toLocaleString"]%string.

Definition inherited (key : string) : bool :=
  existsb (String.eqb key) object_prototype_names.

(** ** GET /overview *)

Record OverviewData := {
  ov_users_total : Z;
  ov_users_active : Z;
  ov_users_admins : Z;
  ov_users_blocked : Z;
  ov_challenges_total : Z;
  ov_challenges_visible : Z;
  ov_challenges_hidden : Z;
  ov_submissions_total : Z;
  ov_avgPerUser : num_or_fixed;
  ov_totalPoints : number
}.

(** The roles the route is declared with: [authorize('admin', 'superadmin')]. *)
Definition overview_access : list string := ["admin"; "superadmin"]%string.

Definition avgPointsPerUser (totalPoints : number) (totalUsers : Z)
  : num_or_fixed :=
  if 0 <? totalUsers
  then JFixed (toFixed2 (div totalPoints (of_Z totalUsers)))
  else JNum (of_Z 0).

Definition overview (now : Z) (users : list User) (challenges : list Challenge)
  : OverviewData :=
  let totalUsers := countDocuments (fun _ => true) users in
  let activeUsers := countDocuments (created_gte (now - 30 * ms_per_day)) users in
  let adminUsers := countDocuments (fun u => String.eqb (role u) "admin") users in
  let blockedUsers := countDocuments isBlocked users in
  let totalChallenges := countDocuments (fun _ => true) challenges in
  let visibleChallenges := countDocuments isVisible challenges in
  let allUsers := users in
  let totalSubmissions :=
    reduce_sum (fun user => length_or_0 (solvedChallenges user)) allUsers in
  let totalPoints :=
    reduce_add (fun user => of_Z (or_0 (points user))) allUsers in
  {| ov_users_total := totalUsers;
     ov_users_active := activeUsers;
     ov_users_admins := adminUsers;
     ov_users_blocked := blockedUsers;
     ov_challenges_total := totalChallenges;
     ov_challenges_visible := visibleChallenges;
     ov_challenges_hidden := totalChallenges - visibleChallenges;
     ov_submissions_total := totalSubmissions;
     ov_avgPerUser := avgPointsPerUser totalPoints totalUsers;
     ov_totalPoints := totalPoints |}.

(** ** GET /user-engagement *)

Record EngagementRow := {
  er_username : string;
  er_joinedDate : Z;
  er_challengesSolved : Z;
  er_points : Z;
  er_isActive : bool;
  er_daysActive : number
}.

Definition engagement_row (now : Z) (user : User) : EngagementRow :=
  {| er_username := username user;
     er_joinedDate := createdAt user;
     er_challengesSolved := length_or_0 (solvedChallenges user);
     er_points := or_0 (points user);
     er_isActive := negb (isBlocked user);
     er_daysActive :=
       Math_floor (div (of_Z (now - createdAt user)) (of_Z ms_per_day)) |}.

Record EngagementSummary := {
  highEngagement : Z;
  mediumEngagement : Z;
  lowEngagement : Z;
  inactive : Z
}.

Definition is_high (u : EngagementRow) : bool :=
  (5 <=? er_challengesSolved u) && er_isActive u.
Definition is_medium (u : EngagementRow) : bool :=
  (2 <=? er_challengesSolved u) && (er_challengesSolved u <? 5) && er_isActive u.
Definition is_low (u : EngagementRow) : bool :=
  (er_challengesSolved u <? 2) && er_isActive u.
Definition is_inactive (u : EngagementRow) : bool := negb (er_isActive u).

Definition count_rows (p : EngagementRow -> bool) (rows : list EngagementRow) : Z :=
  Z.of_nat (length (List.filter p rows)).

Definition engagement_summary (engagementData : list EngagementRow)
  : EngagementSummary :=
  {| highEngagement := count_rows is_high engagementData;
     mediumEngagement := count_rows is_medium engagementData;
     lowEngagement := count_rows is_low engagementData;
     inactive := count_rows is_inactive engagementData |}.

(** [users] is the result of [User.find().sort({ createdAt: -1 })]. *)
Definition user_engagement (now : Z) (users : list User)
  : EngagementSummary * list EngagementRow :=
  let engagementData := List.map (engagement_row now) users in
  (engagement_summary engagementData, engagementData).

(** ** [Array.prototype.sort] with a comparator

    The sort is stable: [a] is placed before [b] when [cmp a b < 0],
    after it when [cmp a b > 0], and the two keep their order when
    [cmp a b = 0]. For a consistent comparator this determines the
    result; it is computed here by insertion from the right. The
    handlers call [sort] on the array itself, so the caller rebinds the
    array to the result. *)

Fixpoint sort_insert {A} (cmp : A -> A -> Z) (x : A) (sorted : list A) : list A :=
  match sorted with
  | [] => [x]
  | y :: rest =>
      if cmp x y <=? 0 then x :: y :: rest
      else y :: sort_insert cmp x rest
  end.

Fixpoint js_sort {A} (cmp : A -> A -> Z) (arr : list A) : list A :=
  match arr with
  | [] => []
  | x :: rest => sort_insert cmp x (js_sort cmp rest)
  end.

(** [arr.slice(0, n)] *)
Definition slice0 {A} (n : nat) (arr : list A) : list A := firstn n arr.

(** ** GET /challenge-stats *)

Record CategoryEntry := { cat_count : Z; cat_solved : Z }.
Record DifficultyEntry := { diff_count : Z; avgPoints : number }.

Record SolvedChallengeRow := {
  sr_title : string;
  sr_category : string;
  sr_difficulty : string;
  sr_points : Z;
  sr_solvedBy : list Solver
}.

Record ChallengeBrief := {
  cb_title : string;
  cb_solves : Z;
  cb_points : Z
}.

(** The [stats] object. [byCategory] and [byDifficulty] are plain
    objects used as maps from a label to an entry: the maps below hold
    their own properties, which are what the response carries. *)
Record Stats := {
  byCategory : gmap string CategoryEntry;
  byDifficulty : gmap string DifficultyEntry;
  topChallenges : list ChallengeBrief;
  leastSolved : list ChallengeBrief;
  st_solvedChallenges : list SolvedChallengeRow
}.

Definition solves (c : Challenge) : Z := length_or_0 (solvedBy c).

(** For a label that names a member of [Object.prototype] the test
    [!stats.byCategory[key]] finds the inherited member: no entry is
    made, and [count++] and [solved +=] set properties of that member,
    not of [stats]. Such a label never becomes an own property. *)
Definition add_category (byCat : gmap string CategoryEntry) (challenge : Challenge)
  : gmap string CategoryEntry :=
  let key := category challenge in
  if inherited key then byCat else
  let byCat1 :=
    match byCat !! key with
    | None => <[key := {| cat_count := 0; cat_solved := 0 |}]> byCat
    | Some _ => byCat
    end in
  let byCat2 :=
    alter (fun e => {| cat_count := cat_count e + 1; cat_solved := cat_solved e |})
      key byCat1 in
  alter (fun e => {| cat_count := cat_count e;
                     cat_solved := cat_solved e + solves challenge |})
    key byCat2.

(** [avgPoints += challenge.points] adds Numbers. *)
Definition add_difficulty (byDiff : gmap string DifficultyEntry) (challenge : Challenge)
  : gmap string DifficultyEntry :=
  let key := difficulty challenge in
  if inherited key then byDiff else
  let byDiff1 :=
    match byDiff !! key with
    | None => <[key := {| diff_count := 0; avgPoints := of_Z 0 |}]> byDiff
    | Some _ => byDiff
    end in
  let byDiff2 :=
    alter (fun e => {| diff_count := diff_count e + 1; avgPoints := avgPoints e |})
      key byDiff1 in
  alter (fun e => {| diff_count := diff_count e;
                     avgPoints := add (avgPoints e) (of_Z (ch_points challenge)) |})
    key byDiff2.

(** [challenge.solvedBy && challenge.solvedBy.length > 0] *)
Definition has_solvers (challenge : Challenge) : bool :=
  match solvedBy challenge with
  | Some l => 0 <? Z.of_nat (length l)
  | None => false
  end.

Definition solved_row (challenge : Challenge) : SolvedChallengeRow :=
  {| sr_title := title challenge;
     sr_category := category challenge;
     sr_difficulty := difficulty challenge;
     sr_points := ch_points challenge;
     sr_solvedBy :=
       List.map (fun user => {| sv_username := sv_username user;
                                sv_email := sv_email user;
                                sv_points := sv_points user |})
         (default [] (solvedBy challenge)) |}.

Definition add_solved (rows : list SolvedChallengeRow) (challenge : Challenge)
  : list SolvedChallengeRow :=
  if has_solvers challenge then rows ++ [solved_row challenge] else rows.

(** One iteration of [challenges.forEach]. *)
Definition stats_step (stats : Stats) (challenge : Challenge) : Stats :=
  {| byCategory := add_category (byCategory stats) challenge;
     byDifficulty := add_difficulty (byDifficulty stats) challenge;
     topChallenges := topChallenges stats;
     leastSolved := leastSolved stats;
     st_solvedChallenges := add_solved (st_solvedChallenges stats) challenge |}.

Definition stats_init : Stats :=
  {| byCategory := ∅; byDifficulty := ∅; topChallenges := [];
     leastSolved := []; st_solvedChallenges := [] |}.

Definition brief (c : Challenge) : ChallengeBrief :=
  {| cb_title := title c; cb_solves := solves c; cb_points := ch_points c |}.

Definition by_solves_desc (a b : Challenge) : Z := solves b - solves a.
Definition by_solves_asc (a b : Challenge) : Z := solves a - solves b.

(** The handler. [challenges.sort(...)] sorts the array in place: the
    second sort runs on the array as the first one left it. *)
Definition challenge_stats (challenges : list Challenge) : Stats :=
  let stats := fold_left stats_step challenges stats_init in
  let challenges1 := js_sort by_solves_desc challenges in
  let top := List.map brief (slice0 5 challenges1) in
  let challenges2 := js_sort by_solves_asc challenges1 in
  let least := List.map brief (slice0 5 challenges2) in
  {| byCategory := byCategory stats;
     byDifficulty := byDifficulty stats;
     topChallenges := top;
     leastSolved := least;
     st_solvedChallenges := st_solvedChallenges stats |}.

(** ** Dates

    [Date.prototype.toISOString] on the time value of a valid Date,
    following the day-number and time-within-day functions of the
    language specification (Day, DayFromYear, YearFromTime,
    MonthFromTime, DateFromTime, HourFromTime, ...). *)

Module JsDate.

Definition Day (t : Z) : Z := t / ms_per_day.

Definition DaysInYear (y : Z) : Z :=
  if negb (y mod 4 =? 0) then 365
  else if negb (y mod 100 =? 0) then 366
  else if negb (y mod 400 =? 0) then 365
  else 366.

Definition DayFromYear (y : Z) : Z :=
  365 * (y - 1970) + (y - 1969) / 4 - (y - 1901) / 100 + (y - 1601) / 400.

(** The largest [y] with [DayFromYear y <= d]: the estimate from the
    mean year length is off by at most one. *)
Definition YearFromDay (d : Z) : Z :=
  let est := 1970 + (400 * d) / 146097 in
  if DayFromYear (est + 1) <=? d then est + 1
  else if DayFromYear est <=? d then est
  else est - 1.

Definition YearFromTime (t : Z) : Z := YearFromDay (Day t).
Definition InLeapYear (t : Z) : Z :=
  if DaysInYear (YearFromTime t) =? 366 then 1 else 0.
Definition DayWithinYear (t : Z) : Z := Day t - DayFromYear (YearFromTime t).

Definition MonthFromTime (t : Z) : Z :=
  let d := DayWithinYear t in
  let leap := InLeapYear t in
  if d <? 31 then 0
  else if d <? 59 + leap then 1
  else if d <? 90 + leap then 2
  else if d <? 120 + leap then 3
  else if d <? 151 + leap then 4
  else if d <? 181 + leap then 5
  else if d <? 212 + leap then 6
  else if d <? 243 + leap then 7
  else if d <? 273 + leap then 8
  else if d <? 304 + leap then 9
  else if d <? 334 + leap then 10
  else 11.

Definition DateFromTime (t : Z) : Z :=
  let d := DayWithinYear t in
  let leap := InLeapYear t in
  let m := MonthFromTime t in
  if m =? 0 then d + 1
  else if m =? 1 then d - 30
  else if m =? 2 then d - 58 - leap
  else if m =? 3 then d - 89 - leap
  else if m =? 4 then d - 119 - leap
  else if m =? 5 then d - 150 - leap
  else if m =? 6 then d - 180 - leap
  else if m =? 7 then d - 211 - leap
  else if m =? 8 then d - 242 - leap
  else if m =? 9 then d - 272 - leap
  else if m =? 10 then d - 303 - leap
  else d - 333 - leap.

Definition HourFromTime (t : Z) : Z := (t / 3600000) mod 24.
Definition MinFromTime (t : Z) : Z := (t / 60000) mod 60.
Definition SecFromTime (t : Z) : Z := (t / 1000) mod 60.
Definition msFromTime (t : Z) : Z := t mod 1000.

Definition pad (k : nat) (n : Z) : string := digits_fixed k n EmptyString.

(** Four digits for the years 0 to 9999, a sign and six digits otherwise. *)
Definition year_string (y : Z) : string :=
  if ((0 <=? y) && (y <=? 9999))%Z then pad 4 y
  else ((if (y <? 0)%Z then "-" else "+") ++ pad 6 (Z.abs y))%string.

Definition date_string (t : Z) : string :=
  (year_string (YearFromTime t) ++ "-" ++ pad 2 (MonthFromTime t + 1)
     ++ "-" ++ pad 2 (DateFromTime t))%string.

Definition time_string (t : Z) : string :=
  (pad 2 (HourFromTime t) ++ ":" ++ pad 2 (MinFromTime t) ++ ":"
     ++ pad 2 (SecFromTime t) ++ "." ++ pad 3 (msFromTime t) ++ "Z")%string.

Definition toISOString (t : Z) : string :=
  (date_string t ++ "T" ++ time_string t)%string.

(** [s.split('T')[0]] *)
Fixpoint split_T_0 (s : string) : string :=
  match s with
  | EmptyString => EmptyString
  | String c rest =>
      if Ascii.eqb c "T" then EmptyString else String c (split_T_0 rest)
  end.

Definition is_digit (c : ascii) : bool :=
  let n := nat_of_ascii c in (48 <=? n)%nat && (n <=? 57)%nat.

(** A calendar date [YYYY-MM-DD] and nothing else. *)
Definition is_calendar_date (s : string) : bool :=
  match s with
  | String y1 (String y2 (String y3 (String y4 (String d1
      (String m1 (String m2 (String d2
      (String a1 (String a2 EmptyString))))))))) =>
      is_digit y1 && is_digit y2 && is_digit y3 && is_digit y4
      && Ascii.eqb d1 "-" && is_digit m1 && is_digit m2
      && Ascii.eqb d2 "-" && is_digit a1 && is_digit a2
  | _ => false
  end.

End JsDate.

(** ** GET /traffic *)

Record TrafficData := {
  last30Days : Z;
  last7Days : Z;
  today_count : Z;
  dailyBreakdown : gmap string Z
}.

Definition day_key (user : User) : string :=
  JsDate.split_T_0 (JsDate.toISOString (createdAt user)).

(** One iteration of [users.forEach]:
    [usersPerDay[day] = (usersPerDay[day] || 0) + 1]. *)
Definition count_day (usersPerDay : gmap string Z) (user : User) : gmap string Z :=
  let day := day_key user in
  <[day := or_0 (default 0 (usersPerDay !! day)) + 1]> usersPerDay.

Definition usersPerDay (users : list User) : gmap string Z :=
  fold_left count_day users ∅.

(** [today] is the time value of local midnight, which [setHours(0,0,0,0)]
    computes in the time zone of the server. *)
Definition traffic (now today : Z) (all_users : list User) : TrafficData :=
  let thirtyDaysAgo := now - 30 * ms_per_day in
  let sevenDaysAgo := now - 7 * ms_per_day in
  let users := List.filter (created_gte thirtyDaysAgo) all_users in
  {| last30Days := countDocuments (created_gte thirtyDaysAgo) all_users;
     last7Days := countDocuments (created_gte sevenDaysAgo) all_users;
     today_count := countDocuments (created_gte today) all_users;
     dailyBreakdown := usersPerDay users |}.

(** ** GET /leaderboard-stats *)

Record LeaderRow := {
  lr_rank : Z;
  lr_username : string;
  lr_points : Z;
  lr_challengesSolved : Z
}.

Definition by_points_desc (a b : User) : Z := points b - points a.

(** [User.find().sort({ points: -1 }).limit(10)]: the ten first documents
    of the collection in descending order of points. *)
Definition find_top_users (users : list User) : list User :=
  firstn 10 (js_sort by_points_desc users).

Definition topUsersData (topUsers : list User) : list LeaderRow :=
  imap (fun index user =>
          {| lr_rank := Z.of_nat index + 1;
             lr_username := username user;
             lr_points := points user;
             lr_challengesSolved := length_or_0 (solvedChallenges user) |})
    topUsers.

Definition leaderboard_stats (users : list User) : list LeaderRow :=
  topUsersData (find_top_users users).

(** ** GET /submissions *)

Record UserSubmissions := {
  us_username : string;
  us_email : string;
  us_submissions : Z;
  us_points : Z;
  us_challenges : list SolvedChallenge
}.

Record ChallengeSubmissions := {
  cs_title : string;
  cs_category : string;
  cs_difficulty : string;
  cs_points : Z;
  cs_submissions : Z
}.

Record SubmissionOverview := {
  totalSubmissions : Z;
  successfulSubmissions : Z;
  estimatedFailedSubmissions : number;
  estimatedTotalAttempts : number;
  successRate : number;
  failureRate : number
}.

Record SubmissionData := {
  sd_overview : SubmissionOverview;
  submissionsByUser : list UserSubmissions;
  submissionsByChallenge : list ChallengeSubmissions
}.

(** The accumulators of [users.forEach]. *)
Record UserAcc := {
  acc_total : Z;
  acc_successful : Z;
  acc_byUser : list UserSubmissions
}.

Definition user_submissions (user : User) : UserSubmissions :=
  {| us_username := username user;
     us_email := email user;
     us_submissions := length_or_0 (solvedChallenges user);
     us_points := points user;
     us_challenges :=
       default []
         (List.map (fun c => {| sc_title := sc_title c;
                                sc_category := sc_category c;
                                sc_difficulty := sc_difficulty c;
                                sc_points := sc_points c |})
            <$> solvedChallenges user) |}.

Definition user_step (acc : UserAcc) (user : User) : UserAcc :=
  let userSubmissions := length_or_0 (solvedChallenges user) in
  {| acc_total := acc_total acc + userSubmissions;
     acc_successful := acc_successful acc + userSubmissions;
     acc_byUser :=
       if 0 <? userSubmissions
       then acc_byUser acc ++ [user_submissions user]
       else acc_byUser acc |}.

Definition challenge_submissions (challenge : Challenge) : ChallengeSubmissions :=
  {| cs_title := title challenge;
     cs_category := category challenge;
     cs_difficulty := difficulty challenge;
     cs_points := ch_points challenge;
     cs_submissions := solves challenge |}.

Definition challenge_step (acc : list ChallengeSubmissions) (challenge : Challenge)
  : list ChallengeSubmissions :=
  if 0 <? solves challenge then acc ++ [challenge_submissions challenge] else acc.

(** The estimate of the failed submissions and the two rates, as the
    handler computes them on Numbers. *)
Definition estimate_failed (total : Z) : number :=
  Math_floor (mul (of_Z total) lit_0_3).

Definition estimate_attempts (total : Z) : number :=
  add (of_Z total) (estimate_failed total).

Definition success_rate (total : Z) : num_or_fixed :=
  let attempts := estimate_attempts total in
  if gt0 attempts
  then JFixed (toFixed2 (mul (div (of_Z total) attempts) (of_Z 100)))
  else JNum (of_Z 0).

Definition failure_rate (total : Z) : fixed2 :=
  toFixed2 (sub (of_Z 100) (to_number (success_rate total))).

Definition submission_overview (total successful : Z) : SubmissionOverview :=
  {| totalSubmissions := total;
     successfulSubmissions := successful;
     estimatedFailedSubmissions := estimate_failed total;
     estimatedTotalAttempts := estimate_attempts total;
     successRate := to_number (success_rate total);
     failureRate := fixed2_to_number (failure_rate total) |}.

Definition submissions (users : list User) (challenges : list Challenge)
  : SubmissionData :=
  let acc :=
    fold_left user_step users
      {| acc_total := 0; acc_successful := 0; acc_byUser := [] |} in
  let byChallenge := fold_left challenge_step challenges [] in
  {| sd_overview := submission_overview (acc_total acc) (acc_successful acc);
     submissionsByUser :=
       js_sort (fun a b => us_submissions b - us_submissions a) (acc_byUser acc);
     submissionsByChallenge :=
       js_sort (fun a b => cs_submissions b - cs_submissions a) byChallenge |}.


(** ** Vocabulary of the statements *)

(** The number of challenges a user document lists as solved. *)
Definition solved_count (u : User) : Z := length_or_0 (solvedChallenges u).

(** Sum of [f] over a list, and over the entries of a label-indexed map. *)
Definition sum_list_Z {A} (f : A -> Z) (l : list A) : Z :=
  fold_right (fun x acc => f x + acc) 0 l.

Definition sum_entries {V} (f : V -> Z) (m : gmap string V) : Z :=
  map_fold (fun _ e acc => acc + f e) 0 m.

Definition in_category (k : string) (c : Challenge) : bool :=
  String.eqb (category c) k.
Definition in_difficulty (k : string) (c : Challenge) : bool :=
  String.eqb (difficulty c) k.
Definition same_solves (k : Z) (c : Challenge) : bool := solves c =? k.

(** The sum of integers as the code accumulates it: from the Number 0,
    one rounded addition after the other, in the order of the list. *)
Definition number_sum (l : list Z) : number :=
  fold_left (fun sum p => add sum (of_Z p)) l (of_Z 0).

(** The entry of a label: none for a label that names a member of
    [Object.prototype] and none when no challenge carries the label,
    else the number of challenges that do and a sum over them. *)
Definition category_entry (k : string) (cs : list Challenge)
  : option CategoryEntry :=
  if inherited k then None else
  match List.filter (in_category k) cs with
  | [] => None
  | l => Some {| cat_count := Z.of_nat (length l);
                 cat_solved := sum_list_Z solves l |}
  end.

Definition difficulty_entry (k : string) (cs : list Challenge)
  : option DifficultyEntry :=
  if inherited k then None else
  match List.filter (in_difficulty k) cs with
  | [] => None
  | l => Some {| diff_count := Z.of_nat (length l);
                 avgPoints := number_sum (List.map ch_points l) |}
  end.

(** The challenges whose label can be an own property of the grouping. *)
Definition own_category (c : Challenge) : bool := negb (inherited (category c)).
Definition own_difficulty (c : Challenge) : bool := negb (inherited (difficulty c)).

(** The number of users whose creation date has the key [k]. *)
Definition on_day (k : string) (u : User) : bool := String.eqb (day_key u) k.
Definition day_count (k : string) (users : list User) : Z :=
  Z.of_nat (length (List.filter (on_day k) users)).

(** Every character of [s] satisfies [p]. *)
Fixpoint string_forall (p : ascii -> bool) (s : string) : bool :=
  match s with
  | EmptyString => true
  | String c rest => p c && string_forall p rest
  end.

Definition not_T (c : ascii) : bool := negb (Ascii.eqb c "T").

(** The time values of the years 0000 to 9999. *)
Definition four_digit_year (t : Z) : Prop :=
  -62167219200000 <= t < 253402300800000.

(** The document with its array present: the array it has, or the empty
    one where it has none. *)
Definition with_solved_array (u : User) : User :=
  {| username := username u; email := email u; points := points u;
     solvedChallenges := Some (default [] (solvedChallenges u));
     createdAt := createdAt u; isBlocked := isBlocked u; role := role u |}.

Definition with_solvers_array (c : Challenge) : Challenge :=
  {| title := title c; category := category c; difficulty := difficulty c;
     ch_points := ch_points c; isVisible := isVisible c;
     solvedBy := Some (default [] (solvedBy c)) |}.

(** The users of the 30-day window registered on the UTC day of [t]. *)
Definition same_utc_day (since t : Z) (w : User) : bool :=
  created_gte since w && (JsDate.Day (createdAt w) =? JsDate.Day t).

(** *** Numbers: vocabulary of the rounding analysis *)

Definition shr_Q (rec : shr_record) : Q := inject_Z (shr_m rec).

(** The record [rec] locates the rational [X]: its mantissa is the
    integer part, the round bit tells whether the fraction reaches one
    half, the sticky bit whether it lies strictly between the marks. *)
Definition locates (X : Q) (rec : shr_record) : Prop :=
  (shr_Q rec <= X /\ X < shr_Q rec + 1
   /\ (shr_r rec = true <-> shr_Q rec + (1 # 2) <= X)
   /\ (shr_s rec = true <-> ~ X == shr_Q rec /\ ~ X == shr_Q rec + (1 # 2)))%Q.

(** [x] is a normal Number of sign [s], magnitude [v] and exponent [e]. *)
Definition is_float (x : number) (s : bool) (v : Q) (e : Z) : Prop :=
  exists m : positive,
    x = S754_finite s m e /\ Zpos (digits2_pos m) = 53
    /\ (v == inject_Z (Zpos m) * Q2pow e)%Q.

(** [v] is [x] rounded to 53 bits: [x] lies in the binade whose unit is
    [2^E], [v] is a multiple of that unit by an integer within one half
    of [x] counted in units; [e] is the exponent of [v] with its mantissa
    on 53 bits. *)
Definition rounded (x v : Q) (E e : Z) : Prop :=
  exists (M : Z) (Y : Q),
    (v == inject_Z M * Q2pow E)%Q
    /\ (x == Y * Q2pow E)%Q
    /\ (Qabs (inject_Z M - Y) <= 1 # 2)%Q
    /\ (inject_Z (2 ^ 52) <= Y < inject_Z (2 ^ 53))%Q
    /\ 2 ^ 52 <= M <= 2 ^ 53
    /\ (e = E \/ e = E + 1).

(** [s] hundredths is a two-decimal number nearest to [100 * n / t]. *)
Definition nearest_percent (n t s : Z) : Prop :=
  2 * Z.abs (s * t - 10000 * n) <= t.

(** Structural equality of Numbers, as a test. *)
Definition number_eqb (x y : number) : bool :=
  match x, y with
  | S754_zero a, S754_zero b => Bool.eqb a b
  | S754_infinity a, S754_infinity b => Bool.eqb a b
  | S754_nan, S754_nan => true
  | S754_finite a m e, S754_finite b m' e' =>
      Bool.eqb a b && Pos.eqb m m' && Z.eqb e e'
  | _, _ => false
  end.

(** The Numbers read from [s] and from [10000 - s] hundredths add up to
    the Number 100. *)
Definition rates_add_up (s : Z) : bool :=
  number_eqb
    (add (fixed2_to_number (FxDec false s))
       (fixed2_to_number (FxDec false (10000 - s))))
    (of_Z 100).

(** Sample documents for the statements that need an instance. *)
Definition sample_user (name : string) (pts : Z) (solved : nat) : User :=
  {| username := name; email := (name ++ "@ctf.test")%string; points := pts;
     solvedChallenges :=
       Some (repeat {| sc_title := "warmup"; sc_category := "web";
                       sc_difficulty := "easy"; sc_points := 10 |} solved);
     createdAt := 1793491200000; isBlocked := false; role := "user" |}.

Definition sample_leaderboard : list User :=
  [sample_user "carol" 200 5; sample_user "alice" 100 2;
   sample_user "bob" 50 0].

Definition sample_solvers : list User :=
  [sample_user "dave" 300 6; sample_user "erin" 150 4].

Definition sample_users : list User :=
  [sample_user "alice" 100 2; sample_user "bob" 50 0;
   sample_user "carol" 200 5].

Definition sample_challenge (t c d : string) (p : Z) (solvers : nat) : Challenge :=
  {| title := t; category := c; difficulty := d; ch_points := p;
     isVisible := true;
     solvedBy :=
       Some (repeat {| sv_username := "alice"; sv_email := "alice@ctf.test";
                       sv_points := 100 |} solvers) |}.

Definition sample_challenges : list Challenge :=
  [sample_challenge "login" "web" "easy" 100 2;
   sample_challenge "cookies" "web" "easy" 200 0;
   sample_challenge "overflow" "pwn" "hard" 500 1].

(** Challenges of which two carry labels that name members of
    [Object.prototype]; the first of the two has no solver. *)
Definition prototype_challenges : list Challenge :=
  [sample_challenge "login" "web" "easy" 100 2;
   sample_challenge "shadow" "constructor" "__proto__" 200 0;
   sample_challenge "ghost" "constructor" "hard" 300 1].

(** * Properties *)

(** ** Counting with filters *)

Lemma filter_length_map {A B} (f : A -> B) (p : B -> bool) (l : list A) :
  length (List.filter p (List.map f l)) = length (List.filter (fun x => p (f x)) l).
Proof.
  induction l as [|x l IH]; simpl; [reflexivity|].
  destruct (p (f x)); simpl; rewrite IH; reflexivity.
Qed.

Lemma filter_length_app {A} (p : A -> bool) (l1 l2 : list A) :
  length (List.filter p (l1 ++ l2))
  = (length (List.filter p l1) + length (List.filter p l2))%nat.
Proof. rewrite List.filter_app, length_app. reflexivity. Qed.

(** ** User engagement *)

Lemma row_tiers now (u : User) :
  let r := engagement_row now u in
  is_high r = (5 <=? solved_count u) && negb (isBlocked u)
  /\ is_medium r
     = (2 <=? solved_count u) && (solved_count u <? 5) && negb (isBlocked u)
  /\ is_low r = (solved_count u <? 2) && negb (isBlocked u)
  /\ is_inactive r = isBlocked u.
Proof.
  unfold is_high, is_medium, is_low, is_inactive, engagement_row, solved_count.
  simpl. rewrite negb_involutive. auto.
Qed.

Lemma row_one_tier now (u : User) :
  let r := engagement_row now u in
  Z.b2z (is_high r) + Z.b2z (is_medium r) + Z.b2z (is_low r)
  + Z.b2z (is_inactive r) = 1.
Proof.
  intros r. subst r.
  pose proof (row_tiers now u) as H. cbv zeta in H.
  destruct H as (-> & -> & -> & ->).
  destruct (isBlocked u); simpl;
    repeat rewrite andb_false_r; repeat rewrite andb_true_r; simpl; [reflexivity|].
  destruct (Z.leb_spec 5 (solved_count u)), (Z.leb_spec 2 (solved_count u)),
    (Z.ltb_spec (solved_count u) 5), (Z.ltb_spec (solved_count u) 2);
    simpl; lia.
Qed.

Lemma count_rows_cons p r rows :
  count_rows p (r :: rows) = Z.b2z (p r) + count_rows p rows.
Proof. unfold count_rows. simpl. destruct (p r); simpl; lia. Qed.

(** C3. The four tier counts of [/user-engagement] add up to the number
    of users. Each count is the number of users of that tier: high for an
    unblocked user with at least 5 solved challenges, medium for an
    unblocked one with 2 to 4, low for an unblocked one with fewer than 2,
    inactive for a blocked one. An unblocked user is in exactly one of
    high, medium and low and not in inactive; a blocked user is in
    inactive and in none of the three. *)
Theorem engagement_tiers_partition (now : Z) (users : list User) :
  let s := fst (user_engagement now users) in
  highEngagement s + mediumEngagement s + lowEngagement s + inactive s
  = Z.of_nat (length users)
  /\ highEngagement s
     = countDocuments
         (fun u => (5 <=? solved_count u) && negb (isBlocked u)) users
  /\ mediumEngagement s
     = countDocuments
         (fun u => (2 <=? solved_count u) && (solved_count u <? 5)
                   && negb (isBlocked u)) users
  /\ lowEngagement s
     = countDocuments
         (fun u => (solved_count u <? 2) && negb (isBlocked u)) users
  /\ inactive s = countDocuments isBlocked users
  /\ forall u : User,
       let r := engagement_row now u in
       if isBlocked u
       then is_high r = false /\ is_medium r = false /\ is_low r = false
            /\ is_inactive r = true
       else Z.b2z (is_high r) + Z.b2z (is_medium r) + Z.b2z (is_low r) = 1
            /\ is_inactive r = false.
Proof.
  simpl. repeat split.
  - induction users as [|u users IH]; [reflexivity|].
    simpl List.map. rewrite !count_rows_cons.
    pose proof (row_one_tier now u) as H1. simpl in H1.
    rewrite length_cons, Nat2Z.inj_succ. lia.
  - unfold count_rows, countDocuments. rewrite filter_length_map.
    do 2 f_equal.
  - unfold count_rows, countDocuments. rewrite filter_length_map.
    do 2 f_equal.
  - unfold count_rows, countDocuments. rewrite filter_length_map.
    do 2 f_equal.
  - unfold count_rows, countDocuments. rewrite filter_length_map.
    do 2 f_equal. apply List.filter_ext. intros u.
    unfold is_inactive. simpl. apply negb_involutive.
  - intros u. pose proof (row_one_tier now u) as H1.
    pose proof (row_tiers now u) as H. cbv zeta in H, H1.
    destruct H as (Hh & Hm & Hl & Hi).
    rewrite Hh, Hm, Hl, Hi in *. destruct (isBlocked u); simpl in *.
    + repeat rewrite andb_false_r. auto.
    + split; [lia | reflexivity].
Qed.

(** ** Overview: the administrators *)

Lemma countDocuments_app {A} (p : A -> bool) (l1 l2 : list A) :
  countDocuments p (l1 ++ l2) = countDocuments p l1 + countDocuments p l2.
Proof. unfold countDocuments. rewrite filter_length_app. lia. Qed.

(** C10. [users.admins] of [/overview] is the number of users whose role
    is exactly ['admin']. A user whose role is ['superadmin'] is not
    counted, wherever the document stands in the collection, although the
    route is declared for both roles. *)
Theorem overview_admins_exclude_superadmin
  (now : Z) (users : list User) (challenges : list Challenge) :
  ov_users_admins (overview now users challenges)
  = Z.of_nat (length (List.filter
                        (fun u => bool_decide (role u = "admin"%string)) users))
  /\ (forall (u : User) (before after : list User),
        role u = "superadmin"%string ->
        ov_users_admins (overview now (before ++ u :: after) challenges)
        = ov_users_admins (overview now (before ++ after) challenges))
  /\ overview_access = ["admin"; "superadmin"]%string.
Proof.
  split; [|split; [|reflexivity]].
  - simpl. unfold countDocuments. do 2 f_equal.
    apply List.filter_ext. intros u.
    destruct (String.eqb_spec (role u) "admin");
      [rewrite bool_decide_eq_true_2 | rewrite bool_decide_eq_false_2]; auto.
  - intros u before after Hrole. simpl.
    rewrite !countDocuments_app.
    replace (u :: after) with ([u] ++ after) by reflexivity.
    rewrite countDocuments_app. unfold countDocuments at 2. simpl.
    rewrite Hrole. simpl. lia.
Qed.

(** ** The sort: a stable, sorted permutation *)

Section JsSort.
Context {A : Type} (cmp : A -> A -> Z).

Lemma sort_insert_perm (x : A) (s : list A) :
  Permutation (sort_insert cmp x s) (x :: s).
Proof.
  induction s as [|y s IH]; simpl; [reflexivity|].
  destruct (cmp x y <=? 0); [reflexivity|].
  rewrite IH. apply perm_swap.
Qed.

Lemma js_sort_perm (l : list A) : Permutation (js_sort cmp l) l.
Proof.
  induction l as [|x l IH]; simpl; [reflexivity|].
  rewrite sort_insert_perm. apply perm_skip, IH.
Qed.

(** Elements that compare equal keep their order: whatever class [P] of
    pairwise equal elements is singled out, the sort leaves the
    subsequence of its members as it was. *)
Lemma sort_insert_stable (P : A -> bool) (x : A) (s : list A) :
  (forall a b, P a = true -> P b = true -> cmp a b <= 0) ->
  List.filter P (sort_insert cmp x s) = List.filter P (x :: s).
Proof.
  intros HP. induction s as [|y s IH]; [reflexivity|].
  simpl sort_insert. destruct (Z.leb_spec (cmp x y) 0) as [Hle|Hgt]; [reflexivity|].
  simpl in *. rewrite IH.
  destruct (P x) eqn:Hx, (P y) eqn:Hy; try reflexivity.
  specialize (HP x y Hx Hy). lia.
Qed.

Lemma js_sort_stable (P : A -> bool) (l : list A) :
  (forall a b, P a = true -> P b = true -> cmp a b <= 0) ->
  List.filter P (js_sort cmp l) = List.filter P l.
Proof.
  intros HP. induction l as [|x l IH]; [reflexivity|].
  simpl js_sort. rewrite sort_insert_stable by assumption.
  simpl. rewrite IH. reflexivity.
Qed.

Hypothesis cmp_trans :
  forall a b c, cmp a b <= 0 -> cmp b c <= 0 -> cmp a c <= 0.
Hypothesis cmp_total : forall a b, 0 < cmp a b -> cmp b a <= 0.

Lemma sort_insert_sorted (x : A) (s : list A) :
  StronglySorted (fun a b => cmp a b <= 0) s ->
  StronglySorted (fun a b => cmp a b <= 0) (sort_insert cmp x s).
Proof.
  induction 1 as [|y s Hs IH Hy]; simpl.
  - repeat constructor.
  - destruct (Z.leb_spec (cmp x y) 0) as [Hle|Hgt].
    + constructor; [constructor; assumption|].
      constructor; [assumption|].
      eapply Forall_impl; [exact Hy|]. intros z Hz; simpl in Hz. eauto.
    + constructor; [exact IH|].
      eapply Permutation_Forall; [symmetry; apply sort_insert_perm|].
      constructor; auto.
Qed.

Lemma js_sort_sorted (l : list A) :
  StronglySorted (fun a b => cmp a b <= 0) (js_sort cmp l).
Proof.
  induction l as [|x l IH]; simpl; [constructor|].
  apply sort_insert_sorted, IH.
Qed.

End JsSort.

Lemma StronglySorted_lookup {A} (R : A -> A -> Prop) (l : list A) :
  StronglySorted R l ->
  forall i j a b, (i < j)%nat -> l !! i = Some a -> l !! j = Some b -> R a b.
Proof.
  induction 1 as [|x l Hs IH Hx]; intros i j a b Hij Hi Hj.
  - rewrite lookup_nil in Hi. discriminate.
  - destruct j as [|j]; [lia|]. simpl in Hj. destruct i as [|i]; simpl in Hi.
    + injection Hi as <-. rewrite Forall_forall in Hx. apply Hx.
      eapply list_elem_of_lookup_2; eauto.
    + apply (IH i j a b); [lia | assumption | assumption].
Qed.

Lemma StronglySorted_weaken {A} (R S : A -> A -> Prop) (l : list A) :
  (forall a b, R a b -> S a b) -> StronglySorted R l -> StronglySorted S l.
Proof.
  intros HRS. induction 1 as [|x l Hs IH Hx]; constructor; [assumption|].
  eapply Forall_impl; [exact Hx|]. intros b. apply HRS.
Qed.

(** A list in ascending order of a key, with the elements of each key in
    a given order, is determined. *)
Lemma stable_sorted_unique {A} (key : A -> Z) (l1 l2 : list A) :
  StronglySorted (fun a b => key a <= key b) l1 ->
  StronglySorted (fun a b => key a <= key b) l2 ->
  (forall k, List.filter (fun a => key a =? k) l1
             = List.filter (fun a => key a =? k) l2) ->
  l1 = l2.
Proof.
  revert l2. induction l1 as [|x l1 IH]; intros l2 H1 H2 HF.
  - destruct l2 as [|y l2]; [reflexivity|].
    specialize (HF (key y)). simpl in HF. rewrite Z.eqb_refl in HF.
    discriminate.
  - destruct l2 as [|y l2].
    { specialize (HF (key x)). simpl in HF. rewrite Z.eqb_refl in HF.
      discriminate. }
    apply StronglySorted_inv in H1 as [H1 F1].
    apply StronglySorted_inv in H2 as [H2 F2].
    assert (Hk : key x = key y).
    { destruct (Z.eq_dec (key x) (key y)) as [|Hne]; [assumption|].
      pose proof (HF (key x)) as Hx. pose proof (HF (key y)) as Hy.
      simpl in Hx, Hy. rewrite Z.eqb_refl in Hx, Hy.
      destruct (Z.eqb_spec (key y) (key x)) as [|_]; [congruence|].
      destruct (Z.eqb_spec (key x) (key y)) as [|_]; [congruence|].
      assert (Ix : In x l2).
      { apply (List.filter_In (fun a => key a =? key x) x l2).
        rewrite <- Hx. left. reflexivity. }
      assert (Iy : In y l1).
      { apply (List.filter_In (fun a => key a =? key y) y l1).
        rewrite Hy. left. reflexivity. }
      pose proof (proj1 (List.Forall_forall _ _) F1 y Iy).
      pose proof (proj1 (List.Forall_forall _ _) F2 x Ix).
      simpl in *. lia. }
    pose proof (HF (key x)) as Hx. simpl in Hx.
    rewrite Z.eqb_refl, <- Hk, Z.eqb_refl in Hx.
    injection Hx as <- Hx.
    f_equal. apply IH; [assumption..|]. intros k.
    destruct (Z.eq_dec (key x) k) as [<-|Hne]; [exact Hx|].
    specialize (HF k). simpl in HF.
    destruct (Z.eqb_spec (key x) k) as [|_]; [contradiction|]. exact HF.
Qed.

(** ** Leaderboard *)

Lemma topUsersData_lookup (topUsers : list User) (i : nat) (row : LeaderRow) :
  topUsersData topUsers !! i = Some row ->
  exists u, topUsers !! i = Some u
    /\ lr_rank row = Z.of_nat i + 1
    /\ lr_username row = username u
    /\ lr_points row = points u
    /\ lr_challengesSolved row = solved_count u.
Proof.
  unfold topUsersData. rewrite list_lookup_imap.
  destruct (topUsers !! i) as [u|]; simpl; [|discriminate].
  intros [= <-]. exists u. simpl. auto.
Qed.

Lemma topUsersData_sorted_rows (sorted : list User) :
  StronglySorted (fun a b => points b <= points a) sorted ->
  forall i j ri rj, (i <= j)%nat ->
    topUsersData (firstn 10 sorted) !! i = Some ri ->
    topUsersData (firstn 10 sorted) !! j = Some rj ->
    lr_points rj <= lr_points ri.
Proof.
  intros Hs i j ri rj Hij Hi Hj.
  destruct (topUsersData_lookup _ _ _ Hi) as (ui & Hui & _ & _ & Hpi & _).
  destruct (topUsersData_lookup _ _ _ Hj) as (uj & Huj & _ & _ & Hpj & _).
  rewrite Hpi, Hpj.
  apply lookup_take_Some in Hui, Huj. destruct Hui as [Hui _], Huj as [Huj _].
  destruct (decide (i = j)) as [->|Hne].
  - rewrite Hui in Huj. injection Huj as <-. lia.
  - eapply (StronglySorted_lookup _ _ Hs i j); eauto. lia.
Qed.

(** The collection as the query hands it over: in descending order of
    points, a permutation of the stored one, documents with equal points
    in their stored order. *)
Lemma find_top_users_sorted (users : list User) :
  exists sorted,
    find_top_users users = firstn 10 sorted
    /\ StronglySorted (fun a b => points b <= points a) sorted
    /\ Permutation sorted users
    /\ (forall k, List.filter (fun u => points u =? k) sorted
                  = List.filter (fun u => points u =? k) users).
Proof.
  exists (js_sort by_points_desc users). split; [reflexivity|]. split.
  - eapply StronglySorted_weaken; [|apply (js_sort_sorted by_points_desc)].
    + unfold by_points_desc. intros a b H. simpl in H. lia.
    + unfold by_points_desc. intros; lia.
    + unfold by_points_desc. intros; lia.
  - split; [apply js_sort_perm|]. intros k. apply js_sort_stable.
    unfold by_points_desc. intros a b Ha Hb. lia.
Qed.

(** A collection already in descending order of points is left as it is. *)
Lemma by_points_desc_sorted_id (users : list User) :
  StronglySorted (fun a b => points b <= points a) users ->
  js_sort by_points_desc users = users.
Proof.
  intros Hs. apply (stable_sorted_unique (fun u => - points u)).
  - eapply StronglySorted_weaken; [|apply (js_sort_sorted by_points_desc)].
    + unfold by_points_desc. intros a b H. simpl in H. lia.
    + unfold by_points_desc. intros; lia.
    + unfold by_points_desc. intros; lia.
  - eapply StronglySorted_weaken; [|exact Hs]. intros a b H. simpl in H. lia.
  - intros k. apply js_sort_stable. unfold by_points_desc. intros a b Ha Hb. lia.
Qed.

(** C6. [/leaderboard-stats] asks for the users in descending order of
    points, limited to ten. Whatever the collection, its rows are at
    most ten (ten, or all users if fewer), the row at position [i] (from
    0) has rank [i + 1] and is the projection of the document at
    position [i] of the sorted collection, and the points never increase
    along the rows. The sorted collection has the users of the stored
    one, those with equal points in their stored order; a collection
    that is in descending order of points already is listed as it is, so
    that ties keep its order. *)
Theorem leaderboard_ranks_in_order (users : list User) :
  let rows := leaderboard_stats users in
  let listed := find_top_users users in
  (length rows <= 10)%nat
  /\ length rows = Nat.min 10 (length users)
  /\ (forall i row, rows !! i = Some row ->
        lr_rank row = Z.of_nat i + 1
        /\ exists u, listed !! i = Some u
             /\ lr_username row = username u
             /\ lr_points row = points u
             /\ lr_challengesSolved row = solved_count u)
  /\ (forall i j ri rj, (i <= j)%nat ->
        rows !! i = Some ri -> rows !! j = Some rj ->
        lr_points rj <= lr_points ri)
  /\ (exists sorted,
        listed = firstn 10 sorted
        /\ Permutation sorted users
        /\ StronglySorted (fun a b => points b <= points a) sorted
        /\ forall k, List.filter (fun u => points u =? k) sorted
                     = List.filter (fun u => points u =? k) users)
  /\ (StronglySorted (fun a b => points b <= points a) users ->
        listed = firstn 10 users
        /\ forall i row, rows !! i = Some row ->
             exists u, users !! i = Some u
               /\ lr_rank row = Z.of_nat i + 1
               /\ lr_username row = username u
               /\ lr_points row = points u).
Proof.
  cbv zeta. unfold leaderboard_stats.
  destruct (find_top_users_sorted users) as (sorted & Hl & Hs & Hp & Hst).
  assert (Hlen : length (topUsersData (find_top_users users))
                 = Nat.min 10 (length users)).
  { unfold topUsersData. rewrite length_imap, Hl, length_take.
    rewrite (Permutation_length Hp). reflexivity. }
  split; [lia|]. split; [exact Hlen|]. split; [|split; [|split]].
  - intros i row Hrow.
    destruct (topUsersData_lookup _ _ _ Hrow) as (u & Hu & Hr & Hn & Hpt & Hc).
    split; [exact Hr|]. exists u. auto.
  - rewrite Hl. apply topUsersData_sorted_rows, Hs.
  - exists sorted. auto.
  - intros Hsorted.
    assert (E : find_top_users users = firstn 10 users)
      by (unfold find_top_users; rewrite by_points_desc_sorted_id; auto).
    split; [exact E|]. intros i row Hrow. rewrite E in Hrow.
    destruct (topUsersData_lookup _ _ _ Hrow) as (u & Hu & Hr & Hn & Hpt & _).
    exists u. apply lookup_take_Some in Hu. destruct Hu as [Hu _]. auto.
Qed.

(** ** Challenge statistics: the two groupings *)

Lemma sum_list_Z_app {A} (f : A -> Z) (l1 l2 : list A) :
  sum_list_Z f (l1 ++ l2) = sum_list_Z f l1 + sum_list_Z f l2.
Proof.
  induction l1 as [|x l1 IH]; simpl; [reflexivity|].
  unfold sum_list_Z in *. simpl. rewrite IH. lia.
Qed.

Lemma sum_list_Z_map {A B} (f : A -> B) (g : B -> Z) (l : list A) :
  sum_list_Z g (List.map f l) = sum_list_Z (fun x => g (f x)) l.
Proof.
  unfold sum_list_Z. induction l as [|x l IH]; simpl; congruence.
Qed.

Lemma add_category_lookup (m : gmap string CategoryEntry) (c : Challenge) (k : string) :
  add_category m c !! k
  = if inherited (category c) then m !! k
    else if decide (category c = k)
    then let e := default {| cat_count := 0; cat_solved := 0 |} (m !! k) in
         Some {| cat_count := cat_count e + 1;
                 cat_solved := cat_solved e + solves c |}
    else m !! k.
Proof.
  unfold add_category. destruct (inherited (category c)); [reflexivity|].
  destruct (decide (category c = k)) as [<-|Hne].
  - rewrite !lookup_alter_eq.
    destruct (m !! category c) as [e|] eqn:He.
    + rewrite He. reflexivity.
    + rewrite lookup_insert_eq. reflexivity.
  - rewrite !lookup_alter_ne by assumption.
    destruct (m !! category c); [reflexivity|].
    rewrite lookup_insert_ne by assumption. reflexivity.
Qed.

Lemma add_difficulty_lookup (m : gmap string DifficultyEntry) (c : Challenge) (k : string) :
  add_difficulty m c !! k
  = if inherited (difficulty c) then m !! k
    else if decide (difficulty c = k)
    then let e := default {| diff_count := 0; avgPoints := of_Z 0 |} (m !! k) in
         Some {| diff_count := diff_count e + 1;
                 avgPoints := add (avgPoints e) (of_Z (ch_points c)) |}
    else m !! k.
Proof.
  unfold add_difficulty. destruct (inherited (difficulty c)); [reflexivity|].
  destruct (decide (difficulty c = k)) as [<-|Hne].
  - rewrite !lookup_alter_eq.
    destruct (m !! difficulty c) as [e|] eqn:He.
    + rewrite He. reflexivity.
    + rewrite lookup_insert_eq. reflexivity.
  - rewrite !lookup_alter_ne by assumption.
    destruct (m !! difficulty c); [reflexivity|].
    rewrite lookup_insert_ne by assumption. reflexivity.
Qed.

Lemma fold_stats_snoc (cs : list Challenge) (c : Challenge) :
  fold_left stats_step (cs ++ [c]) stats_init
  = stats_step (fold_left stats_step cs stats_init) c.
Proof. rewrite fold_left_app. reflexivity. Qed.

Lemma number_sum_snoc (l : list Z) (p : Z) :
  number_sum (l ++ [p]) = add (number_sum l) (of_Z p).
Proof. unfold number_sum. rewrite fold_left_app. reflexivity. Qed.

Lemma category_entry_snoc (k : string) (cs : list Challenge) (c : Challenge) :
  category_entry k (cs ++ [c])
  = if inherited (category c) then category_entry k cs
    else if decide (category c = k)
    then let e := default {| cat_count := 0; cat_solved := 0 |}
                    (category_entry k cs) in
         Some {| cat_count := cat_count e + 1;
                 cat_solved := cat_solved e + solves c |}
    else category_entry k cs.
Proof.
  unfold category_entry. rewrite List.filter_app. simpl.
  unfold in_category at 2.
  destruct (decide (category c = k)) as [<-|Hne].
  - rewrite String.eqb_refl.
    destruct (inherited (category c)); [reflexivity|].
    destruct (List.filter (in_category (category c)) cs) as [|x l] eqn:E; simpl.
    + f_equal; f_equal; unfold sum_list_Z; simpl; lia.
    + f_equal; f_equal.
      * rewrite length_app. simpl. lia.
      * change (solves x + sum_list_Z solves (l ++ [c])
                = solves x + sum_list_Z solves l + solves c).
        rewrite sum_list_Z_app. unfold sum_list_Z. simpl. lia.
  - destruct (String.eqb_spec (category c) k) as [Heq|_]; [contradiction|].
    rewrite app_nil_r. destruct (inherited (category c)); reflexivity.
Qed.

Lemma difficulty_entry_snoc (k : string) (cs : list Challenge) (c : Challenge) :
  difficulty_entry k (cs ++ [c])
  = if inherited (difficulty c) then difficulty_entry k cs
    else if decide (difficulty c = k)
    then let e := default {| diff_count := 0; avgPoints := of_Z 0 |}
                    (difficulty_entry k cs) in
         Some {| diff_count := diff_count e + 1;
                 avgPoints := add (avgPoints e) (of_Z (ch_points c)) |}
    else difficulty_entry k cs.
Proof.
  unfold difficulty_entry. rewrite List.filter_app. simpl.
  unfold in_difficulty at 2.
  destruct (decide (difficulty c = k)) as [<-|Hne].
  - rewrite String.eqb_refl.
    destruct (inherited (difficulty c)); [reflexivity|].
    destruct (List.filter (in_difficulty (difficulty c)) cs) as [|x l] eqn:E.
    + reflexivity.
    + cbn [default from_option diff_count avgPoints].
      change ((x :: l) ++ [c]) with (x :: (l ++ [c])).
      f_equal; f_equal.
      * cbn [length]. rewrite length_app. simpl. lia.
      * change (x :: l ++ [c]) with ((x :: l) ++ [c]).
        rewrite List.map_app.
        exact (number_sum_snoc (List.map ch_points (x :: l)) (ch_points c)).
  - destruct (String.eqb_spec (difficulty c) k) as [Heq|_]; [contradiction|].
    rewrite app_nil_r. destruct (inherited (difficulty c)); reflexivity.
Qed.

Lemma byCategory_fold (cs : list Challenge) (k : string) :
  byCategory (fold_left stats_step cs stats_init) !! k = category_entry k cs.
Proof.
  induction cs as [|c cs IH] using rev_ind.
  - unfold category_entry. simpl. rewrite lookup_empty.
    destruct (inherited k); reflexivity.
  - rewrite fold_stats_snoc, category_entry_snoc. simpl.
    rewrite add_category_lookup, IH. reflexivity.
Qed.

Lemma byDifficulty_fold (cs : list Challenge) (k : string) :
  byDifficulty (fold_left stats_step cs stats_init) !! k = difficulty_entry k cs.
Proof.
  induction cs as [|c cs IH] using rev_ind.
  - unfold difficulty_entry. simpl. rewrite lookup_empty.
    destruct (inherited k); reflexivity.
  - rewrite fold_stats_snoc, difficulty_entry_snoc. simpl.
    rewrite add_difficulty_lookup, IH. reflexivity.
Qed.

(** ** Challenge statistics: totals over the categories *)

Lemma sum_entries_insert_fresh {V} (f : V -> Z) (m : gmap string V) k v :
  m !! k = None -> sum_entries f (<[k:=v]> m) = sum_entries f m + f v.
Proof.
  intros Hk. unfold sum_entries.
  rewrite map_fold_insert_L; [reflexivity| |assumption].
  intros; lia.
Qed.

Lemma sum_entries_insert {V} (f : V -> Z) (m : gmap string V) k v :
  sum_entries f (<[k:=v]> m)
  = sum_entries f m - from_option f 0 (m !! k) + f v.
Proof.
  destruct (m !! k) as [old|] eqn:Hk; simpl.
  - rewrite <- (insert_delete_eq m k v).
    rewrite sum_entries_insert_fresh by apply lookup_delete_eq.
    rewrite <- (insert_delete_id m k old Hk) at 2.
    rewrite sum_entries_insert_fresh by apply lookup_delete_eq. lia.
  - rewrite sum_entries_insert_fresh by assumption. lia.
Qed.

Lemma add_category_inherited (m : gmap string CategoryEntry) (c : Challenge) :
  inherited (category c) = true -> add_category m c = m.
Proof. intros H. unfold add_category. rewrite H. reflexivity. Qed.

Lemma add_category_insert (m : gmap string CategoryEntry) (c : Challenge) :
  inherited (category c) = false ->
  add_category m c
  = <[category c :=
        let e := default {| cat_count := 0; cat_solved := 0 |}
                   (m !! category c) in
        {| cat_count := cat_count e + 1;
           cat_solved := cat_solved e + solves c |}]> m.
Proof.
  intros Hown. apply map_eq. intros k. rewrite add_category_lookup, Hown.
  destruct (decide (category c = k)) as [<-|Hne].
  - rewrite lookup_insert_eq. reflexivity.
  - rewrite lookup_insert_ne by assumption. reflexivity.
Qed.

Lemma sum_entries_add_category (m : gmap string CategoryEntry) (c : Challenge) :
  sum_entries cat_count (add_category m c)
  = sum_entries cat_count m + (if own_category c then 1 else 0)
  /\ sum_entries cat_solved (add_category m c)
     = sum_entries cat_solved m + (if own_category c then solves c else 0).
Proof.
  unfold own_category. destruct (inherited (category c)) eqn:Hk; cbn [negb].
  - rewrite add_category_inherited by exact Hk. lia.
  - rewrite add_category_insert by exact Hk. rewrite !sum_entries_insert.
    destruct (m !! category c); simpl; lia.
Qed.

Lemma byCategory_fold_sums (cs : list Challenge) :
  sum_entries cat_count (byCategory (fold_left stats_step cs stats_init))
  = Z.of_nat (length (List.filter own_category cs))
  /\ sum_entries cat_solved (byCategory (fold_left stats_step cs stats_init))
     = sum_list_Z solves (List.filter own_category cs).
Proof.
  induction cs as [|c cs IH] using rev_ind.
  - split; reflexivity.
  - rewrite fold_stats_snoc. simpl.
    destruct (sum_entries_add_category
                (byCategory (fold_left stats_step cs stats_init)) c) as [-> ->].
    destruct IH as [-> ->].
    rewrite List.filter_app. simpl.
    destruct (own_category c); rewrite ?app_nil_r.
    + rewrite length_app, sum_list_Z_app. unfold sum_list_Z. simpl. split; lia.
    + split; lia.
Qed.

Lemma filter_length_all {A} (p : A -> bool) (l : list A) :
  length (List.filter p l) = length l <-> (forall x, In x l -> p x = true).
Proof.
  induction l as [|x l IH]; simpl.
  - split; [intros _ y []|reflexivity].
  - pose proof (List.filter_length_le p l) as Hle.
    destruct (p x) eqn:Hp; simpl.
    + split.
      * intros H y [<-|Hy]; [exact Hp|]. apply IH; [lia|exact Hy].
      * intros H. f_equal. apply IH. intros y Hy. apply H. right. exact Hy.
    + split; [lia|]. intros H. specialize (H x (or_introl eq_refl)). congruence.
Qed.

(** C4. Over the categories of [byCategory], the [count] fields add up
    to the number of the challenges whose category does not name a
    member of [Object.prototype], and the [solved] fields to the sum of
    the lengths of [solvedBy] over these challenges. So the counts add
    up to the number of all challenges exactly when no category is such
    a name: a challenge of category ["constructor"] is missing from the
    total (in [prototype_challenges] one challenge of three is counted,
    two solves of three). *)
Theorem byCategory_sums (challenges : list Challenge) :
  let st := challenge_stats challenges in
  let counted := List.filter own_category challenges in
  sum_entries cat_count (byCategory st) = Z.of_nat (length counted)
  /\ sum_entries cat_solved (byCategory st)
     = sum_list_Z (fun c => length_or_0 (solvedBy c)) counted
  /\ (sum_entries cat_count (byCategory st) = Z.of_nat (length challenges)
      <-> forall c, In c challenges -> inherited (category c) = false)
  /\ ((forall c, In c challenges -> inherited (category c) = false) ->
      sum_entries cat_solved (byCategory st)
      = sum_list_Z (fun c => length_or_0 (solvedBy c)) challenges)
  /\ sum_entries cat_count (byCategory (challenge_stats prototype_challenges)) = 1
  /\ Z.of_nat (length prototype_challenges) = 3
  /\ sum_entries cat_solved (byCategory (challenge_stats prototype_challenges)) = 2
  /\ sum_list_Z (fun c => length_or_0 (solvedBy c)) prototype_challenges = 3.
Proof.
  cbv zeta. cbn [challenge_stats byCategory].
  assert (Hall : (forall c, In c challenges -> inherited (category c) = false)
                 <-> length (List.filter own_category challenges)
                     = length challenges).
  { rewrite filter_length_all. unfold own_category.
    split; intros H c Hc; specialize (H c Hc);
      destruct (inherited (category c)); simpl in *; congruence. }
  destruct (byCategory_fold_sums challenges) as [Hc Hs].
  split; [exact Hc|]. split; [exact Hs|]. split; [|split].
  - rewrite Hc, Hall. split; [intros H; lia | intros ->; reflexivity].
  - intros H. rewrite Hs. f_equal.
    apply Hall in H. clear -H.
    induction challenges as [|c cs IH]; [reflexivity|].
    simpl in *. pose proof (List.filter_length_le own_category cs).
    destruct (own_category c); simpl in *; [f_equal; apply IH; lia|lia].
  - destruct (byCategory_fold_sums prototype_challenges) as [-> ->].
    repeat split; vm_compute; reflexivity.
Qed.

(** ** Challenge statistics: the solved challenges *)

Lemma has_solvers_solves (c : Challenge) : has_solvers c = (0 <? solves c).
Proof. unfold has_solvers, solves, length_or_0. destruct (solvedBy c); reflexivity. Qed.

Lemma solvedChallenges_fold (cs : list Challenge) :
  st_solvedChallenges (fold_left stats_step cs stats_init)
  = List.map solved_row (List.filter has_solvers cs).
Proof.
  induction cs as [|c cs IH] using rev_ind; [reflexivity|].
  rewrite fold_stats_snoc. simpl. unfold add_solved. rewrite IH.
  rewrite List.filter_app, List.map_app. simpl.
  destruct (has_solvers c); simpl; [reflexivity|]. rewrite !app_nil_r. reflexivity.
Qed.

Lemma solved_row_solvers (c : Challenge) :
  sr_solvedBy (solved_row c) = default [] (solvedBy c).
Proof.
  unfold solved_row. simpl. induction (default [] (solvedBy c)) as [|[n e p] l IH];
    simpl; [reflexivity|]. rewrite IH. reflexivity.
Qed.

(** C7. [solvedChallenges] lists, in the order of the collection, the
    projection of exactly the challenges with at least one solver, each
    with its own solvers; so no row has an empty solver list. A challenge
    of the collection, with or without solvers, whose category does not
    name a member of [Object.prototype] has an entry in [byCategory]
    whose [count] is the number of all challenges with its category,
    itself included; likewise for its difficulty and [byDifficulty]. A
    label that names such a member has no entry: the challenge
    ["shadow"] of [prototype_challenges], without solvers, of category
    ["constructor"] and difficulty ["__proto__"], is counted in neither
    grouping. *)
Theorem solvedChallenges_exactly_the_solved (challenges : list Challenge) :
  let st := challenge_stats challenges in
  st_solvedChallenges st
  = List.map solved_row (List.filter (fun c => 0 <? solves c) challenges)
  /\ (forall c, sr_title (solved_row c) = title c
                /\ sr_category (solved_row c) = category c
                /\ sr_difficulty (solved_row c) = difficulty c
                /\ sr_points (solved_row c) = ch_points c
                /\ sr_solvedBy (solved_row c) = default [] (solvedBy c))
  /\ Forall (fun row => sr_solvedBy row <> []) (st_solvedChallenges st)
  /\ (forall c, In c challenges -> inherited (category c) = false ->
        exists ce,
          byCategory st !! category c = Some ce
          /\ cat_count ce
             = Z.of_nat (length (List.filter (in_category (category c)) challenges))
          /\ 1 <= cat_count ce)
  /\ (forall c, In c challenges -> inherited (difficulty c) = false ->
        exists de,
          byDifficulty st !! difficulty c = Some de
          /\ diff_count de
             = Z.of_nat (length (List.filter (in_difficulty (difficulty c)) challenges))
          /\ 1 <= diff_count de)
  /\ (forall k, inherited k = true ->
        byCategory st !! k = None /\ byDifficulty st !! k = None)
  /\ (exists c, In c prototype_challenges
        /\ title c = "shadow"%string /\ solves c = 0
        /\ byCategory (challenge_stats prototype_challenges) !! category c = None
        /\ byDifficulty (challenge_stats prototype_challenges) !! difficulty c
           = None).
Proof.
  assert (Hrows : st_solvedChallenges (challenge_stats challenges)
                  = List.map solved_row
                      (List.filter (fun c => 0 <? solves c) challenges)).
  { simpl. rewrite solvedChallenges_fold. f_equal.
    apply List.filter_ext. intros c. apply has_solvers_solves. }
  cbv zeta. split; [exact Hrows|]. split; [|split; [|split; [|split; [|split]]]].
  - intros c. repeat split. apply solved_row_solvers.
  - rewrite Hrows. rewrite Forall_forall. intros row Hin.
    apply list_elem_of_In, in_map_iff in Hin. destruct Hin as (c & <- & Hc).
    apply filter_In in Hc. destruct Hc as [_ Hc].
    rewrite solved_row_solvers. unfold solves, length_or_0 in Hc.
    destruct (solvedBy c) as [[|x l]|]; simpl in *; try discriminate.
  - intros c Hin Hown. simpl. rewrite byCategory_fold.
    unfold category_entry. rewrite Hown.
    assert (Hc : In c (List.filter (in_category (category c)) challenges)).
    { apply filter_In. split; [assumption|]. apply String.eqb_refl. }
    destruct (List.filter (in_category (category c)) challenges) as [|x l];
      [destruct Hc|].
    eexists. repeat split; simpl; lia.
  - intros c Hin Hown. simpl. rewrite byDifficulty_fold.
    unfold difficulty_entry. rewrite Hown.
    assert (Hd : In c (List.filter (in_difficulty (difficulty c)) challenges)).
    { apply filter_In. split; [assumption|]. apply String.eqb_refl. }
    destruct (List.filter (in_difficulty (difficulty c)) challenges) as [|y l'];
      [destruct Hd|].
    eexists. repeat split; simpl; lia.
  - intros k Hk. simpl. rewrite byCategory_fold, byDifficulty_fold.
    unfold category_entry, difficulty_entry. rewrite Hk. split; reflexivity.
  - exists (sample_challenge "shadow" "constructor" "__proto__" 200 0).
    split; [right; left; reflexivity|].
    split; [reflexivity|]. split; [reflexivity|].
    split; vm_compute; reflexivity.
Qed.

(** ** Challenge statistics: the most and the least solved *)

Lemma by_solves_desc_sorted (l : list Challenge) :
  StronglySorted (fun a b => solves b <= solves a) (js_sort by_solves_desc l).
Proof.
  eapply StronglySorted_weaken; [| apply (js_sort_sorted by_solves_desc)].
  - unfold by_solves_desc. intros a b H. simpl in H. lia.
  - unfold by_solves_desc. intros; lia.
  - unfold by_solves_desc. intros; lia.
Qed.

Lemma by_solves_asc_sorted (l : list Challenge) :
  StronglySorted (fun a b => solves a <= solves b) (js_sort by_solves_asc l).
Proof.
  eapply StronglySorted_weaken; [| apply (js_sort_sorted by_solves_asc)].
  - unfold by_solves_asc. intros a b H. simpl in H. lia.
  - unfold by_solves_asc. intros; lia.
  - unfold by_solves_asc. intros; lia.
Qed.

Lemma same_solves_desc (k : Z) (a b : Challenge) :
  same_solves k a = true -> same_solves k b = true -> by_solves_desc a b <= 0.
Proof. unfold same_solves, by_solves_desc. lia. Qed.

Lemma same_solves_asc (k : Z) (a b : Challenge) :
  same_solves k a = true -> same_solves k b = true -> by_solves_asc a b <= 0.
Proof. unfold same_solves, by_solves_asc. lia. Qed.

(** C9. [topChallenges] is the projection to title, solves and points of
    the five first challenges of the collection put in descending order
    of solve count, [leastSolved] that of the five first in ascending
    order. Each order is a permutation of the collection in which
    challenges with the same solve count stand as they do in the
    collection: no other key breaks the ties, also for [leastSolved],
    whose sort runs on the array the first sort has reordered. *)
Theorem top_and_least_solved (challenges : list Challenge) :
  exists byDesc byAsc : list Challenge,
    topChallenges (challenge_stats challenges) = List.map brief (firstn 5 byDesc)
    /\ leastSolved (challenge_stats challenges) = List.map brief (firstn 5 byAsc)
    /\ Permutation byDesc challenges
    /\ StronglySorted (fun a b => solves b <= solves a) byDesc
    /\ (forall k, List.filter (same_solves k) byDesc
                  = List.filter (same_solves k) challenges)
    /\ Permutation byAsc challenges
    /\ StronglySorted (fun a b => solves a <= solves b) byAsc
    /\ (forall k, List.filter (same_solves k) byAsc
                  = List.filter (same_solves k) challenges)
    /\ (forall c, cb_title (brief c) = title c
                  /\ cb_solves (brief c) = length_or_0 (solvedBy c)
                  /\ cb_points (brief c) = ch_points c).
Proof.
  exists (js_sort by_solves_desc challenges),
         (js_sort by_solves_asc (js_sort by_solves_desc challenges)).
  split; [reflexivity|]. split; [reflexivity|].
  split; [apply js_sort_perm|].
  split; [apply by_solves_desc_sorted|].
  split; [intros k; apply js_sort_stable, same_solves_desc|].
  split; [rewrite js_sort_perm; apply js_sort_perm|].
  split; [apply by_solves_asc_sorted|].
  split; [|intros c; repeat split].
  intros k. rewrite js_sort_stable by apply same_solves_asc.
  apply js_sort_stable, same_solves_desc.
Qed.

(** ** Dates: the calendar functions *)

Lemma DayFromYear_succ (y : Z) :
  JsDate.DayFromYear (y + 1) = JsDate.DayFromYear y + JsDate.DaysInYear y.
Proof.
  unfold JsDate.DayFromYear, JsDate.DaysInYear.
  destruct (Z.eqb_spec (y mod 4) 0), (Z.eqb_spec (y mod 100) 0),
    (Z.eqb_spec (y mod 400) 0); cbn [negb];
    Z.to_euclidean_division_equations; lia.
Qed.

(** [YearFromDay d] is the year the day [d] falls in. *)
Lemma YearFromDay_spec (d : Z) :
  JsDate.DayFromYear (JsDate.YearFromDay d) <= d
  < JsDate.DayFromYear (JsDate.YearFromDay d + 1).
Proof.
  unfold JsDate.YearFromDay.
  set (est := 1970 + 400 * d / 146097).
  assert (H1 : JsDate.DayFromYear (est - 1) <= d)
    by (unfold JsDate.DayFromYear, est; Z.to_euclidean_division_equations; lia).
  assert (H2 : d < JsDate.DayFromYear (est + 2))
    by (unfold JsDate.DayFromYear, est; Z.to_euclidean_division_equations; lia).
  destruct (Z.leb_spec (JsDate.DayFromYear (est + 1)) d).
  - replace (est + 1 + 1) with (est + 2) by lia. lia.
  - destruct (Z.leb_spec (JsDate.DayFromYear est) d).
    + lia.
    + replace (est - 1 + 1) with est by lia. lia.
Qed.

Lemma DayFromYear_mono (a b : Z) :
  a <= b -> JsDate.DayFromYear a <= JsDate.DayFromYear b.
Proof.
  intros Hab. unfold JsDate.DayFromYear.
  Z.to_euclidean_division_equations; lia.
Qed.

(** It is the largest year that starts on or before the day [d]. *)
Lemma YearFromDay_largest (d y : Z) :
  JsDate.DayFromYear y <= d -> y <= JsDate.YearFromDay d.
Proof.
  intros Hy. destruct (YearFromDay_spec d) as [_ Hlt].
  destruct (Z.le_gt_cases y (JsDate.YearFromDay d)) as [H|H]; [exact H|].
  pose proof (DayFromYear_mono (JsDate.YearFromDay d + 1) y ltac:(lia)). lia.
Qed.

Lemma DaysInYear_cases (y : Z) :
  JsDate.DaysInYear y = 365 \/ JsDate.DaysInYear y = 366.
Proof.
  unfold JsDate.DaysInYear.
  destruct (negb _); [auto|]. destruct (negb _); [auto|]. destruct (negb _); auto.
Qed.

Lemma DayWithinYear_range (t : Z) :
  0 <= JsDate.DayWithinYear t < 365 + JsDate.InLeapYear t.
Proof.
  unfold JsDate.DayWithinYear, JsDate.InLeapYear, JsDate.YearFromTime.
  pose proof (YearFromDay_spec (JsDate.Day t)) as H.
  rewrite DayFromYear_succ in H.
  destruct (DaysInYear_cases (JsDate.YearFromDay (JsDate.Day t))) as [E|E];
    rewrite E in *; simpl; lia.
Qed.

Lemma InLeapYear_cases (t : Z) : JsDate.InLeapYear t = 0 \/ JsDate.InLeapYear t = 1.
Proof. unfold JsDate.InLeapYear. destruct (_ =? _); auto. Qed.

Lemma MonthFromTime_range (t : Z) : 0 <= JsDate.MonthFromTime t <= 11.
Proof.
  unfold JsDate.MonthFromTime.
  repeat (match goal with |- context [if ?b then _ else _] => destruct b end);
    lia.
Qed.

Lemma DateFromTime_range (t : Z) : 1 <= JsDate.DateFromTime t <= 31.
Proof.
  pose proof (DayWithinYear_range t) as Hd.
  unfold JsDate.DateFromTime, JsDate.MonthFromTime.
  destruct (InLeapYear_cases t) as [E|E]; rewrite E in *;
    repeat (match goal with
            | |- context [if ?a <? ?b then _ else _] =>
                destruct (Z.ltb_spec a b)
            end; cbn [Z.eqb Pos.eqb]); lia.
Qed.

Lemma YearFromTime_four_digits (t : Z) :
  four_digit_year t -> 0 <= JsDate.YearFromTime t <= 9999.
Proof.
  unfold four_digit_year, JsDate.YearFromTime. intros Ht.
  assert (Hd : -719528 <= JsDate.Day t < 2932897).
  { unfold JsDate.Day, ms_per_day. Z.to_euclidean_division_equations; lia. }
  pose proof (YearFromDay_spec (JsDate.Day t)) as [Hlo Hhi].
  pose proof (YearFromDay_largest (JsDate.Day t) 0) as H0.
  assert (E0 : JsDate.DayFromYear 0 = -719528) by reflexivity.
  assert (E1 : JsDate.DayFromYear 10000 = 2932897) by reflexivity.
  split; [apply H0; lia|].
  destruct (Z.le_gt_cases (JsDate.YearFromDay (JsDate.Day t)) 9999) as [H|H];
    [exact H|].
  pose proof (DayFromYear_mono 10000 (JsDate.YearFromDay (JsDate.Day t))
                ltac:(lia)). lia.
Qed.

(** ** Dates: the strings *)

Lemma digit_char_cases (d : Z) :
  exists r, 0 <= r < 10 /\ JsNumber.digit_char d = ascii_of_nat (48 + Z.to_nat r).
Proof.
  exists (d mod 10). split; [apply Z.mod_pos_bound; lia | reflexivity].
Qed.

Lemma digit_char_is_digit (d : Z) : JsDate.is_digit (JsNumber.digit_char d) = true.
Proof.
  destruct (digit_char_cases d) as (r & Hr & ->).
  assert (H : r = 0 \/ r = 1 \/ r = 2 \/ r = 3 \/ r = 4 \/ r = 5 \/ r = 6
              \/ r = 7 \/ r = 8 \/ r = 9) by lia.
  repeat (destruct H as [->|H]; [reflexivity|]). subst r. reflexivity.
Qed.

Lemma digit_char_not_T (d : Z) : not_T (JsNumber.digit_char d) = true.
Proof.
  destruct (digit_char_cases d) as (r & Hr & ->).
  assert (H : r = 0 \/ r = 1 \/ r = 2 \/ r = 3 \/ r = 4 \/ r = 5 \/ r = 6
              \/ r = 7 \/ r = 8 \/ r = 9) by lia.
  repeat (destruct H as [->|H]; [reflexivity|]). subst r. reflexivity.
Qed.

Lemma string_forall_app (p : ascii -> bool) (a b : string) :
  string_forall p (a ++ b)%string = string_forall p a && string_forall p b.
Proof.
  induction a as [|c a IH]; simpl; [reflexivity|].
  rewrite IH. apply andb_assoc.
Qed.

Lemma string_forall_digits (p : ascii -> bool) (k : nat) (n : Z) (acc : string) :
  (forall d, p (JsNumber.digit_char d) = true) ->
  string_forall p (JsNumber.digits_fixed k n acc) = string_forall p acc.
Proof.
  intros Hp. revert n acc. induction k as [|k IH]; intros n acc; simpl;
    [reflexivity|].
  rewrite IH. simpl. rewrite Hp. reflexivity.
Qed.

Lemma pad_not_T (k : nat) (n : Z) : string_forall not_T (JsDate.pad k n) = true.
Proof.
  unfold JsDate.pad. rewrite string_forall_digits by apply digit_char_not_T.
  reflexivity.
Qed.

Lemma split_T_0_prefix (s rest : string) :
  string_forall not_T s = true ->
  JsDate.split_T_0 (s ++ String "T" rest)%string = s.
Proof.
  induction s as [|c s IH]; simpl; [reflexivity|].
  intros H. apply andb_prop in H. destruct H as [Hc Hs].
  unfold not_T in Hc. apply negb_true_iff in Hc. rewrite Hc, IH by assumption.
  reflexivity.
Qed.

Lemma date_string_not_T (t : Z) : string_forall not_T (JsDate.date_string t) = true.
Proof.
  unfold JsDate.date_string, JsDate.year_string.
  rewrite !string_forall_app, !pad_not_T.
  destruct ((0 <=? JsDate.YearFromTime t) && (JsDate.YearFromTime t <=? 9999));
    [rewrite pad_not_T; reflexivity|].
  rewrite string_forall_app, pad_not_T.
  destruct (_ <? _); reflexivity.
Qed.

(** The key of a user is the date part of the ISO string of [createdAt]. *)
Lemma day_key_date (u : User) : day_key u = JsDate.date_string (createdAt u).
Proof.
  unfold day_key, JsDate.toISOString.
  apply split_T_0_prefix, date_string_not_T.
Qed.

Lemma pad_2_digits (n : Z) :
  JsDate.pad 2 n
  = String (JsNumber.digit_char (n / 10))
      (String (JsNumber.digit_char n) EmptyString).
Proof. reflexivity. Qed.

Lemma pad_4_digits (n : Z) :
  JsDate.pad 4 n
  = String (JsNumber.digit_char (n / 10 / 10 / 10))
      (String (JsNumber.digit_char (n / 10 / 10))
         (String (JsNumber.digit_char (n / 10))
            (String (JsNumber.digit_char n) EmptyString))).
Proof. reflexivity. Qed.

Lemma date_string_calendar (t : Z) :
  four_digit_year t -> JsDate.is_calendar_date (JsDate.date_string t) = true.
Proof.
  intros Ht. apply YearFromTime_four_digits in Ht.
  unfold JsDate.date_string, JsDate.year_string.
  replace ((0 <=? JsDate.YearFromTime t) && (JsDate.YearFromTime t <=? 9999))
    with true by (symmetry; apply andb_true_iff; split; apply Z.leb_le; lia).
  rewrite pad_4_digits, !pad_2_digits.
  cbv [String.append JsDate.is_calendar_date].
  rewrite !digit_char_is_digit. reflexivity.
Qed.

(** ** Dates: one string for each day *)

Lemma digit_char_inj (a b : Z) :
  digit_char a = digit_char b -> a mod 10 = b mod 10.
Proof.
  unfold digit_char. intros H. apply (f_equal nat_of_ascii) in H.
  pose proof (Z.mod_pos_bound a 10 ltac:(lia)).
  pose proof (Z.mod_pos_bound b 10 ltac:(lia)).
  rewrite !nat_ascii_embedding in H by lia. lia.
Qed.

Lemma date_string_of_day (t t' : Z) :
  JsDate.Day t = JsDate.Day t' -> JsDate.date_string t = JsDate.date_string t'.
Proof.
  intros H.
  unfold JsDate.date_string, JsDate.DateFromTime, JsDate.MonthFromTime,
    JsDate.InLeapYear, JsDate.DayWithinYear, JsDate.YearFromTime.
  rewrite H. reflexivity.
Qed.

Lemma date_of_month (t t' : Z) :
  JsDate.InLeapYear t = JsDate.InLeapYear t' ->
  JsDate.MonthFromTime t = JsDate.MonthFromTime t' ->
  JsDate.DateFromTime t = JsDate.DateFromTime t' ->
  JsDate.DayWithinYear t = JsDate.DayWithinYear t'.
Proof.
  intros Hl Hm Hd. unfold JsDate.DateFromTime in Hd. cbv zeta in Hd.
  rewrite <- Hm, <- Hl in Hd. revert Hd.
  generalize (JsDate.MonthFromTime t). intros m.
  repeat match goal with
         | |- context [m =? ?k] => destruct (m =? k)
         end; lia.
Qed.

Lemma date_string_day (t t' : Z) :
  four_digit_year t -> four_digit_year t' ->
  JsDate.date_string t = JsDate.date_string t' -> JsDate.Day t = JsDate.Day t'.
Proof.
  intros Ht Ht' H.
  pose proof (YearFromTime_four_digits t Ht) as HY.
  pose proof (YearFromTime_four_digits t' Ht') as HY'.
  pose proof (MonthFromTime_range t) as HM.
  pose proof (MonthFromTime_range t') as HM'.
  pose proof (DateFromTime_range t) as HD.
  pose proof (DateFromTime_range t') as HD'.
  unfold JsDate.date_string, JsDate.year_string in H.
  replace ((0 <=? JsDate.YearFromTime t) && (JsDate.YearFromTime t <=? 9999))
    with true in H
    by (symmetry; apply andb_true_iff; split; apply Z.leb_le; lia).
  replace ((0 <=? JsDate.YearFromTime t') && (JsDate.YearFromTime t' <=? 9999))
    with true in H
    by (symmetry; apply andb_true_iff; split; apply Z.leb_le; lia).
  rewrite !pad_4_digits, !pad_2_digits in H. cbv [String.append] in H.
  injection H as Y3 Y2 Y1 Y0 M1 M0 D1 D0.
  apply digit_char_inj in Y3, Y2, Y1, Y0, M1, M0, D1, D0.
  assert (EY : JsDate.YearFromTime t = JsDate.YearFromTime t').
  { revert Y3 Y2 Y1 Y0 HY HY'.
    generalize (JsDate.YearFromTime t), (JsDate.YearFromTime t').
    intros y y' Y3 Y2 Y1 Y0 HY HY'. Z.to_euclidean_division_equations. lia. }
  assert (EM : JsDate.MonthFromTime t = JsDate.MonthFromTime t').
  { revert M1 M0 HM HM'.
    generalize (JsDate.MonthFromTime t), (JsDate.MonthFromTime t').
    intros m m' M1 M0 HM HM'. Z.to_euclidean_division_equations. lia. }
  assert (ED : JsDate.DateFromTime t = JsDate.DateFromTime t').
  { revert D1 D0 HD HD'.
    generalize (JsDate.DateFromTime t), (JsDate.DateFromTime t').
    intros d d' D1 D0 HD HD'. Z.to_euclidean_division_equations. lia. }
  assert (EL : JsDate.InLeapYear t = JsDate.InLeapYear t')
    by (unfold JsDate.InLeapYear; rewrite EY; reflexivity).
  pose proof (date_of_month t t' EL EM ED) as EW.
  unfold JsDate.DayWithinYear in EW. rewrite EY in EW. lia.
Qed.

Lemma filter_filter_and {A} (p q : A -> bool) (l : list A) :
  List.filter q (List.filter p l) = List.filter (fun x => p x && q x) l.
Proof.
  induction l as [|x l IH]; simpl; [reflexivity|].
  destruct (p x); simpl; [destruct (q x)|]; rewrite IH; reflexivity.
Qed.

(** ** Traffic: the daily breakdown *)

Lemma or_0_id (n : Z) : or_0 n = n.
Proof. unfold or_0. destruct (Z.eqb_spec n 0); congruence. Qed.

Lemma usersPerDay_snoc (users : list User) (u : User) :
  usersPerDay (users ++ [u]) = count_day (usersPerDay users) u.
Proof. unfold usersPerDay. rewrite fold_left_app. reflexivity. Qed.

Lemma day_count_snoc (k : string) (users : list User) (u : User) :
  day_count k (users ++ [u])
  = day_count k users + (if decide (day_key u = k) then 1 else 0).
Proof.
  unfold day_count. rewrite filter_length_app. simpl. unfold on_day at 2.
  destruct (decide (day_key u = k)) as [->|Hne].
  - rewrite String.eqb_refl. simpl. lia.
  - destruct (String.eqb_spec (day_key u) k); [contradiction|]. simpl. lia.
Qed.

Lemma day_count_nonneg (k : string) (users : list User) : 0 <= day_count k users.
Proof. unfold day_count. lia. Qed.

Lemma usersPerDay_lookup (users : list User) (k : string) :
  usersPerDay users !! k
  = if day_count k users =? 0 then None else Some (day_count k users).
Proof.
  induction users as [|u users IH] using rev_ind; [apply lookup_empty|].
  rewrite usersPerDay_snoc, day_count_snoc. unfold count_day.
  pose proof (day_count_nonneg k users) as Hn.
  destruct (decide (day_key u = k)) as [<-|Hne].
  - rewrite lookup_insert_eq, or_0_id, IH.
    destruct (Z.eqb_spec (day_count (day_key u) users) 0) as [E|E].
    + rewrite E. reflexivity.
    + destruct (Z.eqb_spec (day_count (day_key u) users + 1) 0); [lia|].
      reflexivity.
  - rewrite lookup_insert_ne by assumption. rewrite IH, Z.add_0_r. reflexivity.
Qed.

Lemma usersPerDay_sum (users : list User) :
  sum_entries (fun n => n) (usersPerDay users) = Z.of_nat (length users).
Proof.
  induction users as [|u users IH] using rev_ind; [reflexivity|].
  rewrite usersPerDay_snoc. unfold count_day.
  rewrite sum_entries_insert, or_0_id, IH, length_app. simpl.
  destruct (usersPerDay users !! day_key u); simpl; lia.
Qed.

Lemma day_count_pos_user (k : string) (users : list User) :
  day_count k users <> 0 -> exists u, In u users /\ day_key u = k.
Proof.
  unfold day_count. intros Hn.
  destruct (List.filter (on_day k) users) as [|u l] eqn:E; [contradiction|].
  assert (Hin : In u (List.filter (on_day k) users)) by (rewrite E; left; reflexivity).
  apply filter_In in Hin. destruct Hin as [Hin Hk].
  exists u. split; [exact Hin|]. apply String.eqb_eq, Hk.
Qed.

(** C8. [dailyBreakdown] is built from the users created in the last 30
    days. A key is present exactly when some of these users has it as the
    date part of the ISO string of [createdAt] (what precedes the [T]: no
    time component), and its value is the number of these users with that
    date, at least 1: a day without a user is no key. The values add up to
    the number of users of the 30-day set, which is [last30Days]. For a
    date in the years 0000 to 9999 the key has the form [YYYY-MM-DD], with
    the month and the day of the month of the UTC day; two such dates
    have the same key exactly when they fall on the same UTC day, so that
    the value under a user's key is the number of users of the 30-day set
    created on that user's day. *)
Theorem dailyBreakdown_counts_per_day (now today : Z) (all_users : list User) :
  let users := List.filter (created_gte (now - 30 * ms_per_day)) all_users in
  let daily := dailyBreakdown (traffic now today all_users) in
  (forall k, daily !! k
             = if day_count k users =? 0 then None
               else Some (day_count k users))
  /\ (forall k n, daily !! k = Some n ->
        1 <= n
        /\ exists u, In u users
             /\ now - 30 * ms_per_day <= createdAt u
             /\ k = JsDate.date_string (createdAt u)
             /\ JsDate.toISOString (createdAt u)
                = (k ++ "T" ++ JsDate.time_string (createdAt u))%string
             /\ string_forall not_T k = true
             /\ 1 <= JsDate.MonthFromTime (createdAt u) + 1 <= 12
             /\ 1 <= JsDate.DateFromTime (createdAt u) <= 31
             /\ (four_digit_year (createdAt u) ->
                 JsDate.is_calendar_date k = true))
  /\ (forall u, In u users -> exists n, daily !! day_key u = Some n /\ 1 <= n)
  /\ sum_entries (fun n => n) daily = Z.of_nat (length users)
  /\ sum_entries (fun n => n) daily = last30Days (traffic now today all_users)
  /\ (forall u w,
        four_digit_year (createdAt u) -> four_digit_year (createdAt w) ->
        (day_key u = day_key w
         <-> JsDate.Day (createdAt u) = JsDate.Day (createdAt w)))
  /\ (Forall (fun w => four_digit_year (createdAt w)) users ->
      forall u, In u users ->
        daily !! day_key u
        = Some (countDocuments
                  (fun w => JsDate.Day (createdAt w) =? JsDate.Day (createdAt u))
                  users)).
Proof.
  intros users daily.
  assert (Hlook : forall k, daily !! k
                            = if day_count k users =? 0 then None
                              else Some (day_count k users)).
  { intros k. apply usersPerDay_lookup. }
  assert (Hkey : forall u w,
             four_digit_year (createdAt u) -> four_digit_year (createdAt w) ->
             (day_key u = day_key w
              <-> JsDate.Day (createdAt u) = JsDate.Day (createdAt w))).
  { intros u w Hu Hw. rewrite !day_key_date. split.
    - apply date_string_day; assumption.
    - apply date_string_of_day. }
  split; [exact Hlook|]. split; [|split; [|split; [|split; [|split]]]].
  - intros k n Hk. rewrite Hlook in Hk.
    pose proof (day_count_nonneg k users) as Hn.
    destruct (Z.eqb_spec (day_count k users) 0) as [E|E]; [discriminate|].
    injection Hk as <-. split; [lia|].
    destruct (day_count_pos_user k users E) as (u & Hin & Hu).
    exists u. split; [exact Hin|].
    apply filter_In in Hin. destruct Hin as [_ Hc].
    unfold created_gte in Hc. apply Z.leb_le in Hc.
    rewrite day_key_date in Hu. subst k.
    pose proof (MonthFromTime_range (createdAt u)).
    pose proof (DateFromTime_range (createdAt u)).
    repeat split; try lia; try reflexivity.
    + apply date_string_not_T.
    + apply date_string_calendar.
  - intros u Hin. rewrite Hlook.
    assert (Hu : In u (List.filter (on_day (day_key u)) users)).
    { apply filter_In. split; [exact Hin|]. apply String.eqb_refl. }
    unfold day_count.
    destruct (List.filter (on_day (day_key u)) users) as [|x l]; [destruct Hu|].
    simpl length. destruct (Z.eqb_spec (Z.of_nat (S (length l))) 0); [lia|].
    eexists. split; [reflexivity|lia].
  - apply usersPerDay_sum.
  - subst daily. simpl. rewrite usersPerDay_sum. reflexivity.
  - exact Hkey.
  - intros Hall u Hin. rewrite Hlook.
    pose proof (proj1 (List.Forall_forall _ _) Hall) as H4.
    assert (E : day_count (day_key u) users
                = countDocuments
                    (fun w => JsDate.Day (createdAt w) =? JsDate.Day (createdAt u))
                    users).
    { unfold day_count, countDocuments. do 2 f_equal.
      apply List.filter_ext_in. intros w Hw. unfold on_day.
      destruct (String.eqb_spec (day_key w) (day_key u)) as [Hk|Hk].
      - symmetry. apply Z.eqb_eq. apply Hkey; auto.
      - symmetry. apply Z.eqb_neq. intros Hd. apply Hk. apply Hkey; auto. }
    rewrite E.
    assert (Hu : In u (List.filter
                         (fun w => JsDate.Day (createdAt w)
                                   =? JsDate.Day (createdAt u)) users)).
    { apply filter_In. split; [exact Hin|]. apply Z.eqb_refl. }
    unfold countDocuments.
    destruct (List.filter _ users) as [|x l]; [destruct Hu|].
    simpl length. destruct (Z.eqb_spec (Z.of_nat (S (length l))) 0); [lia|].
    reflexivity.
Qed.

(** * Binary64 arithmetic *)

(** ** Powers of two among the rationals *)

Lemma Q2pow_pos (e : Z) : (0 < Q2pow e)%Q.
Proof. unfold Q2pow. apply Qpower_0_lt. reflexivity. Qed.

Lemma Q2pow_add (a b : Z) : (Q2pow (a + b) == Q2pow a * Q2pow b)%Q.
Proof. unfold Q2pow. apply Qpower_plus. discriminate. Qed.

Lemma Q2pow_Z (e : Z) : 0 <= e -> (Q2pow e == inject_Z (2 ^ e))%Q.
Proof. intros He. unfold Q2pow. rewrite Zpower_Qpower by assumption. reflexivity. Qed.

Lemma Q2pow_succ (e : Z) : (Q2pow (e + 1) == 2 * Q2pow e)%Q.
Proof. rewrite Q2pow_add. change (Q2pow 1) with 2%Q. ring. Qed.

Lemma Q2pow_opp (e : Z) : (Q2pow (- e) * Q2pow e == 1)%Q.
Proof. rewrite <- Q2pow_add. replace (- e + e) with 0 by lia. reflexivity. Qed.

Lemma Q2pow_le (a b : Z) : a <= b -> (Q2pow a <= Q2pow b)%Q.
Proof.
  intros Hab. replace b with (a + (b - a)) by lia. rewrite Q2pow_add.
  assert (H1 : (1 <= Q2pow (b - a))%Q).
  { rewrite Q2pow_Z by lia. change 1%Q with (inject_Z 1).
    rewrite <- Zle_Qle. pose proof (Z.pow_pos_nonneg 2 (b - a)). lia. }
  pose proof (Q2pow_pos a). nra.
Qed.

Lemma Q2pow_lt_inv (a b : Z) : (Q2pow a < Q2pow b)%Q -> a < b.
Proof.
  intros H. destruct (Z.lt_ge_cases a b) as [Hlt|Hge]; [exact Hlt|].
  apply Q2pow_le in Hge. lra.
Qed.

(** ** The number of binary digits *)

Lemma digits2_pos_bounds (p : positive) :
  2 ^ (Zpos (digits2_pos p) - 1) <= Zpos p < 2 ^ Zpos (digits2_pos p).
Proof.
  induction p as [p IH|p IH|]; simpl digits2_pos.
  - rewrite Pos2Z.inj_succ. replace (Z.succ (Zpos (digits2_pos p)) - 1)
      with (Z.succ (Zpos (digits2_pos p) - 1)) by lia.
    rewrite !Z.pow_succ_r by lia. lia.
  - rewrite Pos2Z.inj_succ. replace (Z.succ (Zpos (digits2_pos p)) - 1)
      with (Z.succ (Zpos (digits2_pos p) - 1)) by lia.
    rewrite !Z.pow_succ_r by lia. lia.
  - simpl. lia.
Qed.

Lemma digits2_pos_unique (p : positive) (d : Z) :
  2 ^ (d - 1) <= Zpos p < 2 ^ d -> Zpos (digits2_pos p) = d.
Proof.
  intros [Hlo Hhi]. pose proof (digits2_pos_bounds p) as [Blo Bhi].
  set (d' := Zpos (digits2_pos p)) in *.
  assert (Hd : 0 < d).
  { destruct (Z.lt_ge_cases 0 d) as [H|H]; [exact H|].
    destruct (Z.eq_dec d 0) as [->|Hne]; [simpl in Hhi; lia|].
    rewrite Z.pow_neg_r in Hhi by lia. lia. }
  destruct (Z.lt_trichotomy d' d) as [H|[H|H]]; [|exact H|].
  - assert (2 ^ d' <= 2 ^ (d - 1)) by (apply Z.pow_le_mono_r; lia). lia.
  - assert (2 ^ d <= 2 ^ (d' - 1)) by (apply Z.pow_le_mono_r; lia). lia.
Qed.

(** ** Shifting a mantissa to the right *)

Lemma inject_Z_xO (p : positive) : (inject_Z (Zpos p~0) == 2 * inject_Z (Zpos p))%Q.
Proof. rewrite Pos2Z.inj_xO, inject_Z_mult. reflexivity. Qed.

Lemma inject_Z_xI (p : positive) : (inject_Z (Zpos p~1) == 2 * inject_Z (Zpos p) + 1)%Q.
Proof. rewrite Pos2Z.inj_xI, inject_Z_plus, inject_Z_mult. reflexivity. Qed.

Ltac bool_facts :=
  repeat match goal with
         | H : true = true <-> ?A |- _ =>
             assert A by (apply H; reflexivity); clear H
         | H : false = true <-> ?A |- _ =>
             assert (~ A) by (let HA := fresh in
                              intros HA; apply H in HA; discriminate); clear H
         end.

Ltac bool_goal :=
  repeat match goal with
         | |- _ /\ _ => split
         | |- true = true <-> _ => split; [intros _ | reflexivity]
         | |- false = true <-> _ => split; [discriminate | intro; exfalso]
         end.

Lemma locates_shr_1 (X : Q) (rec : shr_record) :
  0 <= shr_m rec -> locates X rec -> locates (X / 2) (shr_1 rec).
Proof.
  destruct rec as [m r s]. unfold locates, shr_Q.
  cbn [shr_m shr_r shr_s].
  intros Hm (H1 & H2 & Hr & Hs).
  assert (HX : (X / 2 == X * (1 # 2))%Q) by (unfold Qdiv; reflexivity).
  rewrite HX. clear HX.
  destruct m as [|[p|p|]|p]; try lia; cbn [shr_1 shr_m shr_r shr_s].
  - change (inject_Z 0) with 0%Q in *.
    destruct r, s; cbn [orb]; bool_facts; bool_goal; lra.
  - rewrite inject_Z_xI in *.
    destruct r, s; cbn [orb]; bool_facts; bool_goal; lra.
  - rewrite inject_Z_xO in *.
    destruct r, s; cbn [orb]; bool_facts; bool_goal; lra.
  - change (inject_Z 1) with 1%Q in *. change (inject_Z 0) with 0%Q.
    destruct r, s; cbn [orb]; bool_facts; bool_goal; lra.
Qed.

Lemma shr_1_nonneg (rec : shr_record) : 0 <= shr_m rec -> 0 <= shr_m (shr_1 rec).
Proof.
  destruct rec as [m r s]. cbn [shr_m].
  destruct m as [|[p|p|]|p]; cbn [shr_1 shr_m]; lia.
Qed.

Lemma locates_iter_pos (p : positive) (X : Q) (rec : shr_record) :
  0 <= shr_m rec -> locates X rec ->
  0 <= shr_m (SpecFloat.iter_pos shr_1 p rec)
  /\ locates (X * Q2pow (- Zpos p)) (SpecFloat.iter_pos shr_1 p rec).
Proof.
  revert X rec. induction p as [p IH|p IH|]; intros X rec Hm HX; cbn [SpecFloat.iter_pos].
  - pose proof (shr_1_nonneg rec Hm) as H0.
    pose proof (locates_shr_1 X rec Hm HX) as H1.
    destruct (IH _ _ H0 H1) as [H2 H3].
    destruct (IH _ _ H2 H3) as [H4 H5].
    split; [exact H4|].
    assert (E : (X * Q2pow (- Zpos p~1)
                 == X / 2 * Q2pow (- Zpos p) * Q2pow (- Zpos p))%Q).
    { replace (- Zpos p~1) with (-1 + (- Zpos p + - Zpos p)) by lia.
      rewrite !Q2pow_add. change (Q2pow (-1)) with (1 # 2)%Q.
      unfold Qdiv. change (/ 2)%Q with (1 # 2)%Q. ring. }
    unfold locates. rewrite E. exact H5.
  - destruct (IH _ _ Hm HX) as [H2 H3].
    destruct (IH _ _ H2 H3) as [H4 H5].
    split; [exact H4|].
    assert (E : (X * Q2pow (- Zpos p~0)
                 == X * Q2pow (- Zpos p) * Q2pow (- Zpos p))%Q).
    { replace (- Zpos p~0) with (- Zpos p + - Zpos p) by lia.
      rewrite !Q2pow_add. ring. }
    unfold locates. rewrite E. exact H5.
  - split; [apply shr_1_nonneg, Hm|].
    pose proof (locates_shr_1 X rec Hm HX) as H1.
    unfold locates in *. change (Q2pow (- 1)) with (1 # 2)%Q.
    assert (E : (X * (1 # 2) == X / 2)%Q) by (unfold Qdiv; reflexivity).
    rewrite E. exact H1.
Qed.

(** ** Rounding to nearest, ties to even *)

Lemma round_nearest_even_close (X : Q) (rec : shr_record) :
  locates X rec ->
  let m1 := round_nearest_even (shr_m rec) (loc_of_shr_record rec) in
  (shr_m rec <= m1 <= shr_m rec + 1)
  /\ (Qabs (inject_Z m1 - X) <= 1 # 2)%Q.
Proof.
  destruct rec as [m r s]. unfold locates, shr_Q. cbn [shr_m shr_r shr_s].
  intros (H1 & H2 & Hr & Hs).
  destruct r, s; cbn [loc_of_shr_record round_nearest_even]; bool_facts.
  - split; [lia|]. rewrite inject_Z_plus. change (inject_Z 1) with 1%Q.
    apply Qabs_Qle_condition. lra.
  - destruct (Z.even m); (split; [lia|]).
    + apply Qabs_Qle_condition. lra.
    + rewrite inject_Z_plus. change (inject_Z 1) with 1%Q.
      apply Qabs_Qle_condition. lra.
  - split; [lia|]. apply Qabs_Qle_condition. lra.
  - split; [lia|]. apply Qabs_Qle_condition. lra.
Qed.

(** ** Rounding a located mantissa to binary64 *)

Lemma fexp_normal (e : Z) : -1074 <= e - 53 -> fexp prec emax e = e - 53.
Proof. unfold fexp, emin, prec, emax. lia. Qed.

Lemma shr_m_of_loc (m : Z) (l : location) : shr_m (shr_record_of_loc m l) = m.
Proof. destruct l as [|[| |]]; reflexivity. Qed.

Lemma shr_fexp_normal (m : positive) (e : Z) (l : location) :
  -1074 <= e + (Zpos (digits2_pos m) - 53) ->
  shr_fexp prec emax (Zpos m) e l
  = shr (shr_record_of_loc (Zpos m) l) e (Zpos (digits2_pos m) - 53).
Proof.
  intros H. unfold shr_fexp. cbn [Zdigits2].
  rewrite fexp_normal by lia. f_equal. lia.
Qed.

Lemma shr_locates (rec : shr_record) (e n : Z) (X : Q) :
  0 <= n -> 0 <= shr_m rec -> locates X rec ->
  snd (shr rec e n) = e + n
  /\ 0 <= shr_m (fst (shr rec e n))
  /\ locates (X * Q2pow (- n)) (fst (shr rec e n)).
Proof.
  intros Hn Hm HX. destruct n as [|p|p]; [| |lia]; cbn [shr fst snd].
  - split; [lia|]. split; [exact Hm|].
    unfold locates in *. change (Q2pow (- 0)) with 1%Q. rewrite Qmult_1_r. exact HX.
  - split; [reflexivity|]. apply locates_iter_pos; assumption.
Qed.

Lemma binary_round_aux_correct
  (sx : bool) (mx : positive) (ex : Z) (lx : location) (X : Q) :
  locates X (shr_record_of_loc (Zpos mx) lx) ->
  let n := Zpos (digits2_pos mx) - 53 in
  0 <= n -> -1074 <= ex + n -> ex + n + 1 <= 971 ->
  exists (m : positive) (e M : Z),
    binary_round_aux prec emax sx (Zpos mx) ex lx = S754_finite sx m e
    /\ Zpos (digits2_pos m) = 53
    /\ (e = ex + n \/ e = ex + n + 1)
    /\ (inject_Z (Zpos m) * Q2pow e == inject_Z M * Q2pow (ex + n))%Q
    /\ (Qabs (inject_Z M - X * Q2pow (- n)) <= 1 # 2)%Q
    /\ 2 ^ 52 <= M <= 2 ^ 53
    /\ (inject_Z (2 ^ 52) <= X * Q2pow (- n) < inject_Z (2 ^ 53))%Q.
Proof.
  intros HX n Hn Hlo Hhi.
  assert (Hm0 : 0 <= shr_m (shr_record_of_loc (Zpos mx) lx))
    by (rewrite shr_m_of_loc; lia).
  (* the first shift *)
  destruct (shr_locates _ ex n X Hn Hm0 HX) as (He1 & Hm1 & HX1).
  (* the scaled value lies in the binade of 53-digit mantissas *)
  assert (HB : (inject_Z (2 ^ 52) <= X * Q2pow (- n) < inject_Z (2 ^ 53))%Q).
  { destruct HX as (H1 & H2 & _). unfold shr_Q in H1, H2.
    rewrite shr_m_of_loc in H1, H2.
    pose proof (digits2_pos_bounds mx) as [Blo Bhi].
    assert (Blo' : (inject_Z (2 ^ (Zpos (digits2_pos mx) - 1)) <= X)%Q)
      by (rewrite Zle_Qle in Blo; lra).
    assert (Bhi' : (X < inject_Z (2 ^ Zpos (digits2_pos mx)))%Q).
    { assert (Zpos mx + 1 <= 2 ^ Zpos (digits2_pos mx)) as B by lia.
      rewrite Zle_Qle, inject_Z_plus in B.
      change (inject_Z 1) with 1%Q in B. lra. }
    rewrite <- Q2pow_Z in Blo', Bhi' by lia.
    replace (Zpos (digits2_pos mx) - 1) with (52 + n) in Blo' by (unfold n; lia).
    replace (Zpos (digits2_pos mx)) with (53 + n) in Bhi' by (unfold n; lia).
    rewrite Q2pow_add in Blo', Bhi'.
    pose proof (Q2pow_pos n) as Pn. pose proof (Q2pow_pos (- n)) as Pn'.
    pose proof (Q2pow_opp n) as On.
    rewrite <- !Q2pow_Z by lia.
    set (u := Q2pow n) in *. set (u' := Q2pow (- n)) in *.
    set (a := Q2pow 52) in *. set (b := Q2pow 53) in *.
    split.
    - assert ((a * u) * u' <= X * u')%Q by (apply Qmult_le_compat_r; lra).
      assert ((a * u) * u' == a)%Q by (rewrite <- Qmult_assoc, (Qmult_comm u u'), On; ring).
      lra.
    - assert (X * u' < (b * u) * u')%Q by (apply Qmult_lt_compat_r; lra).
      assert ((b * u) * u' == b)%Q by (rewrite <- Qmult_assoc, (Qmult_comm u u'), On; ring).
      lra. }
  set (rec1 := fst (shr (shr_record_of_loc (Zpos mx) lx) ex n)) in *.
  set (X1 := (X * Q2pow (- n))%Q) in *.
  destruct (round_nearest_even_close X1 rec1 HX1) as [Hm1' Hclose].
  set (m1 := round_nearest_even (shr_m rec1) (loc_of_shr_record rec1)) in *.
  assert (Hrange : 2 ^ 52 <= m1 <= 2 ^ 53).
  { destruct HX1 as (H1 & H2 & _). unfold shr_Q in H1, H2.
    destruct HB as [HB1 HB2].
    assert (2 ^ 52 < shr_m rec1 + 1).
    { rewrite Zlt_Qlt, inject_Z_plus. change (inject_Z 1) with 1%Q. lra. }
    assert (shr_m rec1 < 2 ^ 53) by (rewrite Zlt_Qlt; lra).
    lia. }
  (* the statement of the function *)
  unfold binary_round_aux.
  rewrite shr_fexp_normal by (fold n; lia). fold n.
  rewrite (surjective_pairing (shr (shr_record_of_loc (Zpos mx) lx) ex n)).
  fold rec1. rewrite He1. fold m1.
  destruct (Z.eq_dec m1 (2 ^ 53)) as [E|NE].
  - (* the mantissa overflows: one more shift *)
    rewrite E.
    assert (S2 : shr_fexp prec emax (2 ^ 53) (ex + n) loc_Exact
                 = ({| shr_m := 2 ^ 52; shr_r := false; shr_s := false |},
                    ex + n + 1)).
    { unfold shr_fexp. change (Zdigits2 (2 ^ 53)) with 54.
      rewrite fexp_normal by lia.
      replace (54 + (ex + n) - 53 - (ex + n)) with 1 by lia. reflexivity. }
    rewrite S2. cbn [shr_m].
    change (2 ^ 52) with (Zpos (Z.to_pos (2 ^ 52))).
    replace (ex + n + 1 <=? emax - prec) with true
      by (symmetry; apply Z.leb_le; unfold emax, prec; lia).
    exists (Z.to_pos (2 ^ 52)), (ex + n + 1), m1.
    split; [reflexivity|]. split; [reflexivity|]. split; [right; reflexivity|].
    split; [|split; [exact Hclose|split; [exact Hrange|exact HB]]].
    rewrite E, Q2pow_succ.
    change (inject_Z (Zpos (Z.to_pos (2 ^ 52)))) with (inject_Z (2 ^ 52)).
    change (inject_Z (2 ^ 53)) with (2 * inject_Z (2 ^ 52))%Q. ring.
  - assert (Hpos : 0 < m1) by lia.
    destruct m1 as [|q|q] eqn:Em1; try lia.
    assert (Hd : Zpos (digits2_pos q) = 53)
      by (apply digits2_pos_unique; lia).
    rewrite shr_fexp_normal by (rewrite Hd; lia). rewrite Hd.
    replace (53 - 53) with 0 by lia. cbn [shr shr_m shr_record_of_loc].
    replace (ex + n <=? emax - prec) with true
      by (symmetry; apply Z.leb_le; unfold emax, prec; lia).
    exists q, (ex + n), (Zpos q).
    split; [reflexivity|]. split; [exact Hd|]. split; [left; reflexivity|].
    split; [reflexivity|]. split; [exact Hclose|]. split; [exact Hrange|exact HB].
Qed.

Lemma locates_exact (m : Z) : locates (inject_Z m) (shr_record_of_loc m loc_Exact).
Proof.
  unfold locates, shr_Q. cbn [shr_record_of_loc shr_m shr_r shr_s].
  bool_goal; lra.
Qed.

Lemma Pos_iter_xO (k p : positive) : Zpos (Pos.iter xO p k) = Zpos p * 2 ^ Zpos k.
Proof.
  induction k as [|k IH] using Pos.peano_ind.
  - simpl. lia.
  - rewrite Pos.iter_succ, Pos2Z.inj_xO, IH, Pos2Z.inj_succ, Z.pow_succ_r by lia.
    lia.
Qed.

Lemma shl_align_53 (mx : positive) (ex : Z) :
  let d := Zpos (digits2_pos mx) in
  -1074 <= ex + d - 53 ->
  exists mz ez,
    shl_align mx ex (fexp prec emax (d + ex)) = (mz, ez)
    /\ (inject_Z (Zpos mz) * Q2pow ez == inject_Z (Zpos mx) * Q2pow ex)%Q
    /\ ez + Zpos (digits2_pos mz) = ex + d
    /\ 53 <= Zpos (digits2_pos mz)
    /\ ez = Z.min ex (ex + d - 53).
Proof.
  intros d Hlo. rewrite fexp_normal by lia. unfold shl_align.
  destruct (d + ex - 53 - ex) as [|k|k] eqn:Ek.
  - exists mx, ex. unfold d in *.
    split; [reflexivity|]. split; [reflexivity|]. lia.
  - exists mx, ex. unfold d in *.
    split; [reflexivity|]. split; [reflexivity|]. lia.
  - exists (Pos.iter xO mx k), (d + ex - 53).
    assert (Hk : Zpos k = 53 - d) by lia.
    assert (Hd : Zpos (digits2_pos (Pos.iter xO mx k)) = 53).
    { apply digits2_pos_unique. rewrite Pos_iter_xO, Hk.
      pose proof (digits2_pos_bounds mx) as [Blo Bhi]. fold d in Blo, Bhi.
      assert (P1 : 2 ^ (53 - 1) = 2 ^ (d - 1) * 2 ^ (53 - d))
        by (rewrite <- Z.pow_add_r by lia; f_equal; lia).
      assert (P2 : 2 ^ 53 = 2 ^ d * 2 ^ (53 - d))
        by (rewrite <- Z.pow_add_r by lia; f_equal; lia).
      rewrite P1, P2.
      assert (0 < 2 ^ (53 - d)) by (apply Z.pow_pos_nonneg; lia). nia. }
    split; [reflexivity|]. split; [|rewrite Hd; lia].
    rewrite Pos_iter_xO, inject_Z_mult, <- (Q2pow_Z (Zpos k)) by lia.
    rewrite <- Qmult_assoc, <- Q2pow_add.
    replace (Zpos k + (d + ex - 53)) with ex by lia. reflexivity.
Qed.

Lemma binary_round_correct (sx : bool) (mx : positive) (ex : Z) :
  let E := ex + Zpos (digits2_pos mx) - 53 in
  -1074 <= Z.min ex E -> Z.max ex E + 1 <= 971 ->
  exists v e,
    is_float (binary_round prec emax sx mx ex) sx v e
    /\ rounded (inject_Z (Zpos mx) * Q2pow ex) v E e.
Proof.
  intros E Hlo Hhi. unfold binary_round.
  pose proof (shl_align_53 mx ex) as Hs. cbv zeta in Hs.
  destruct Hs as (mz & ez & -> & Hv & Hd & H53 & Hez);
    [unfold E in *; lia|].
  assert (HX := locates_exact (Zpos mz)).
  pose proof (binary_round_aux_correct sx mz ez loc_Exact _ HX) as H.
  cbv zeta in H.
  destruct H as (m & e & M & -> & Hm & He & Hval & Hclose & HM & HB);
    [unfold E in *; lia ..|].
  exists (inject_Z (Zpos m) * Q2pow e)%Q, e. split.
  - exists m. split; [reflexivity|]. split; [exact Hm|reflexivity].
  - replace E with (ez + (Zpos (digits2_pos mz) - 53)) by (unfold E; lia).
    exists M, (inject_Z (Zpos mz) * Q2pow (- (Zpos (digits2_pos mz) - 53)))%Q.
    split; [exact Hval|]. split.
    + rewrite <- Hv, <- Qmult_assoc, <- Q2pow_add.
      replace (- (Zpos (digits2_pos mz) - 53) + (ez + (Zpos (digits2_pos mz) - 53)))
        with ez by lia. reflexivity.
    + split; [exact Hclose|]. split; [exact HB|]. split; [exact HM|exact He].
Qed.

(** ** What a rounded value satisfies *)

Lemma Qscale_between (a lo hi u : Q) :
  (lo <= a <= hi -> 0 < u -> lo * u <= a * u <= hi * u)%Q.
Proof. intros [H1 H2] Hu. split; apply Qmult_le_compat_r; lra. Qed.

Lemma Qscale_le_inv (a b u : Q) : (a * u <= b * u -> 0 < u -> a <= b)%Q.
Proof. intros H Hu. apply Qmult_le_r in H; assumption. Qed.

Lemma Qscale_lt_inv (a b u : Q) : (a * u < b * u -> 0 < u -> a < b)%Q.
Proof. intros H Hu. apply Qmult_lt_r in H; assumption. Qed.

Lemma Qscale_eq_inv (a b u : Q) : (a * u == b * u -> 0 < u -> a == b)%Q.
Proof.
  intros H Hu. apply Qmult_inj_r in H; [exact H|]. lra.
Qed.

Lemma Q2pow_52 (E : Z) : (Q2pow (E + 52) == inject_Z (2 ^ 52) * Q2pow E)%Q.
Proof. rewrite Z.add_comm, Q2pow_add, Q2pow_Z by lia. reflexivity. Qed.

Lemma Q2pow_53 (E : Z) : (Q2pow (E + 53) == inject_Z (2 ^ 53) * Q2pow E)%Q.
Proof. rewrite Z.add_comm, Q2pow_add, Q2pow_Z by lia. reflexivity. Qed.

Lemma rounded_binade (x v : Q) (E e : Z) :
  rounded x v E e -> (Q2pow (E + 52) <= x < Q2pow (E + 53))%Q.
Proof.
  intros (M & Y & Hv & Hx & Hc & [HB1 HB2] & HM & He).
  rewrite Q2pow_52, Q2pow_53, Hx. pose proof (Q2pow_pos E) as Hu.
  split; [apply Qmult_le_compat_r; lra | apply Qmult_lt_compat_r; lra].
Qed.

Lemma rounded_close (x v : Q) (E e : Z) :
  rounded x v E e -> (Qabs (v - x) <= (1 # 2) * Q2pow E)%Q.
Proof.
  intros (M & Y & Hv & Hx & Hc & HB & HM & He).
  rewrite Hv, Hx. pose proof (Q2pow_pos E) as Hu.
  apply Qabs_Qle_condition in Hc. apply Qabs_Qle_condition.
  destruct (Qscale_between (inject_Z M - Y) (- (1 # 2)) (1 # 2) (Q2pow E) Hc Hu).
  lra.
Qed.

(** The relative error is at most [2^-53]. *)
Lemma rounded_rel (x v : Q) (E e : Z) :
  rounded x v E e -> (Qabs (v - x) <= x * (1 # 2 ^ 53))%Q.
Proof.
  intros H. pose proof (rounded_close _ _ _ _ H) as Hc.
  pose proof (rounded_binade _ _ _ _ H) as [Hb _].
  rewrite Q2pow_52 in Hb. pose proof (Q2pow_pos E) as Hu.
  change (inject_Z (2 ^ 52)) with (4503599627370496 # 1)%Q in Hb.
  change (2 ^ 53)%positive with 9007199254740992%positive.
  apply Qabs_Qle_condition in Hc. apply Qabs_Qle_condition. lra.
Qed.

Lemma inject_Z_half (a b : Z) :
  (Qabs (inject_Z a - inject_Z b) <= 1 # 2)%Q -> a = b.
Proof.
  intros H. apply Qabs_Qle_condition in H. destruct H as [H1 H2].
  assert (A : (inject_Z (a - b) < inject_Z 1)%Q).
  { unfold Z.sub. rewrite inject_Z_plus, inject_Z_opp.
    change (inject_Z 1) with 1%Q. lra. }
  assert (B : (inject_Z (-1) < inject_Z (a - b))%Q).
  { unfold Z.sub. rewrite inject_Z_plus, inject_Z_opp.
    change (inject_Z (-1)) with (-1)%Q. lra. }
  rewrite <- Zlt_Qlt in A, B. lia.
Qed.

(** A value that is a multiple of the unit of its binade is not changed. *)
Lemma rounded_exact (x v : Q) (E e K j : Z) :
  rounded x v E e -> (x == inject_Z K * Q2pow j)%Q -> E <= j -> (v == x)%Q.
Proof.
  intros (M & Y & Hv & Hx & Hc & HB & HM & He) HK Hj.
  pose proof (Q2pow_pos E) as Hu.
  assert (HY : (Y == inject_Z (K * 2 ^ (j - E)))%Q).
  { apply (Qscale_eq_inv _ _ (Q2pow E)); [|exact Hu].
    rewrite <- Hx, HK, inject_Z_mult, <- Q2pow_Z, <- Qmult_assoc, <- Q2pow_add by lia.
    replace (j - E + E) with j by lia. reflexivity. }
  rewrite HY in Hc. apply inject_Z_half in Hc.
  rewrite Hv, Hx, HY, Hc. reflexivity.
Qed.

Lemma is_float_binade (x : number) (s : bool) (v : Q) (e : Z) :
  is_float x s v e -> (Q2pow (e + 52) <= v < Q2pow (e + 53))%Q.
Proof.
  intros (m & _ & Hd & Hv). pose proof (digits2_pos_bounds m) as [Blo Bhi].
  rewrite Hd in Blo, Bhi. change (53 - 1) with 52 in Blo.
  rewrite Zle_Qle in Blo. rewrite Zlt_Qlt in Bhi.
  rewrite Q2pow_52, Q2pow_53, Hv. pose proof (Q2pow_pos e) as Hu.
  split; [apply Qmult_le_compat_r; lra | apply Qmult_lt_compat_r; lra].
Qed.

(** Two normal Numbers of the same sign and magnitude are equal. *)
Lemma is_float_unique (x y : number) (s : bool) (v w : Q) (e f : Z) :
  is_float x s v e -> is_float y s w f -> (v == w)%Q -> x = y.
Proof.
  intros Hx Hy Hvw.
  pose proof (is_float_binade _ _ _ _ Hx) as [X1 X2].
  pose proof (is_float_binade _ _ _ _ Hy) as [Y1 Y2].
  assert (Hef : e = f).
  { assert (e + 52 < f + 53) by (apply Q2pow_lt_inv; lra).
    assert (f + 52 < e + 53) by (apply Q2pow_lt_inv; lra). lia. }
  subst f. destruct Hx as (m & -> & _ & Hv), Hy as (m' & -> & _ & Hw).
  assert (Hm : (inject_Z (Zpos m) == inject_Z (Zpos m'))%Q).
  { apply (Qscale_eq_inv _ _ (Q2pow e)); [|apply Q2pow_pos].
    rewrite <- Hv, <- Hw. exact Hvw. }
  apply (proj1 (inject_Z_injective _ _)) in Hm. injection Hm as ->. reflexivity.
Qed.

(** ** The operations on normal Numbers *)

Lemma is_float_value (x : number) (s : bool) (v w : Q) (e : Z) :
  is_float x s v e -> (v == w)%Q -> is_float x s w e.
Proof.
  intros (m & Hx & Hd & Hv) Hvw. exists m.
  split; [exact Hx|]. split; [exact Hd|]. rewrite <- Hvw. exact Hv.
Qed.

Lemma Q2pow_0_le_inject (k : Z) : 0 < k -> (Q2pow 0 <= inject_Z k)%Q.
Proof.
  intros Hk. change (Q2pow 0) with (inject_Z 1). rewrite <- Zle_Qle. lia.
Qed.

(** An integer of magnitude below [2^53] is a Number. *)
Lemma of_Z_float (z : Z) :
  z <> 0 -> Z.abs z < 2 ^ 53 ->
  exists e, is_float (of_Z z) (z <? 0) (inject_Z (Z.abs z)) e /\ -52 <= e <= 0.
Proof.
  intros Hz Hlt.
  assert (H : forall (s : bool) (p : positive),
             Zpos p < 2 ^ 53 ->
             exists e, is_float (binary_round prec emax s p 0) s
                         (inject_Z (Zpos p)) e /\ -52 <= e <= 0).
  { intros s p Hp.
    pose proof (digits2_pos_bounds p) as [Blo Bhi].
    assert (Hd : Zpos (digits2_pos p) <= 53).
    { destruct (Z.le_gt_cases (Zpos (digits2_pos p)) 53) as [H|H]; [exact H|].
      assert (2 ^ 53 <= 2 ^ (Zpos (digits2_pos p) - 1))
        by (apply Z.pow_le_mono_r; lia). lia. }
    pose proof (binary_round_correct s p 0) as Hr. cbv zeta in Hr.
    destruct Hr as (v & e & Hf & Hr); [lia|lia|].
    assert (Hv : (v == inject_Z (Zpos p))%Q).
    { rewrite (rounded_exact _ _ _ _ (Zpos p) 0 Hr); [| reflexivity | lia].
      change (Q2pow 0) with 1%Q. ring. }
    exists e. split; [exact (is_float_value _ _ _ _ _ Hf Hv)|].
    pose proof (is_float_binade _ _ _ _ Hf) as [B1 B2]. rewrite Hv in B1, B2.
    assert (e + 52 < 53).
    { apply Q2pow_lt_inv. rewrite (Q2pow_Z 53) by lia.
      rewrite Zlt_Qlt in Hp. lra. }
    assert (0 < e + 53).
    { apply Q2pow_lt_inv. pose proof (Q2pow_0_le_inject (Zpos p) ltac:(lia)). lra. }
    lia. }
  destruct z as [|p|p]; [contradiction| |]; cbn [Z.abs Z.ltb Z.compare];
    unfold of_Z, binary_normalize; apply H; exact Hlt.
Qed.

(** The location that the division computes for a remainder. *)
Lemma locates_quotient (a b : Z) :
  0 <= a -> 0 < b ->
  locates (inject_Z a / inject_Z b)
    (shr_record_of_loc (fst (Z.div_eucl a b))
       (new_location b (snd (Z.div_eucl a b)))).
Proof.
  intros Ha Hb.
  pose proof (Z_div_mod a b ltac:(lia)) as Hdm.
  destruct (Z.div_eucl a b) as [q r]. cbn [fst snd]. destruct Hdm as [Hab Hr].
  set (X := (inject_Z a / inject_Z b)%Q).
  assert (HB : (0 < inject_Z b)%Q) by (change 0%Q with (inject_Z 0); rewrite <- Zlt_Qlt; lia).
  assert (HX : (X * inject_Z b == inject_Z q * inject_Z b + inject_Z r)%Q).
  { unfold X. rewrite Hab, inject_Z_plus, inject_Z_mult. field. lra. }
  assert (HR0 : (0 <= inject_Z r)%Q) by (change 0%Q with (inject_Z 0); rewrite <- Zle_Qle; lia).
  assert (HR1 : (inject_Z r < inject_Z b)%Q) by (rewrite <- Zlt_Qlt; lia).
  clearbody X.
  assert (Hcases : (r = 0 /\ new_location b r = loc_Exact)
                   \/ (0 < r /\ 2 * r < b /\ new_location b r = loc_Inexact Lt)
                   \/ (0 < r /\ 2 * r = b /\ new_location b r = loc_Inexact Eq)
                   \/ (0 < r /\ b < 2 * r /\ new_location b r = loc_Inexact Gt)).
  { unfold new_location, new_location_even, new_location_odd.
    destruct (Z.eqb_spec r 0) as [->|Hr0].
    - left. split; [reflexivity|]. destruct (Z.even b); reflexivity.
    - right. apply Z.eqb_neq in Hr0 as Hr0'. destruct (Z.even b) eqn:Eb;
        rewrite ?Hr0'.
      + destruct (Z.compare_spec (2 * r) b); [right; left|left|right; right];
          (split; [lia|split; [lia|reflexivity]]).
      + assert (Hodd : Z.odd b = true) by (rewrite <- Z.negb_even, Eb; reflexivity).
        apply Z.odd_spec in Hodd. destruct Hodd as [k Hk].
        destruct (Z.compare_spec (2 * r + 1) b); [left|left|right; right];
          (split; [lia|split; [lia|reflexivity]]). }
  unfold locates, shr_Q. rewrite shr_m_of_loc.
  set (Qq := inject_Z q) in *. set (B := inject_Z b) in *. set (R := inject_Z r) in *.
  destruct Hcases as [[Hr0 ->]|[(Hr0 & Hc & ->)|[(Hr0 & Hc & ->)|(Hr0 & Hc & ->)]]];
    cbn [shr_record_of_loc shr_r shr_s].
  - assert (R == 0)%Q by (unfold R; rewrite Hr0; reflexivity).
    assert (X == Qq)%Q by (apply (Qscale_eq_inv _ _ B); lra).
    bool_goal; lra.
  - assert (0 < R)%Q by (unfold R; change 0%Q with (inject_Z 0); rewrite <- Zlt_Qlt; lia).
    assert (2 * R < B)%Q.
    { unfold R, B. change 2%Q with (inject_Z 2). rewrite <- inject_Z_mult, <- Zlt_Qlt. lia. }
    assert (Qq < X)%Q by (apply (Qscale_lt_inv _ _ B); lra).
    assert (X < Qq + (1 # 2))%Q by (apply (Qscale_lt_inv _ _ B); lra).
    bool_goal; lra.
  - assert (2 * R == B)%Q.
    { unfold R, B. change 2%Q with (inject_Z 2). rewrite <- inject_Z_mult, Hc. reflexivity. }
    assert (X == Qq + (1 # 2))%Q by (apply (Qscale_eq_inv _ _ B); lra).
    bool_goal; lra.
  - assert (B < 2 * R)%Q.
    { unfold R, B. change 2%Q with (inject_Z 2). rewrite <- inject_Z_mult, <- Zlt_Qlt. lia. }
    assert (Qq + (1 # 2) < X)%Q by (apply (Qscale_lt_inv _ _ B); lra).
    assert (X < Qq + 1)%Q by (apply (Qscale_lt_inv _ _ B); lra).
    bool_goal; lra.
Qed.

Lemma SFdiv_core_53 (ma mb : positive) (ea eb : Z) :
  Zpos (digits2_pos ma) = 53 -> Zpos (digits2_pos mb) = 53 ->
  -1074 <= ea - eb - 53 ->
  SFdiv_core_binary prec emax (Zpos ma) ea (Zpos mb) eb
  = (fst (Z.div_eucl (Zpos ma * 2 ^ 53) (Zpos mb)), ea - eb - 53,
     new_location (Zpos mb) (snd (Z.div_eucl (Zpos ma * 2 ^ 53) (Zpos mb)))).
Proof.
  intros Ha Hb Hlo. unfold SFdiv_core_binary. cbn [Zdigits2]. rewrite Ha, Hb.
  replace (53 + ea - (53 + eb)) with (ea - eb) by lia.
  rewrite fexp_normal by lia.
  rewrite Z.min_l by lia.
  replace (ea - eb - (ea - eb - 53)) with 53 by lia.
  cbv iota. rewrite Z.shiftl_mul_pow2 by lia.
  destruct (Z.div_eucl (Zpos ma * 2 ^ 53) (Zpos mb)) as [q r]. reflexivity.
Qed.

Lemma Q2pow_sub (a b : Z) : (Q2pow (a - b) == Q2pow a / Q2pow b)%Q.
Proof.
  pose proof (Q2pow_pos b).
  replace a with ((a - b) + b) at 2 by lia. rewrite Q2pow_add. field. lra.
Qed.

(** Division of normal Numbers rounds the quotient. *)
Lemma div_float (xa xb : number) (sa sb : bool) (va vb : Q) (ea eb : Z) :
  is_float xa sa va ea -> is_float xb sb vb eb ->
  -1074 <= ea - eb - 53 -> ea - eb - 51 <= 971 ->
  exists v E e,
    is_float (div xa xb) (xorb sa sb) v e /\ rounded (va / vb) v E e.
Proof.
  intros (ma & -> & Hda & Hva) (mb & -> & Hdb & Hvb) Hlo Hhi.
  unfold div, SFdiv. rewrite SFdiv_core_53 by assumption.
  pose proof (digits2_pos_bounds ma) as [Alo Ahi]. rewrite Hda in Alo, Ahi.
  pose proof (digits2_pos_bounds mb) as [Blo Bhi]. rewrite Hdb in Blo, Bhi.
  change (53 - 1) with 52 in *.
  pose proof (locates_quotient (Zpos ma * 2 ^ 53) (Zpos mb) ltac:(lia) ltac:(lia))
    as HX.
  pose proof (Z_div_mod (Zpos ma * 2 ^ 53) (Zpos mb) ltac:(lia)) as Hdm.
  destruct (Z.div_eucl (Zpos ma * 2 ^ 53) (Zpos mb)) as [q r].
  cbn [fst snd] in *. destruct Hdm as [Hab Hr].
  assert (Hq : 2 ^ 52 <= q < 2 ^ 54) by nia.
  destruct q as [|q|q]; try lia.
  assert (Hdq : 53 <= Zpos (digits2_pos q) <= 54).
  { pose proof (digits2_pos_bounds q) as [Qlo Qhi]. split.
    - destruct (Z.le_gt_cases 53 (Zpos (digits2_pos q))) as [H|H]; [exact H|].
      assert (2 ^ Zpos (digits2_pos q) <= 2 ^ 52) by (apply Z.pow_le_mono_r; lia).
      lia.
    - destruct (Z.le_gt_cases (Zpos (digits2_pos q)) 54) as [H|H]; [exact H|].
      assert (2 ^ 54 <= 2 ^ (Zpos (digits2_pos q) - 1))
        by (apply Z.pow_le_mono_r; lia). lia. }
  pose proof (binary_round_aux_correct (xorb sa sb) q (ea - eb - 53) _ _ HX) as H.
  cbv zeta in H.
  destruct H as (m & e & M & -> & Hm & He & Hval & Hclose & HM & HB); [lia..|].
  set (n := Zpos (digits2_pos q) - 53) in *.
  exists (inject_Z (Zpos m) * Q2pow e)%Q, (ea - eb - 53 + n), e. split.
  - exists m. split; [reflexivity|]. split; [exact Hm|reflexivity].
  - exists M, (inject_Z (Zpos ma * 2 ^ 53) / inject_Z (Zpos mb) * Q2pow (- n))%Q.
    split; [exact Hval|]. split; [|split; [exact Hclose|split; [exact HB|split; [exact HM|exact He]]]].
    rewrite Hva, Hvb, <- Qmult_assoc, <- Q2pow_add.
    replace (- n + (ea - eb - 53 + n)) with ((ea - eb) - 53) by lia.
    rewrite inject_Z_mult, <- (Q2pow_Z 53), (Q2pow_sub (ea - eb)), (Q2pow_sub ea eb) by lia.
    pose proof (Q2pow_pos eb). pose proof (Q2pow_pos 53).
    assert (0 < inject_Z (Zpos mb))%Q by (change 0%Q with (inject_Z 0); rewrite <- Zlt_Qlt; lia).
    field. split; lra.
Qed.

(** Multiplication of normal Numbers rounds the product. *)
Lemma mul_float (xa xb : number) (sa sb : bool) (va vb : Q) (ea eb : Z) :
  is_float xa sa va ea -> is_float xb sb vb eb ->
  -1074 <= ea + eb -> ea + eb + 54 <= 971 ->
  exists v E e,
    is_float (mul xa xb) (xorb sa sb) v e /\ rounded (va * vb) v E e.
Proof.
  intros (ma & -> & Hda & Hva) (mb & -> & Hdb & Hvb) Hlo Hhi.
  unfold mul, SFmul.
  pose proof (digits2_pos_bounds ma) as [Alo Ahi]. rewrite Hda in Alo, Ahi.
  pose proof (digits2_pos_bounds mb) as [Blo Bhi]. rewrite Hdb in Blo, Bhi.
  change (53 - 1) with 52 in *.
  assert (Hp : 2 ^ 104 <= Zpos (ma * mb) < 2 ^ 106).
  { rewrite Pos2Z.inj_mul. change (2 ^ 104) with (2 ^ 52 * 2 ^ 52).
    change (2 ^ 106) with (2 ^ 53 * 2 ^ 53). nia. }
  assert (Hdp : 105 <= Zpos (digits2_pos (ma * mb)) <= 106).
  { pose proof (digits2_pos_bounds (ma * mb)) as [Qlo Qhi]. split.
    - destruct (Z.le_gt_cases 105 (Zpos (digits2_pos (ma * mb)))) as [H|H];
        [exact H|].
      assert (2 ^ Zpos (digits2_pos (ma * mb)) <= 2 ^ 104)
        by (apply Z.pow_le_mono_r; lia). lia.
    - destruct (Z.le_gt_cases (Zpos (digits2_pos (ma * mb))) 106) as [H|H];
        [exact H|].
      assert (2 ^ 106 <= 2 ^ (Zpos (digits2_pos (ma * mb)) - 1))
        by (apply Z.pow_le_mono_r; lia). lia. }
  pose proof (binary_round_aux_correct (xorb sa sb) (ma * mb) (ea + eb) _ _
                (locates_exact (Zpos (ma * mb)))) as H.
  cbv zeta in H.
  destruct H as (m & e & M & -> & Hm & He & Hval & Hclose & HM & HB); [lia..|].
  set (n := Zpos (digits2_pos (ma * mb)) - 53) in *.
  exists (inject_Z (Zpos m) * Q2pow e)%Q, (ea + eb + n), e. split.
  - exists m. split; [reflexivity|]. split; [exact Hm|reflexivity].
  - exists M, (inject_Z (Zpos (ma * mb)) * Q2pow (- n))%Q.
    split; [exact Hval|]. split; [|split; [exact Hclose|split; [exact HB|split; [exact HM|exact He]]]].
    assert (P : (Q2pow (- n) * Q2pow (ea + eb + n) == Q2pow ea * Q2pow eb)%Q).
    { rewrite <- !Q2pow_add. replace (- n + (ea + eb + n)) with (ea + eb) by lia.
      reflexivity. }
    rewrite Hva, Hvb, Pos2Z.inj_mul, inject_Z_mult.
    transitivity (inject_Z (Zpos ma) * inject_Z (Zpos mb)
                  * (Q2pow (- n) * Q2pow (ea + eb + n)))%Q; [rewrite P|]; ring.
Qed.

Lemma shl_align_fst (m : positive) (e ez : Z) :
  ez <= e -> Zpos (fst (shl_align m e ez)) = Zpos m * 2 ^ (e - ez).
Proof.
  intros Hle. unfold shl_align.
  destruct (ez - e) as [|d|d] eqn:Ed; cbn [fst]; try lia.
  - replace (e - ez) with 0 by lia. lia.
  - rewrite Pos_iter_xO. f_equal. f_equal. lia.
Qed.

Lemma aligned_value (m : positive) (e ez : Z) :
  ez <= e ->
  (inject_Z (Zpos (fst (shl_align m e ez))) * Q2pow ez
   == inject_Z (Zpos m) * Q2pow e)%Q.
Proof.
  intros Hle. rewrite shl_align_fst, inject_Z_mult, <- Q2pow_Z by lia.
  rewrite <- Qmult_assoc, <- Q2pow_add. replace (e - ez + ez) with e by lia.
  reflexivity.
Qed.

Lemma digits2_pos_le (p : positive) (k : Z) :
  Zpos p < 2 ^ k -> Zpos (digits2_pos p) <= k.
Proof.
  intros Hp. pose proof (digits2_pos_bounds p) as [Blo _].
  destruct (Z.le_gt_cases (Zpos (digits2_pos p)) k) as [H|H]; [exact H|].
  assert (2 ^ k <= 2 ^ (Zpos (digits2_pos p) - 1)) by (apply Z.pow_le_mono_r; lia).
  lia.
Qed.

Lemma digits2_pos_ge (p : positive) (k : Z) :
  2 ^ k <= Zpos p -> k + 1 <= Zpos (digits2_pos p).
Proof.
  intros Hp. pose proof (digits2_pos_bounds p) as [_ Bhi].
  destruct (Z.le_gt_cases (k + 1) (Zpos (digits2_pos p))) as [H|H]; [exact H|].
  assert (2 ^ Zpos (digits2_pos p) <= 2 ^ k) by (apply Z.pow_le_mono_r; lia).
  lia.
Qed.

Lemma aligned_bounds (m : positive) (e ez : Z) :
  Zpos (digits2_pos m) = 53 -> ez <= e ->
  2 ^ 52 <= Zpos (fst (shl_align m e ez)) < 2 ^ (53 + (e - ez)).
Proof.
  intros Hd Hle. rewrite shl_align_fst by assumption.
  pose proof (digits2_pos_bounds m) as [Blo Bhi]. rewrite Hd in Blo, Bhi.
  change (53 - 1) with 52 in Blo. rewrite Z.pow_add_r by lia.
  assert (1 <= 2 ^ (e - ez)) by (pose proof (Z.pow_pos_nonneg 2 (e - ez)); lia).
  nia.
Qed.

(** Addition of positive normal Numbers rounds the sum. *)
Lemma add_float (xa xb : number) (va vb : Q) (ea eb : Z) :
  is_float xa false va ea -> is_float xb false vb eb ->
  -1074 <= Z.min ea eb -> Z.max ea eb + 2 <= 971 ->
  exists v E e,
    is_float (add xa xb) false v e /\ rounded (va + vb) v E e.
Proof.
  intros (ma & -> & Hda & Hva) (mb & -> & Hdb & Hvb) Hlo Hhi.
  unfold add, SFadd. cbn [cond_Zopp].
  set (ez := Z.min ea eb).
  pose proof (aligned_bounds ma ea ez Hda ltac:(lia)) as [A1 A2].
  pose proof (aligned_bounds mb eb ez Hdb ltac:(lia)) as [B1 B2].
  pose proof (aligned_value ma ea ez ltac:(lia)) as VA.
  pose proof (aligned_value mb eb ez ltac:(lia)) as VB.
  set (a := fst (shl_align ma ea ez)) in *. set (b := fst (shl_align mb eb ez)) in *.
  change (Zpos a + Zpos b) with (Zpos (a + b)). cbn [binary_normalize].
  assert (Hp : 2 ^ 52 <= Zpos (a + b) < 2 ^ (54 + (Z.max ea eb - ez))).
  { rewrite Pos2Z.inj_add.
    assert (2 ^ (53 + (ea - ez)) <= 2 ^ (53 + (Z.max ea eb - ez)))
      by (apply Z.pow_le_mono_r; lia).
    assert (2 ^ (53 + (eb - ez)) <= 2 ^ (53 + (Z.max ea eb - ez)))
      by (apply Z.pow_le_mono_r; lia).
    replace (54 + (Z.max ea eb - ez)) with (Z.succ (53 + (Z.max ea eb - ez))) by lia.
    rewrite Z.pow_succ_r by lia. lia. }
  pose proof (digits2_pos_ge (a + b) 52 ltac:(lia)) as D1.
  pose proof (digits2_pos_le (a + b) _ (proj2 Hp)) as D2.
  pose proof (binary_round_correct false (a + b) ez) as H. cbv zeta in H.
  destruct H as (v & e & Hf & Hr); [lia|lia|].
  exists v, (ez + Zpos (digits2_pos (a + b)) - 53), e. split; [exact Hf|].
  destruct Hr as (M & Y & R1 & R2 & R3). exists M, Y.
  split; [exact R1|]. split; [|exact R3].
  rewrite <- R2, Hva, Hvb, <- VA, <- VB, Pos2Z.inj_add, inject_Z_plus. ring.
Qed.

(** Subtraction of a smaller positive normal Number rounds the difference. *)
Lemma sub_float (xa xb : number) (va vb : Q) (ea eb : Z) :
  is_float xa false va ea -> is_float xb false vb eb ->
  (vb < va)%Q ->
  -1074 <= Z.min ea eb - 52 -> Z.max ea eb + 1 <= 971 ->
  exists v E e,
    is_float (sub xa xb) false v e /\ rounded (va - vb) v E e.
Proof.
  intros (ma & -> & Hda & Hva) (mb & -> & Hdb & Hvb) Hlt Hlo Hhi.
  unfold sub, SFsub. cbn [cond_Zopp].
  set (ez := Z.min ea eb).
  pose proof (aligned_bounds ma ea ez Hda ltac:(lia)) as [A1 A2].
  pose proof (aligned_bounds mb eb ez Hdb ltac:(lia)) as [B1 B2].
  pose proof (aligned_value ma ea ez ltac:(lia)) as VA.
  pose proof (aligned_value mb eb ez ltac:(lia)) as VB.
  set (a := fst (shl_align ma ea ez)) in *. set (b := fst (shl_align mb eb ez)) in *.
  assert (Hab : Zpos b < Zpos a).
  { rewrite Zlt_Qlt. apply (Qscale_lt_inv _ _ (Q2pow ez)); [|apply Q2pow_pos].
    rewrite VA, VB, <- Hva, <- Hvb. exact Hlt. }
  destruct (Zpos a - Zpos b) as [|p|p] eqn:Ep; try lia.
  cbn [binary_normalize].
  assert (Hp : Zpos p < 2 ^ (53 + (ea - ez))) by lia.
  pose proof (digits2_pos_le p _ Hp) as D2.
  assert (D1 : 1 <= Zpos (digits2_pos p)) by lia.
  pose proof (binary_round_correct false p ez) as H. cbv zeta in H.
  destruct H as (v & e & Hf & Hr); [lia|lia|].
  exists v, (ez + Zpos (digits2_pos p) - 53), e. split; [exact Hf|].
  destruct Hr as (M & Y & R1 & R2 & R3). exists M, Y.
  split; [exact R1|]. split; [|exact R3].
  rewrite <- R2, Hva, Hvb, <- VA, <- VB, <- Ep.
  unfold Z.sub. rewrite inject_Z_plus, inject_Z_opp. ring.
Qed.

(** ** [Math.floor] and [toFixed(2)] *)

Lemma inject_Z_pos (k : Z) : 0 < k -> (0 < inject_Z k)%Q.
Proof. intros Hk. change 0%Q with (inject_Z 0). rewrite <- Zlt_Qlt. exact Hk. Qed.

Lemma inject_Z_lt_1 (a b : Z) :
  (inject_Z a - inject_Z b < 1)%Q -> (inject_Z b - inject_Z a < 1)%Q -> a = b.
Proof.
  intros H1 H2.
  assert (A : (inject_Z (a - b) < inject_Z 1)%Q).
  { unfold Z.sub. rewrite inject_Z_plus, inject_Z_opp.
    change (inject_Z 1) with 1%Q. lra. }
  assert (B : (inject_Z (b - a) < inject_Z 1)%Q).
  { unfold Z.sub. rewrite inject_Z_plus, inject_Z_opp.
    change (inject_Z 1) with 1%Q. lra. }
  rewrite <- Zlt_Qlt in A, B. lia.
Qed.

Lemma floor_scaled_spec (m e : Z) :
  (inject_Z (floor_scaled m e) <= inject_Z m * Q2pow e
   < inject_Z (floor_scaled m e) + 1)%Q.
Proof.
  unfold floor_scaled. destruct (Z.leb_spec 0 e) as [He|He].
  - rewrite inject_Z_mult, <- Q2pow_Z by assumption. lra.
  - set (k := - e). assert (Hk : 0 < 2 ^ k) by (apply Z.pow_pos_nonneg; lia).
    pose proof (Z_div_mod m (2 ^ k) ltac:(lia)) as Hdm.
    unfold Z.div. destruct (Z.div_eucl m (2 ^ k)) as [z r]. destruct Hdm as [Hm Hr].
    pose proof (inject_Z_pos _ Hk) as Hu.
    assert (HV : (inject_Z m * Q2pow e * inject_Z (2 ^ k) == inject_Z m)%Q).
    { rewrite <- (Q2pow_Z k), <- Qmult_assoc, <- Q2pow_add by lia.
      replace (e + k) with 0 by lia. change (Q2pow 0) with 1%Q. ring. }
    assert (Hm' : (inject_Z m == inject_Z (2 ^ k) * inject_Z z + inject_Z r)%Q)
      by (rewrite Hm, inject_Z_plus, inject_Z_mult; reflexivity).
    assert (Hr0 : (0 <= inject_Z r)%Q) by (change 0%Q with (inject_Z 0); rewrite <- Zle_Qle; lia).
    assert (Hr1 : (inject_Z r < inject_Z (2 ^ k))%Q) by (rewrite <- Zlt_Qlt; lia).
    split.
    + apply (Qscale_le_inv _ _ (inject_Z (2 ^ k))); [|exact Hu]. lra.
    + apply (Qscale_lt_inv _ _ (inject_Z (2 ^ k))); [|exact Hu]. lra.
Qed.

(** [Math.floor] of a positive normal Number is the Number of the
    integer part. *)
Lemma Math_floor_float (x : number) (v : Q) (e z : Z) :
  is_float x false v e -> (inject_Z z <= v < inject_Z z + 1)%Q ->
  Math_floor x = of_Z z.
Proof.
  intros (m & -> & Hd & Hv) Hz. unfold Math_floor. cbn [cond_Zopp].
  pose proof (floor_scaled_spec (Zpos m) e) as Hf. rewrite <- Hv in Hf.
  assert (E : floor_scaled (Zpos m) e = z) by (apply inject_Z_lt_1; lra).
  rewrite E. destruct (Z.eqb_spec z 0) as [->|Hne]; reflexivity.
Qed.

Lemma nearest_hundredth_spec (m e : Z) :
  (inject_Z (nearest_hundredth m e) - (1 # 2) <= 100 * (inject_Z m * Q2pow e)
   < inject_Z (nearest_hundredth m e) + (1 # 2))%Q.
Proof.
  unfold nearest_hundredth. destruct (Z.leb_spec 0 e) as [He|He].
  - rewrite !inject_Z_mult, <- Q2pow_Z by assumption.
    change (inject_Z 100) with 100%Q. lra.
  - set (k := - e). assert (Hk : 0 < 2 ^ k) by (apply Z.pow_pos_nonneg; lia).
    pose proof (Z_div_mod (200 * m + 2 ^ k) (2 * 2 ^ k) ltac:(lia)) as Hdm.
    unfold Z.div. destruct (Z.div_eucl (200 * m + 2 ^ k) (2 * 2 ^ k)) as [z r].
    destruct Hdm as [Hm Hr].
    pose proof (inject_Z_pos _ Hk) as Hu.
    assert (HV : (inject_Z m * Q2pow e * inject_Z (2 ^ k) == inject_Z m)%Q).
    { rewrite <- (Q2pow_Z k), <- Qmult_assoc, <- Q2pow_add by lia.
      replace (e + k) with 0 by lia. change (Q2pow 0) with 1%Q. ring. }
    assert (Hm' : (200 * inject_Z m + inject_Z (2 ^ k)
                   == 2 * inject_Z (2 ^ k) * inject_Z z + inject_Z r)%Q).
    { change 200%Q with (inject_Z 200). change 2%Q with (inject_Z 2).
      rewrite <- !inject_Z_mult, <- !inject_Z_plus, Hm. reflexivity. }
    assert (Hr0 : (0 <= inject_Z r)%Q) by (change 0%Q with (inject_Z 0); rewrite <- Zle_Qle; lia).
    assert (Hr1 : (inject_Z r < 2 * inject_Z (2 ^ k))%Q).
    { change 2%Q with (inject_Z 2). rewrite <- inject_Z_mult, <- Zlt_Qlt. lia. }
    split.
    + apply (Qscale_le_inv _ _ (inject_Z (2 ^ k))); [|exact Hu]. lra.
    + apply (Qscale_lt_inv _ _ (inject_Z (2 ^ k))); [|exact Hu]. lra.
Qed.

(** [toFixed(2)] of a normal Number below [1e21] prints the hundredth
    nearest to its magnitude, the larger one on a tie. *)
Lemma toFixed2_float (x : number) (s : bool) (v : Q) (e : Z) :
  is_float x s v e -> (v < inject_Z (10 ^ 21))%Q ->
  exists n, toFixed2 x = FxDec s n
    /\ (inject_Z n - (1 # 2) <= 100 * v < inject_Z n + (1 # 2))%Q.
Proof.
  intros (m & -> & Hd & Hv) Hlt. unfold toFixed2.
  pose proof (floor_scaled_spec (Zpos m) e) as Hf. rewrite <- Hv in Hf.
  assert (G : floor_scaled (Zpos m) e < 10 ^ 21) by (rewrite Zlt_Qlt; lra).
  destruct (Z.leb_spec (10 ^ 21) (floor_scaled (Zpos m) e)) as [H|_]; [lia|].
  exists (nearest_hundredth (Zpos m) e). split; [reflexivity|].
  rewrite Hv. apply nearest_hundredth_spec.
Qed.

Lemma is_float_exponent (x : number) (s : bool) (v : Q) (e a b : Z) :
  is_float x s v e -> (Q2pow a <= v)%Q -> (v < Q2pow b)%Q ->
  a - 53 < e /\ e < b - 52.
Proof.
  intros Hf Ha Hb. pose proof (is_float_binade _ _ _ _ Hf) as [B1 B2].
  assert (a < e + 53) by (apply Q2pow_lt_inv; lra).
  assert (e + 52 < b) by (apply Q2pow_lt_inv; lra). lia.
Qed.

(** ** The estimate of the failed submissions *)

Lemma lit_0_3_float :
  is_float lit_0_3 false (5404319552844595 # 18014398509481984) (-54).
Proof.
  exists 5404319552844595%positive.
  split; [reflexivity|]. split; reflexivity.
Qed.

Lemma of_Z_pos_float (z : Z) :
  0 < z < 2 ^ 53 ->
  exists e, is_float (of_Z z) false (inject_Z z) e /\ -52 <= e <= 0.
Proof.
  intros Hz. destruct (of_Z_float z ltac:(lia) ltac:(lia)) as (e & Hf & He).
  exists e. split; [|exact He].
  replace (z <? 0) with false in Hf by (symmetry; apply Z.ltb_ge; lia).
  rewrite Z.abs_eq in Hf by lia. exact Hf.
Qed.

Lemma inject_Z_lt_2_36 (n : Z) : n < 2 ^ 36 -> (inject_Z n < 68719476736)%Q.
Proof. intros H. rewrite Zlt_Qlt in H. exact H. Qed.

Lemma estimate_failed_exact (n : Z) :
  0 < n < 2 ^ 36 -> estimate_failed n = of_Z (3 * n / 10).
Proof.
  intros Hn. unfold estimate_failed.
  destruct (of_Z_pos_float n ltac:(lia)) as (e0 & Hf0 & He0).
  destruct (mul_float _ _ _ _ _ _ _ _ Hf0 lit_0_3_float ltac:(lia) ltac:(lia))
    as (v & E & e & Hf & Hr).
  cbn [xorb] in Hf. apply (Math_floor_float _ v e); [exact Hf|].
  pose proof (Z_div_mod (3 * n) 10 ltac:(lia)) as Hdm. unfold Z.div.
  destruct (Z.div_eucl (3 * n) 10) as [k r]. destruct Hdm as [Hk Hr10].
  assert (HkQ : (3 * inject_Z n == 10 * inject_Z k + inject_Z r)%Q).
  { change 3%Q with (inject_Z 3). change 10%Q with (inject_Z 10).
    rewrite <- !inject_Z_mult, <- inject_Z_plus, Hk. reflexivity. }
  pose proof (inject_Z_lt_2_36 n ltac:(lia)) as Hn36.
  pose proof (inject_Z_pos n ltac:(lia)) as Hn0.
  pose proof (rounded_rel _ _ _ _ Hr) as Hrel.
  apply Qabs_Qle_condition in Hrel.
  change (2 ^ 53)%positive with 9007199254740992%positive in Hrel.
  set (x := (inject_Z n * (5404319552844595 # 18014398509481984))%Q) in *.
  assert (Hx : (10 * x == 3 * inject_Z n - inject_Z n * (1 # 9007199254740992))%Q)
    by (unfold x; ring).
  destruct (Z.eq_dec r 0) as [Hr0|Hr0].
  - (* 3n is a multiple of 10: the product falls just below the integer
       and is rounded up to it *)
    subst r. change (inject_Z 0) with 0%Q in HkQ.
    destruct Hr as (M & Y & Hv & HxY & Hc & [HB1 HB2] & HM & He).
    fold x in HxY. pose proof (Q2pow_pos E) as Hu.
    assert (HE : E <= 0).
    { assert (E + 52 < 53); [|lia]. apply Q2pow_lt_inv.
      rewrite Q2pow_52, (Q2pow_Z 53) by lia.
      assert (inject_Z (2 ^ 52) * Q2pow E <= Y * Q2pow E)%Q
        by (apply Qmult_le_compat_r; lra).
      change (inject_Z (2 ^ 53)) with 9007199254740992%Q. lra. }
    assert (HK : (inject_Z k == inject_Z (k * 2 ^ (- E)) * Q2pow E)%Q).
    { rewrite inject_Z_mult, <- Q2pow_Z, <- Qmult_assoc, <- Q2pow_add by lia.
      replace (- E + E) with 0 by lia. change (Q2pow 0) with 1%Q. ring. }
    set (K := inject_Z (k * 2 ^ (- E))) in *.
    assert (HKY : (K * (1 - (1 # 27021597764222976)) == Y)%Q).
    { apply (Qscale_eq_inv _ _ (Q2pow E)); [|exact Hu].
      rewrite <- HxY.
      transitivity (K * Q2pow E * (1 - (1 # 27021597764222976)))%Q; [ring|].
      rewrite <- HK. lra. }
    apply Qabs_Qle_condition in Hc.
    change (inject_Z (2 ^ 53)) with 9007199254740992%Q in HB2.
    change (inject_Z (2 ^ 52)) with 4503599627370496%Q in HB1.
    assert (HMK : M = k * 2 ^ (- E)) by (apply inject_Z_lt_1; fold K; lra).
    assert (Hvk : (v == inject_Z k)%Q) by (rewrite Hv, HK, HMK; reflexivity).
    lra.
  - assert (Hr1 : (1 <= inject_Z r)%Q)
      by (change 1%Q with (inject_Z 1); rewrite <- Zle_Qle; lia).
    assert (Hr9 : (inject_Z r <= 9)%Q)
      by (change 9%Q with (inject_Z 9); rewrite <- Zle_Qle; lia).
    lra.
Qed.

(** The sum of two positive integers, when below [2^53], is computed
    exactly. *)
Lemma add_of_Z (a b : Z) :
  0 < a -> 0 <= b -> a + b < 2 ^ 53 -> add (of_Z a) (of_Z b) = of_Z (a + b).
Proof.
  intros Ha Hb Hab.
  destruct (of_Z_pos_float a ltac:(lia)) as (ea & Hfa & Hea).
  destruct (Z.eq_dec b 0) as [->|Hb0].
  - rewrite Z.add_0_r. destruct Hfa as (m & -> & _). reflexivity.
  - destruct (of_Z_pos_float b ltac:(lia)) as (eb & Hfb & Heb).
    destruct (of_Z_pos_float (a + b) ltac:(lia)) as (es & Hfs & Hes).
    destruct (add_float _ _ _ _ _ _ Hfa Hfb ltac:(lia) ltac:(lia))
      as (v & E & e & Hf & Hr).
    apply (is_float_unique _ _ false v (inject_Z (a + b)) e es Hf Hfs).
    assert (Hx : (inject_Z a + inject_Z b == inject_Z (a + b) * Q2pow 0)%Q).
    { rewrite inject_Z_plus. change (Q2pow 0) with 1%Q. ring. }
    rewrite (rounded_exact _ _ _ _ (a + b) 0 Hr Hx).
    + rewrite inject_Z_plus. reflexivity.
    + pose proof (rounded_binade _ _ _ _ Hr) as [B1 _].
      assert (E + 52 < 53); [|lia]. apply Q2pow_lt_inv.
      rewrite (Q2pow_Z 53) by lia. rewrite Zlt_Qlt, inject_Z_plus in Hab. lra.
Qed.

Lemma estimate_attempts_exact (n : Z) :
  0 < n < 2 ^ 36 -> estimate_attempts n = of_Z (n + 3 * n / 10).
Proof.
  intros Hn. unfold estimate_attempts. rewrite estimate_failed_exact by assumption.
  assert (0 <= 3 * n / 10 <= n).
  { split; [apply Z.div_pos; lia|]. apply Z.div_le_upper_bound; lia. }
  apply add_of_Z; lia.
Qed.

Lemma gt0_float (x : number) (v : Q) (e : Z) : is_float x false v e -> gt0 x = true.
Proof. intros (m & -> & _). reflexivity. Qed.

(** ** The two rates *)

Lemma Qabs_scale (a r u : Q) :
  (0 < u -> - r <= a <= r -> - (r * u) <= a * u <= r * u)%Q.
Proof.
  intros Hu H. destruct (Qscale_between a (- r) r u H Hu). lra.
Qed.

Lemma success_rate_nearest (n : Z) :
  0 < n < 2 ^ 36 ->
  exists s,
    success_rate n = JFixed (FxDec false s)
    /\ nearest_percent n (n + 3 * n / 10) s
    /\ 7692 <= s <= 10000.
Proof.
  intros Hn. unfold success_rate. rewrite estimate_attempts_exact by assumption.
  set (t := n + 3 * n / 10).
  assert (Ht : n <= t /\ 10 * t <= 13 * n).
  { unfold t. pose proof (Z.div_pos (3 * n) 10 ltac:(lia) ltac:(lia)).
    pose proof (Z.mul_div_le (3 * n) 10 ltac:(lia)). lia. }
  destruct (of_Z_pos_float n ltac:(lia)) as (en & Hfn & Hen).
  destruct (of_Z_pos_float t ltac:(lia)) as (et & Hft & Het).
  destruct (of_Z_pos_float 100 ltac:(lia)) as (eh & Hfh & Heh).
  rewrite (gt0_float _ _ _ Hft).
  destruct (div_float _ _ _ _ _ _ _ _ Hfn Hft ltac:(lia) ltac:(lia))
    as (v1 & E1 & e1 & Hf1 & Hr1).
  cbn [xorb] in Hf1.
  (* the quotient lies between 10/13 and 1 *)
  pose proof (inject_Z_pos n ltac:(lia)) as Qn.
  pose proof (inject_Z_pos t ltac:(lia)) as Qt.
  set (q := (inject_Z n / inject_Z t)%Q) in *.
  assert (Hq : (q * inject_Z t == inject_Z n)%Q) by (unfold q; field; lra).
  assert (Hq1 : (q <= 1)%Q).
  { apply (Qscale_le_inv _ _ (inject_Z t)); [|exact Qt].
    destruct Ht as [Ht _]. rewrite Zle_Qle in Ht. lra. }
  assert (Hq0 : ((10 # 13) <= q)%Q).
  { apply (Qscale_le_inv _ _ (inject_Z t)); [|exact Qt].
    destruct Ht as [_ Ht]. rewrite Zle_Qle, !inject_Z_mult in Ht.
    change (inject_Z 10) with 10%Q in Ht. change (inject_Z 13) with 13%Q in Ht.
    lra. }
  pose proof (rounded_rel _ _ _ _ Hr1) as Hrel1.
  apply Qabs_Qle_condition in Hrel1.
  change (2 ^ 53)%positive with 9007199254740992%positive in Hrel1.
  destruct (is_float_exponent _ _ _ _ (-1) 1 Hf1) as [Le1 Ue1];
    [change (Q2pow (-1)) with (1 # 2)%Q; lra | change (Q2pow 1) with 2%Q; lra|].
  destruct (mul_float _ _ _ _ _ _ _ _ Hf1 Hfh ltac:(lia) ltac:(lia))
    as (v2 & E2 & e2 & Hf2 & Hr2).
  cbn [xorb] in Hf2.
  pose proof (rounded_rel _ _ _ _ Hr2) as Hrel2.
  apply Qabs_Qle_condition in Hrel2.
  change (2 ^ 53)%positive with 9007199254740992%positive in Hrel2.
  change (inject_Z 100) with 100%Q in Hrel2.
  destruct (toFixed2_float _ _ _ _ Hf2) as (s & -> & Hs).
  { change (inject_Z (10 ^ 21)) with 1000000000000000000000%Q. lra. }
  exists s. split; [reflexivity|].
  (* [s] is within one half and a little of [10000 q] *)
  assert (Hs' : (- ((1 # 2) + (1 # 400000000000)) <= inject_Z s - 10000 * q
                 <= (1 # 2) + (1 # 400000000000))%Q) by lra.
  pose proof (Qabs_scale _ _ _ Qt Hs') as Hst.
  assert (Ht36 : (inject_Z t < 100000000000)%Q).
  { assert (t < 100000000000) as B by lia. rewrite Zlt_Qlt in B. exact B. }
  split.
  - unfold nearest_percent.
    assert (A : (inject_Z (2 * (s * t - 10000 * n)) < inject_Z (t + 1))%Q).
    { unfold Z.sub. rewrite !inject_Z_mult, !inject_Z_plus, inject_Z_opp, !inject_Z_mult.
      change (inject_Z 2) with 2%Q. change (inject_Z 10000) with 10000%Q.
      change (inject_Z 1) with 1%Q. lra. }
    assert (B : (inject_Z (2 * (10000 * n - s * t)) < inject_Z (t + 1))%Q).
    { unfold Z.sub. rewrite !inject_Z_mult, !inject_Z_plus, inject_Z_opp, !inject_Z_mult.
      change (inject_Z 2) with 2%Q. change (inject_Z 10000) with 10000%Q.
      change (inject_Z 1) with 1%Q. lra. }
    rewrite <- Zlt_Qlt in A, B. lia.
  - assert (A : (inject_Z 7691 < inject_Z s)%Q)
      by (change (inject_Z 7691) with 7691%Q; lra).
    assert (B : (inject_Z s < inject_Z 10001)%Q)
      by (change (inject_Z 10001) with 10001%Q; lra).
    rewrite <- Zlt_Qlt in A, B. lia.
Qed.

(** [100 - successRate], printed with two decimals, is the complement of
    the printed success rate. *)
Lemma failure_rate_complement (s : Z) :
  7692 <= s <= 10000 ->
  toFixed2 (sub (of_Z 100) (fixed2_to_number (FxDec false s)))
  = FxDec false (10000 - s).
Proof.
  intros Hs. destruct (Z.eq_dec s 10000) as [->|Hne]; [reflexivity|].
  unfold fixed2_to_number. cbn [cond_Zopp].
  replace (s =? 0) with false by (symmetry; apply Z.eqb_neq; lia).
  destruct (of_Z_pos_float s ltac:(lia)) as (es & Hfs & Hes).
  destruct (of_Z_pos_float 100 ltac:(lia)) as (eh & Hfh & Heh).
  destruct (div_float _ _ _ _ _ _ _ _ Hfs Hfh ltac:(lia) ltac:(lia))
    as (v1 & E1 & e1 & Hf1 & Hr1).
  cbn [xorb] in Hf1.
  assert (Qs0 : (7692 <= inject_Z s)%Q)
    by (change 7692%Q with (inject_Z 7692); rewrite <- Zle_Qle; lia).
  assert (Qs1 : (inject_Z s <= 9999)%Q)
    by (change 9999%Q with (inject_Z 9999); rewrite <- Zle_Qle; lia).
  pose proof (rounded_rel _ _ _ _ Hr1) as Hrel1.
  apply Qabs_Qle_condition in Hrel1.
  change (2 ^ 53)%positive with 9007199254740992%positive in Hrel1.
  change (inject_Z 100) with 100%Q in *.
  set (q := (inject_Z s / 100)%Q) in *.
  assert (Hq : (100 * q == inject_Z s)%Q) by (unfold q; field).
  destruct (is_float_exponent _ _ _ _ 6 7 Hf1) as [Le1 Ue1];
    [change (Q2pow 6) with 64%Q; lra | change (Q2pow 7) with 128%Q; lra|].
  destruct (sub_float _ _ _ _ _ _ Hfh Hf1 ltac:(lra) ltac:(lia) ltac:(lia))
    as (v2 & E2 & e2 & Hf2 & Hr2).
  pose proof (rounded_rel _ _ _ _ Hr2) as Hrel2.
  apply Qabs_Qle_condition in Hrel2.
  change (2 ^ 53)%positive with 9007199254740992%positive in Hrel2.
  destruct (toFixed2_float _ _ _ _ Hf2) as (f & -> & Hf).
  { change (inject_Z (10 ^ 21)) with 1000000000000000000000%Q. lra. }
  f_equal. apply inject_Z_lt_1;
    unfold Z.sub; rewrite inject_Z_plus, inject_Z_opp;
    change (inject_Z 10000) with 10000%Q; lra.
Qed.

(** ** Sums of integers *)

Lemma inject_Z_abs_lt (z k : Z) : Z.abs z < k -> (inject_Z (Z.abs z) < inject_Z k)%Q.
Proof. intros H. rewrite <- Zlt_Qlt. exact H. Qed.

(** A non-zero integer of magnitude below [2^53], written with
    mantissa [p] at exponent [ez <= 0], is normalised to its Number. *)
Lemma binary_round_integer (s : bool) (p : positive) (ez z : Z) :
  -52 <= ez <= 0 -> 0 < z < 2 ^ 53 -> Zpos p = z * 2 ^ (- ez) ->
  binary_round prec emax s p ez = of_Z (cond_Zopp s z).
Proof.
  intros Hez Hz Hp.
  assert (Hpow : 0 < 2 ^ (- ez)) by (apply Z.pow_pos_nonneg; lia).
  assert (Hv : (inject_Z (Zpos p) * Q2pow ez == inject_Z z * Q2pow 0)%Q).
  { rewrite Hp, inject_Z_mult, <- Q2pow_Z, <- Qmult_assoc, <- Q2pow_add by lia.
    replace (- ez + ez) with 0 by lia. reflexivity. }
  assert (Hd1 : 1 <= Zpos (digits2_pos p)) by lia.
  assert (Hd2 : Zpos (digits2_pos p) <= 53 - ez).
  { apply digits2_pos_le. rewrite Hp.
    replace (53 - ez) with (53 + - ez) by lia. rewrite Z.pow_add_r by lia.
    apply Z.mul_lt_mono_pos_r; lia. }
  pose proof (binary_round_correct s p ez) as H. cbv zeta in H.
  destruct H as (v & e & Hf & Hr); [lia|lia|].
  assert (HE : ez + Zpos (digits2_pos p) - 53 <= 0) by lia.
  pose proof (rounded_exact _ _ _ _ z 0 Hr Hv HE) as Hvx.
  assert (Hzs : cond_Zopp s z <> 0) by (destruct s; simpl; lia).
  assert (Hzb : Z.abs (cond_Zopp s z) < 2 ^ 53) by (destruct s; simpl; lia).
  destruct (of_Z_float _ Hzs Hzb) as (e' & Hf' & _).
  replace (cond_Zopp s z <? 0) with s in Hf'
    by (destruct s; simpl; symmetry; [apply Z.ltb_lt | apply Z.ltb_ge]; lia).
  replace (Z.abs (cond_Zopp s z)) with z in Hf' by (destruct s; simpl; lia).
  apply (is_float_unique _ _ s v (inject_Z z) e e' Hf Hf').
  rewrite Hvx, Hv. change (Q2pow 0) with 1%Q. ring.
Qed.

Lemma of_Z_finite (z : Z) :
  z <> 0 -> Z.abs z < 2 ^ 53 ->
  exists (m : positive) (e : Z),
    of_Z z = S754_finite (z <? 0) m e
    /\ Zpos (digits2_pos m) = 53 /\ -52 <= e <= 0
    /\ Zpos m = Z.abs z * 2 ^ (- e).
Proof.
  intros Hz Hb. destruct (of_Z_float z Hz Hb) as (e & (m & Hx & Hd & Hv) & He).
  exists m, e. split; [exact Hx|]. split; [exact Hd|]. split; [exact He|].
  assert (Hq : (inject_Z (Zpos m) == inject_Z (Z.abs z * 2 ^ (- e)))%Q).
  { rewrite inject_Z_mult, <- Q2pow_Z by lia.
    apply (Qscale_eq_inv _ _ (Q2pow e)); [|apply Q2pow_pos].
    rewrite <- Hv, <- Qmult_assoc, <- Q2pow_add.
    replace (- e + e) with 0 by lia. change (Q2pow 0) with 1%Q. ring. }
  apply (proj1 (inject_Z_injective _ _)) in Hq. exact Hq.
Qed.

(** The sum of two integers is computed exactly when they and their sum
    have magnitudes below [2^53]. *)
Lemma add_of_Z_exact (a b : Z) :
  Z.abs a < 2 ^ 53 -> Z.abs b < 2 ^ 53 -> Z.abs (a + b) < 2 ^ 53 ->
  add (of_Z a) (of_Z b) = of_Z (a + b).
Proof.
  intros Ha Hb Hab.
  destruct (Z.eq_dec b 0) as [->|Hb0].
  { rewrite Z.add_0_r. destruct (Z.eq_dec a 0) as [->|Ha0]; [reflexivity|].
    destruct (of_Z_finite a Ha0 Ha) as (m & e & -> & _). reflexivity. }
  destruct (Z.eq_dec a 0) as [->|Ha0].
  { change (0 + b) with b.
    destruct (of_Z_finite b Hb0 Hb) as (m & e & -> & _). reflexivity. }
  destruct (of_Z_finite a Ha0 Ha) as (ma & ea & Ea & Hda & Hea & Hma).
  destruct (of_Z_finite b Hb0 Hb) as (mb & eb & Eb & Hdb & Heb & Hmb).
  rewrite Ea, Eb. unfold add, SFadd.
  set (ez := Z.min ea eb).
  pose proof (shl_align_fst ma ea ez ltac:(lia)) as A.
  pose proof (shl_align_fst mb eb ez ltac:(lia)) as B.
  set (pa := fst (shl_align ma ea ez)) in *.
  set (pb := fst (shl_align mb eb ez)) in *.
  assert (HA : cond_Zopp (a <? 0) (Zpos pa) = a * 2 ^ (- ez)).
  { rewrite A, Hma, <- Z.mul_assoc, <- Z.pow_add_r by lia.
    replace (- ea + (ea - ez)) with (- ez) by lia.
    destruct (Z.ltb_spec a 0); simpl; lia. }
  assert (HB : cond_Zopp (b <? 0) (Zpos pb) = b * 2 ^ (- ez)).
  { rewrite B, Hmb, <- Z.mul_assoc, <- Z.pow_add_r by lia.
    replace (- eb + (eb - ez)) with (- ez) by lia.
    destruct (Z.ltb_spec b 0); simpl; lia. }
  rewrite HA, HB, <- Z.mul_add_distr_r.
  assert (Hpow : 0 < 2 ^ (- ez)) by (apply Z.pow_pos_nonneg; lia).
  destruct (Z.eq_dec (a + b) 0) as [E0|N0].
  { rewrite E0. reflexivity. }
  destruct ((a + b) * 2 ^ (- ez)) as [|p|p] eqn:Ep; [nia| |];
    cbn [binary_normalize].
  - assert (0 < a + b) by nia.
    rewrite (binary_round_integer false p ez (a + b)); [reflexivity|lia|lia|lia].
  - assert (a + b < 0) by nia.
    rewrite (binary_round_integer true p ez (- (a + b))); [|lia|lia|lia].
    cbn [cond_Zopp]. rewrite Z.opp_involutive. reflexivity.
Qed.

Lemma number_sum_from (l : list Z) (acc : Z) :
  Z.abs acc + sum_list_Z Z.abs l < 2 ^ 53 ->
  fold_left (fun sum p => add sum (of_Z p)) l (of_Z acc)
  = of_Z (acc + sum_list_Z (fun p => p) l).
Proof.
  revert acc. induction l as [|p l IH]; intros acc Hb.
  - unfold sum_list_Z. simpl. rewrite Z.add_0_r. reflexivity.
  - unfold sum_list_Z in *. simpl in *.
    assert (0 <= fold_right (fun x acc => Z.abs x + acc) 0 l).
    { clear. induction l; simpl; lia. }
    rewrite add_of_Z_exact by lia. rewrite IH by lia. f_equal. lia.
Qed.

(** Below [2^53] in total magnitude, the running sum is the sum. *)
Lemma number_sum_exact (l : list Z) :
  sum_list_Z Z.abs l < 2 ^ 53 ->
  number_sum l = of_Z (sum_list_Z (fun p => p) l).
Proof.
  intros H. unfold number_sum. rewrite number_sum_from by (simpl; lia).
  reflexivity.
Qed.

(** ** The average of the points *)

Lemma avgPointsPerUser_nearest (totalPoints totalUsers : Z) :
  0 < totalUsers < 2 ^ 53 -> Z.abs totalPoints <= 2 ^ 45 ->
  exists a,
    avgPointsPerUser (of_Z totalPoints) totalUsers
    = JFixed (FxDec (totalPoints <? 0) a)
    /\ 0 <= a
    /\ 2 * Z.abs (a * totalUsers - 100 * Z.abs totalPoints) <= totalUsers.
Proof.
  intros HN HP. unfold avgPointsPerUser.
  replace (0 <? totalUsers) with true by (symmetry; apply Z.ltb_lt; lia).
  destruct (of_Z_pos_float totalUsers HN) as (eN & HfN & HeN).
  destruct (Z.eq_dec totalPoints 0) as [->|HP0].
  - destruct HfN as (m & -> & _). exists 0. split; [reflexivity|]. lia.
  - assert (Z.abs totalPoints < 2 ^ 53) as HP53.
    { assert (2 ^ 45 < 2 ^ 53) by (apply Z.pow_lt_mono_r; lia). lia. }
    destruct (of_Z_float totalPoints HP0 HP53) as (eP & HfP & HeP).
    destruct (div_float _ _ _ _ _ _ _ _ HfP HfN ltac:(lia) ltac:(lia))
      as (v & E & e & Hf & Hr).
    rewrite xorb_false_r in Hf.
    set (p := Z.abs totalPoints) in *. set (N := totalUsers) in *.
    pose proof (inject_Z_pos N ltac:(lia)) as QN.
    pose proof (inject_Z_pos p ltac:(lia)) as Qp.
    assert (Qp45 : (inject_Z p <= 35184372088832)%Q).
    { rewrite Zle_Qle in HP. exact HP. }
    assert (QN1 : (1 <= inject_Z N)%Q)
      by (change 1%Q with (inject_Z 1); rewrite <- Zle_Qle; lia).
    set (q := (inject_Z p / inject_Z N)%Q) in *.
    assert (Hq : (q * inject_Z N == inject_Z p)%Q) by (unfold q; field; lra).
    assert (Hq0 : (0 < q)%Q).
    { apply (Qscale_lt_inv _ _ (inject_Z N)); [|exact QN]. lra. }
    assert (Hq1 : (q <= inject_Z p)%Q).
    { apply (Qscale_le_inv _ _ (inject_Z N)); [|exact QN].
      assert (inject_Z p * 1 <= inject_Z p * inject_Z N)%Q; [|lra].
      apply Qmult_le_l; lra. }
    pose proof (rounded_rel _ _ _ _ Hr) as Hrel.
    apply Qabs_Qle_condition in Hrel.
    change (2 ^ 53)%positive with 9007199254740992%positive in Hrel.
    destruct (toFixed2_float _ _ _ _ Hf) as (a & -> & Ha).
    { change (inject_Z (10 ^ 21)) with 1000000000000000000000%Q. lra. }
    exists a. split; [reflexivity|].
    assert (Ha0 : 0 <= a).
    { assert (A : (inject_Z (-1) < inject_Z a)%Q)
        by (change (inject_Z (-1)) with (-1)%Q; lra).
      rewrite <- Zlt_Qlt in A. lia. }
    split; [exact Ha0|].
    (* the error of the division, scaled by the number of users *)
    assert (Hd : (- (q * (1 # 9007199254740992)) * inject_Z N
                  <= (v - q) * inject_Z N
                  <= q * (1 # 9007199254740992) * inject_Z N)%Q).
    { apply Qscale_between; [lra|exact QN]. }
    assert (Hn : (- (1 # 2) * inject_Z N <= (inject_Z a - 100 * v) * inject_Z N
                  <= (1 # 2) * inject_Z N)%Q).
    { apply Qscale_between; [lra|exact QN]. }
    assert (A : (inject_Z (2 * (a * N - 100 * p)) < inject_Z (N + 1))%Q).
    { unfold Z.sub. rewrite !inject_Z_mult, !inject_Z_plus, inject_Z_opp, !inject_Z_mult.
      change (inject_Z 2) with 2%Q. change (inject_Z 100) with 100%Q.
      change (inject_Z 1) with 1%Q. lra. }
    assert (B : (inject_Z (2 * (100 * p - a * N)) < inject_Z (N + 1))%Q).
    { unfold Z.sub. rewrite !inject_Z_mult, !inject_Z_plus, inject_Z_opp, !inject_Z_mult.
      change (inject_Z 2) with 2%Q. change (inject_Z 100) with 100%Q.
      change (inject_Z 1) with 1%Q. lra. }
    rewrite <- Zlt_Qlt in A, B. lia.
Qed.

(** * The numbers of the overview and of the submission analytics *)

Lemma reduce_sum_sum_list {A} (f : A -> Z) (l : list A) :
  reduce_sum f l = sum_list_Z f l.
Proof.
  unfold reduce_sum.
  assert (H : forall acc, fold_left (fun sum x => sum + f x) l acc
                          = acc + sum_list_Z f l).
  { induction l as [|x l IH]; intros acc; simpl; [unfold sum_list_Z; simpl; lia|].
    rewrite IH. unfold sum_list_Z. simpl. lia. }
  rewrite H. lia.
Qed.

Lemma countDocuments_all {A} (l : list A) :
  countDocuments (fun _ => true) l = Z.of_nat (length l).
Proof.
  unfold countDocuments. f_equal. induction l as [|x l IH]; simpl; congruence.
Qed.

Lemma overview_totalPoints (now : Z) (users : list User) (challenges : list Challenge) :
  ov_totalPoints (overview now users challenges)
  = number_sum (List.map points users).
Proof.
  cbn [overview ov_totalPoints]. unfold reduce_add, number_sum.
  generalize (of_Z 0). induction users as [|u users IH]; intros acc;
    [reflexivity|].
  simpl. rewrite or_0_id. apply IH.
Qed.

Lemma overview_avg (now : Z) (users : list User) (challenges : list Challenge) :
  ov_avgPerUser (overview now users challenges)
  = avgPointsPerUser (number_sum (List.map points users))
      (Z.of_nat (length users)).
Proof.
  rewrite <- (overview_totalPoints now users challenges).
  cbn [overview ov_avgPerUser ov_totalPoints]. rewrite countDocuments_all.
  reflexivity.
Qed.

Lemma sum_list_Z_abs {A} (f : A -> Z) (l : list A) :
  Z.abs (sum_list_Z f l) <= sum_list_Z (fun x => Z.abs (f x)) l.
Proof.
  unfold sum_list_Z. induction l as [|x l IH]; simpl; lia.
Qed.

Lemma points_sum_exact {A} (f : A -> Z) (l : list A) :
  sum_list_Z (fun x => Z.abs (f x)) l < 2 ^ 53 ->
  number_sum (List.map f l) = of_Z (sum_list_Z f l).
Proof.
  intros H. rewrite number_sum_exact by (rewrite sum_list_Z_map; exact H).
  rewrite sum_list_Z_map. reflexivity.
Qed.

(** C5. With fewer than [2^53] users whose points add up, in magnitude,
    to at most [2^45], the reduction that computes [totalPoints] on
    Numbers is exact at every step; [avgPerUser] of [/overview] is then
    the Number [0] when there is no user, and otherwise the string, with
    the sign of the total, of a number of hundredths [a] nearest to
    [|totalPoints| / totalUsers] (off by at most half a hundredth). In
    both cases it is neither a [NaN] Number nor the string of a Number
    that is not finite. *)
Theorem overview_avgPerUser_guarded
  (now : Z) (users : list User) (challenges : list Challenge) :
  let totalUsers := Z.of_nat (length users) in
  let totalPoints := sum_list_Z points users in
  totalUsers < 2 ^ 53 ->
  sum_list_Z (fun u => Z.abs (points u)) users <= 2 ^ 45 ->
  let avg := ov_avgPerUser (overview now users challenges) in
  ov_users_total (overview now users challenges) = totalUsers
  /\ ov_totalPoints (overview now users challenges) = of_Z totalPoints
  /\ (totalUsers = 0 -> avg = JNum (S754_zero false))
  /\ (0 < totalUsers ->
       exists a,
         avg = JFixed (FxDec (totalPoints <? 0) a)
         /\ 0 <= a
         /\ 2 * Z.abs (a * totalUsers - 100 * Z.abs totalPoints) <= totalUsers)
  /\ avg <> JNum S754_nan
  /\ (forall x, avg <> JFixed (FxToString x)).
Proof.
  intros totalUsers totalPoints HN HS avg.
  assert (H45 : 2 ^ 45 < 2 ^ 53) by (apply Z.pow_lt_mono_r; lia).
  assert (HP : Z.abs totalPoints <= 2 ^ 45).
  { pose proof (sum_list_Z_abs points users). unfold totalPoints. lia. }
  assert (Hsum : number_sum (List.map points users) = of_Z totalPoints)
    by (apply points_sum_exact; lia).
  assert (Havg : avg = avgPointsPerUser (of_Z totalPoints) totalUsers).
  { unfold avg. rewrite overview_avg, Hsum. reflexivity. }
  assert (Hcases : (totalUsers = 0 /\ avg = JNum (S754_zero false))
                   \/ (0 < totalUsers
                       /\ exists a,
                            avg = JFixed (FxDec (totalPoints <? 0) a)
                            /\ 0 <= a
                            /\ 2 * Z.abs (a * totalUsers - 100 * Z.abs totalPoints)
                               <= totalUsers)).
  { destruct (Z.eq_dec totalUsers 0) as [E|NE].
    - left. split; [exact E|]. rewrite Havg, E. reflexivity.
    - right. assert (0 < totalUsers) as Hpos by (unfold totalUsers in *; lia).
      split; [exact Hpos|]. rewrite Havg.
      apply avgPointsPerUser_nearest; [lia|exact HP]. }
  split; [simpl; apply countDocuments_all|].
  split; [rewrite overview_totalPoints; exact Hsum|].
  destruct Hcases as [[E ->]|[Hpos (a & -> & Ha)]].
  - split; [reflexivity|]. split; [lia|]. split; discriminate.
  - split; [lia|]. split; [intros _; exists a; split; [reflexivity|exact Ha]|].
    split; discriminate.
Qed.

Lemma overview_avgPerUser_guarded_witness :
  let users := sample_leaderboard in
  let avg := ov_avgPerUser (overview 1793491200000 users []) in
  ov_users_total (overview 1793491200000 users []) = 3
  /\ ov_totalPoints (overview 1793491200000 users []) = of_Z 350
  /\ (3 = 0 -> avg = JNum (S754_zero false))
  /\ (0 < 3 ->
       exists a,
         avg = JFixed (FxDec (350 <? 0) a)
         /\ 0 <= a
         /\ 2 * Z.abs (a * 3 - 100 * Z.abs 350) <= 3)
  /\ avg <> JNum S754_nan
  /\ (forall x, avg <> JFixed (FxToString x)).
Proof.
  apply (overview_avgPerUser_guarded 1793491200000 sample_leaderboard []).
  - vm_compute. reflexivity.
  - vm_compute. discriminate.
Defined.

(** ** The points of a difficulty *)

(** C2. For every difficulty label that does not name a member of
    [Object.prototype], [byDifficulty] has no entry when no challenge
    carries the label, and otherwise an entry whose [count] is the number
    of challenges with that difficulty and whose [avgPoints] is the
    running sum of their points, added as Numbers in the order of the
    collection and never divided by the count; it is their exact sum
    when the points add up, in magnitude, to less than [2^53]. The two
    easy challenges of 100 and 200 points give 300. A label that names
    such a member has no entry, whatever carries it: the challenge of
    difficulty ["__proto__"] in [prototype_challenges] is not counted. *)
Theorem byDifficulty_count_and_point_sum (challenges : list Challenge) (d : string) :
  let labelled := List.filter (in_difficulty d) challenges in
  byDifficulty (challenge_stats challenges) !! d
  = (if inherited d then None
     else match labelled with
          | [] => None
          | l => Some {| diff_count := Z.of_nat (length l);
                         avgPoints := number_sum (List.map ch_points l) |}
          end)
  /\ (sum_list_Z (fun c => Z.abs (ch_points c)) labelled < 2 ^ 53 ->
      number_sum (List.map ch_points labelled)
      = of_Z (sum_list_Z ch_points labelled))
  /\ byDifficulty (challenge_stats sample_challenges) !! "easy"%string
     = Some {| diff_count := 2; avgPoints := of_Z 300 |}
  /\ (exists c, In c prototype_challenges /\ difficulty c = "__proto__"%string)
  /\ byDifficulty (challenge_stats prototype_challenges) !! "__proto__"%string
     = None.
Proof.
  cbv zeta. split.
  { cbn [challenge_stats byDifficulty]. rewrite byDifficulty_fold.
    unfold difficulty_entry. destruct (inherited d); [reflexivity|].
    destruct (List.filter (in_difficulty d) challenges); reflexivity. }
  split; [apply points_sum_exact|].
  split; [vm_compute; reflexivity|].
  split; [|vm_compute; reflexivity].
  exists (sample_challenge "shadow" "constructor" "__proto__" 200 0).
  split; [right; left; reflexivity|reflexivity].
Qed.

Lemma user_step_totals (users : list User) (acc : UserAcc) :
  acc_total (fold_left user_step users acc)
  = acc_total acc + sum_list_Z solved_count users
  /\ acc_successful (fold_left user_step users acc)
     = acc_successful acc + sum_list_Z solved_count users.
Proof.
  revert acc. induction users as [|u users IH]; intros acc; simpl.
  - unfold sum_list_Z. simpl. lia.
  - destruct (IH (user_step acc u)) as [-> ->]. unfold sum_list_Z, solved_count.
    simpl. lia.
Qed.

Lemma solved_count_nonneg (users : list User) : 0 <= sum_list_Z solved_count users.
Proof.
  induction users as [|u users IH]; [unfold sum_list_Z; simpl; lia|].
  unfold sum_list_Z in *. simpl. unfold solved_count at 1, length_or_0.
  destruct (solvedChallenges u); lia.
Qed.

Lemma submissions_total (users : list User) (challenges : list Challenge) :
  totalSubmissions (sd_overview (submissions users challenges))
  = sum_list_Z solved_count users
  /\ successfulSubmissions (sd_overview (submissions users challenges))
     = sum_list_Z solved_count users.
Proof.
  simpl.
  destruct (user_step_totals users
              {| acc_total := 0; acc_successful := 0; acc_byUser := [] |})
    as [-> ->]. simpl. lia.
Qed.

Lemma number_eqb_eq (x y : number) : number_eqb x y = true -> x = y.
Proof.
  destruct x as [a|a| |a m e], y as [b|b| |b m' e']; simpl; try discriminate.
  - intros H. apply Bool.eqb_prop in H. congruence.
  - intros H. apply Bool.eqb_prop in H. congruence.
  - reflexivity.
  - intros H. apply andb_prop in H. destruct H as [H He].
    apply andb_prop in H. destruct H as [Ha Hm].
    apply Bool.eqb_prop in Ha. apply Pos.eqb_eq in Hm. apply Z.eqb_eq in He.
    congruence.
Qed.

(** Every printed success rate from 76.92 to 100.00 and its complement
    add up, as Numbers, to exactly 100: checked on each of them. *)
Lemma rates_add_up_all (s : Z) :
  7692 <= s <= 10000 ->
  add (fixed2_to_number (FxDec false s))
    (fixed2_to_number (FxDec false (10000 - s))) = of_Z 100.
Proof.
  intros Hs. apply number_eqb_eq. change (rates_add_up s = true).
  assert (Hall : forallb rates_add_up
                   (List.map (fun i => 7692 + Z.of_nat i) (List.seq 0 2309))
                 = true) by (vm_compute; reflexivity).
  rewrite forallb_forall in Hall. apply Hall.
  apply in_map_iff. exists (Z.to_nat (s - 7692)). split; [lia|].
  apply in_seq. lia.
Qed.

(** The rates for a count of successful submissions below [2^36]. *)
Lemma rates_complementary (n : Z) :
  0 <= n < 2 ^ 36 ->
  exists s,
    to_number (success_rate n) = fixed2_to_number (FxDec false s)
    /\ failure_rate n = FxDec false (10000 - s)
    /\ add (fixed2_to_number (FxDec false s))
         (fixed2_to_number (FxDec false (10000 - s))) = of_Z 100
    /\ (n = 0 -> success_rate n = JNum (S754_zero false) /\ s = 0)
    /\ (0 < n -> success_rate n = JFixed (FxDec false s)
                 /\ nearest_percent n (n + 3 * n / 10) s).
Proof.
  intros Hn. destruct (Z.eq_dec n 0) as [->|Hne].
  - exists 0. split; [reflexivity|]. split; [reflexivity|].
    split; [reflexivity|]. split; [intros _; split; reflexivity | lia].
  - destruct (success_rate_nearest n ltac:(lia)) as (s & Hs & Hp & Hr).
    exists s. split; [rewrite Hs; reflexivity|]. split.
    + unfold failure_rate. rewrite Hs. cbn [to_number].
      apply failure_rate_complement, Hr.
    + split; [apply rates_add_up_all, Hr|].
      split; [lia|]. intros _. split; assumption.
Qed.

(** C1. With fewer than [2^36] successful submissions [n] (the sum of
    the lengths of the users' solved lists), [/submissions] reports
    [estimatedFailedSubmissions] as the Number of [floor (3 n / 10)] and
    [estimatedTotalAttempts] as the Number of their sum with [n].
    [successRate] is the Number read from a decimal of [s] hundredths and
    [failureRate] from one of [10000 - s] hundredths, so the two printed
    rates add up to 100, and so do the two Numbers when added; [s] is [0]
    when [n = 0], and otherwise [s]
    hundredths is a two-decimal number nearest to
    [100 n / estimatedTotalAttempts]. For [n = 10] the values are 3, 13,
    76.92 and 23.08. *)
Theorem submission_estimates (users : list User) (challenges : list Challenge) :
  let ov := sd_overview (submissions users challenges) in
  let n := totalSubmissions ov in
  n < 2 ^ 36 ->
  n = sum_list_Z solved_count users
  /\ successfulSubmissions ov = n
  /\ estimatedFailedSubmissions ov = of_Z (3 * n / 10)
  /\ estimatedTotalAttempts ov = of_Z (n + 3 * n / 10)
  /\ (exists s f,
        successRate ov = fixed2_to_number (FxDec false s)
        /\ failureRate ov = fixed2_to_number (FxDec false f)
        /\ failure_rate n = FxDec false f
        /\ s + f = 10000
        /\ add (successRate ov) (failureRate ov) = of_Z 100
        /\ (n = 0 -> success_rate n = JNum (S754_zero false) /\ s = 0)
        /\ (0 < n -> success_rate n = JFixed (FxDec false s)
                     /\ nearest_percent n (n + 3 * n / 10) s))
  /\ (n = 10 ->
      estimatedFailedSubmissions ov = of_Z 3
      /\ estimatedTotalAttempts ov = of_Z 13
      /\ success_rate n = JFixed (FxDec false 7692)
      /\ fixed2_string (FxDec false 7692) = Some "76.92"%string
      /\ failure_rate n = FxDec false 2308
      /\ fixed2_string (FxDec false 2308) = Some "23.08"%string).
Proof.
  intros ov n Hlt.
  destruct (submissions_total users challenges) as [Htot Hsucc].
  fold ov in Htot, Hsucc. fold n in Htot.
  pose proof (solved_count_nonneg users) as Hpos. rewrite <- Htot in Hpos.
  assert (Hov : ov = submission_overview n (successfulSubmissions ov)) by reflexivity.
  split; [exact Htot|]. split; [congruence|].
  assert (Hfail : estimatedFailedSubmissions ov = of_Z (3 * n / 10)).
  { rewrite Hov. cbn [submission_overview estimatedFailedSubmissions].
    destruct (Z.eq_dec n 0) as [->|Hne]; [reflexivity|].
    apply estimate_failed_exact. lia. }
  assert (Hatt : estimatedTotalAttempts ov = of_Z (n + 3 * n / 10)).
  { rewrite Hov. cbn [submission_overview estimatedTotalAttempts].
    destruct (Z.eq_dec n 0) as [->|Hne]; [reflexivity|].
    apply estimate_attempts_exact. lia. }
  split; [exact Hfail|]. split; [exact Hatt|]. split.
  - destruct (rates_complementary n ltac:(lia)) as (s & Hs & Hf & Hadd & H0 & H1).
    exists s, (10000 - s). rewrite Hov.
    cbn [submission_overview successRate failureRate].
    split; [exact Hs|]. split; [rewrite Hf; reflexivity|].
    split; [exact Hf|]. split; [lia|].
    split; [rewrite Hs, Hf; exact Hadd|]. split; assumption.
  - intros E. rewrite Hfail, Hatt, E. repeat split; reflexivity.
Qed.

Lemma submission_estimates_witness :
  let ov := sd_overview (submissions sample_solvers []) in
  let n := totalSubmissions ov in
  n = sum_list_Z solved_count sample_solvers
  /\ successfulSubmissions ov = n
  /\ estimatedFailedSubmissions ov = of_Z (3 * n / 10)
  /\ estimatedTotalAttempts ov = of_Z (n + 3 * n / 10)
  /\ (exists s f,
        successRate ov = fixed2_to_number (FxDec false s)
        /\ failureRate ov = fixed2_to_number (FxDec false f)
        /\ failure_rate n = FxDec false f
        /\ s + f = 10000
        /\ add (successRate ov) (failureRate ov) = of_Z 100
        /\ (n = 0 -> success_rate n = JNum (S754_zero false) /\ s = 0)
        /\ (0 < n -> success_rate n = JFixed (FxDec false s)
                     /\ nearest_percent n (n + 3 * n / 10) s))
  /\ (n = 10 ->
      estimatedFailedSubmissions ov = of_Z 3
      /\ estimatedTotalAttempts ov = of_Z 13
      /\ success_rate n = JFixed (FxDec false 7692)
      /\ fixed2_string (FxDec false 7692) = Some "76.92"%string
      /\ failure_rate n = FxDec false 2308
      /\ fixed2_string (FxDec false 2308) = Some "23.08"%string).
Proof.
  apply (submission_estimates sample_solvers []).
  vm_compute. reflexivity.
Defined.

(** * Further properties of the handlers *)

(** ** Counts: bounds and nested windows *)

Lemma countDocuments_bounds {A} (p : A -> bool) (l : list A) :
  0 <= countDocuments p l <= Z.of_nat (length l).
Proof. unfold countDocuments. pose proof (List.filter_length_le p l). lia. Qed.

Lemma countDocuments_negb {A} (p : A -> bool) (l : list A) :
  countDocuments p l + countDocuments (fun x => negb (p x)) l
  = Z.of_nat (length l).
Proof.
  unfold countDocuments. induction l as [|x l IH]; simpl; [reflexivity|].
  destruct (p x); simpl; lia.
Qed.

Lemma countDocuments_le {A} (p q : A -> bool) (l : list A) :
  (forall x, p x = true -> q x = true) ->
  countDocuments p l <= countDocuments q l.
Proof.
  intros Hpq. unfold countDocuments. induction l as [|x l IH]; simpl; [lia|].
  destruct (p x) eqn:Hp.
  - rewrite (Hpq x Hp). simpl. lia.
  - destruct (q x); simpl; lia.
Qed.

Lemma created_gte_mono (a b : Z) (l : list User) :
  a <= b -> countDocuments (created_gte b) l <= countDocuments (created_gte a) l.
Proof.
  intros Hab. apply countDocuments_le. intros u. unfold created_gte. lia.
Qed.

Lemma countDocuments_zero {A} (p : A -> bool) (l : list A) :
  countDocuments p l = 0 <-> List.filter p l = [].
Proof.
  unfold countDocuments. destruct (List.filter p l); simpl; split;
    intros H; try reflexivity; try discriminate; lia.
Qed.

(** X1. In [/overview], [challenges.hidden] (the total minus the visible
    ones) is the number of challenges whose [isVisible] is not [true];
    visible and hidden add up to the total, which is the size of the
    collection, and [hidden] is never negative. *)
Theorem overview_hidden_challenges
  (now : Z) (users : list User) (challenges : list Challenge) :
  let ov := overview now users challenges in
  ov_challenges_hidden ov
  = countDocuments (fun c => negb (isVisible c)) challenges
  /\ ov_challenges_visible ov + ov_challenges_hidden ov = ov_challenges_total ov
  /\ 0 <= ov_challenges_hidden ov <= ov_challenges_total ov
  /\ ov_challenges_total ov = Z.of_nat (length challenges).
Proof.
  cbn [overview ov_challenges_hidden ov_challenges_visible ov_challenges_total].
  rewrite countDocuments_all.
  pose proof (countDocuments_negb isVisible challenges) as H.
  pose proof (countDocuments_bounds isVisible challenges) as B.
  repeat split; lia.
Qed.

(** X2. In [/overview], [users.total] is the size of the collection and
    each of [active], [admins] and [blocked] lies between 0 and it.
    [active] counts the users created at most 30 days before the clock,
    those dated in the future included, whatever they solved and whether
    or not they are blocked; with the collection fixed it can only
    shrink as the clock advances. *)
Theorem overview_user_counts
  (now : Z) (users : list User) (challenges : list Challenge) :
  let ov := overview now users challenges in
  ov_users_total ov = Z.of_nat (length users)
  /\ 0 <= ov_users_active ov <= ov_users_total ov
  /\ 0 <= ov_users_admins ov <= ov_users_total ov
  /\ 0 <= ov_users_blocked ov <= ov_users_total ov
  /\ ov_users_active ov
     = countDocuments (fun u => now - createdAt u <=? 30 * ms_per_day) users
  /\ (forall now', now <= now' ->
        ov_users_active (overview now' users challenges) <= ov_users_active ov).
Proof.
  cbn [overview ov_users_total ov_users_active ov_users_admins ov_users_blocked].
  rewrite countDocuments_all.
  pose proof (countDocuments_bounds
                (created_gte (now - 30 * ms_per_day)) users).
  pose proof (countDocuments_bounds
                (fun u => String.eqb (role u) "admin") users).
  pose proof (countDocuments_bounds isBlocked users).
  repeat split; try lia.
  - apply Z.le_antisymm; apply countDocuments_le; intros u;
      unfold created_gte; lia.
  - intros now' Hn. apply created_gte_mono. lia.
Qed.

(** X3. In [/traffic] the windows are nested: [last7Days] never exceeds
    [last30Days], and [today] exceeds neither as soon as the server's
    midnight lies inside the window. [dailyBreakdown] is the empty
    object exactly when [last30Days] is 0. *)
Theorem traffic_windows_nested (now today : Z) (all_users : list User) :
  let t := traffic now today all_users in
  0 <= last7Days t <= last30Days t
  /\ last30Days t <= Z.of_nat (length all_users)
  /\ 0 <= today_count t
  /\ (now - 7 * ms_per_day <= today -> today_count t <= last7Days t)
  /\ (now - 30 * ms_per_day <= today -> today_count t <= last30Days t)
  /\ (dailyBreakdown t = ∅ <-> last30Days t = 0).
Proof.
  cbn [traffic last30Days last7Days today_count dailyBreakdown].
  pose proof (countDocuments_bounds
                (created_gte (now - 7 * ms_per_day)) all_users).
  pose proof (countDocuments_bounds
                (created_gte (now - 30 * ms_per_day)) all_users).
  pose proof (countDocuments_bounds (created_gte today) all_users).
  assert (now - 30 * ms_per_day <= now - 7 * ms_per_day)
    by (unfold ms_per_day; lia).
  repeat split; try lia.
  - apply created_gte_mono; assumption.
  - intros Ht. apply created_gte_mono; assumption.
  - intros Ht. apply created_gte_mono; assumption.
  - intros He. apply countDocuments_zero.
    destruct (List.filter _ all_users) as [|u l] eqn:Hf; [reflexivity|].
    exfalso.
    pose proof (usersPerDay_lookup (u :: l) (day_key u)) as Hl.
    rewrite He, lookup_empty in Hl.
    destruct (Z.eqb_spec (day_count (day_key u) (u :: l)) 0) as [Hz|];
      [|discriminate].
    unfold day_count in Hz. simpl in Hz. unfold on_day in Hz at 1.
    rewrite String.eqb_refl in Hz. simpl in Hz. lia.
  - intros Hz. apply countDocuments_zero in Hz. rewrite Hz. reflexivity.
Qed.

(** ** Sums and filters under maps and permutations *)

Lemma sum_list_Z_perm {A} (f : A -> Z) (l l' : list A) :
  Permutation l l' -> sum_list_Z f l = sum_list_Z f l'.
Proof.
  unfold sum_list_Z. induction 1; simpl; lia.
Qed.

Lemma sum_list_Z_filter_pos {A} (f : A -> Z) (l : list A) :
  (forall x, 0 <= f x) ->
  sum_list_Z f (List.filter (fun x => 0 <? f x) l) = sum_list_Z f l.
Proof.
  intros Hf. unfold sum_list_Z. induction l as [|x l IH]; simpl; [reflexivity|].
  destruct (Z.ltb_spec 0 (f x)); simpl; rewrite IH; [reflexivity|].
  specialize (Hf x). lia.
Qed.

Lemma filter_perm {A} (p : A -> bool) (l l' : list A) :
  Permutation l l' -> Permutation (List.filter p l) (List.filter p l').
Proof.
  induction 1 as [|x l l' _ IH|x y l|l l' l'' _ IH1 _ IH2]; simpl.
  - constructor.
  - destruct (p x); [constructor|]; assumption.
  - destruct (p x), (p y); try reflexivity. constructor.
  - etransitivity; eassumption.
Qed.

Lemma countDocuments_perm {A} (p : A -> bool) (l l' : list A) :
  Permutation l l' -> countDocuments p l = countDocuments p l'.
Proof.
  intros H. unfold countDocuments. f_equal.
  apply Permutation_length, filter_perm, H.
Qed.

Lemma solves_nonneg (c : Challenge) : 0 <= solves c.
Proof. unfold solves, length_or_0. destruct (solvedBy c); lia. Qed.

Lemma solved_count_pos (u : User) : 0 <= solved_count u.
Proof. unfold solved_count, length_or_0. destruct (solvedChallenges u); lia. Qed.

(** ** The lists of the submission analytics, before they are sorted *)

Lemma acc_byUser_fold (users : list User) (acc : UserAcc) :
  acc_byUser (fold_left user_step users acc)
  = acc_byUser acc
    ++ List.map user_submissions
         (List.filter (fun u => 0 <? solved_count u) users).
Proof.
  revert acc. induction users as [|u users IH]; intros acc; simpl.
  - rewrite app_nil_r. reflexivity.
  - rewrite IH. unfold solved_count. simpl.
    destruct (0 <? length_or_0 (solvedChallenges u)); simpl;
      [rewrite <- app_assoc|]; reflexivity.
Qed.

Lemma challenge_step_fold (cs : list Challenge) (acc : list ChallengeSubmissions) :
  fold_left challenge_step cs acc
  = acc ++ List.map challenge_submissions
             (List.filter (fun c => 0 <? solves c) cs).
Proof.
  revert acc. induction cs as [|c cs IH]; intros acc; simpl.
  - rewrite app_nil_r. reflexivity.
  - rewrite IH. unfold challenge_step.
    destruct (0 <? solves c); simpl; [rewrite <- app_assoc|]; reflexivity.
Qed.

Lemma submissionsByUser_sorted_filter (users : list User) (challenges : list Challenge) :
  submissionsByUser (submissions users challenges)
  = js_sort (fun a b => us_submissions b - us_submissions a)
      (List.map user_submissions
         (List.filter (fun u => 0 <? solved_count u) users)).
Proof.
  cbn [submissions submissionsByUser]. rewrite acc_byUser_fold. reflexivity.
Qed.

Lemma submissionsByChallenge_sorted_filter
  (users : list User) (challenges : list Challenge) :
  submissionsByChallenge (submissions users challenges)
  = js_sort (fun a b => cs_submissions b - cs_submissions a)
      (List.map challenge_submissions
         (List.filter (fun c => 0 <? solves c) challenges)).
Proof.
  cbn [submissions submissionsByChallenge]. rewrite challenge_step_fold.
  reflexivity.
Qed.

Lemma filter_map_comm {A B} (f : A -> B) (p : B -> bool) (l : list A) :
  List.filter p (List.map f l) = List.map f (List.filter (fun x => p (f x)) l).
Proof.
  induction l as [|x l IH]; simpl; [reflexivity|].
  destruct (p (f x)); simpl; rewrite IH; reflexivity.
Qed.

Lemma sum_list_Z_filter_le {A} (f : A -> Z) (p : A -> bool) (l : list A) :
  (forall x, 0 <= f x) -> sum_list_Z f (List.filter p l) <= sum_list_Z f l.
Proof.
  intros Hf. unfold sum_list_Z. induction l as [|x l IH]; simpl; [lia|].
  specialize (Hf x). destruct (p x); simpl; lia.
Qed.




(** ** The order in which the queries return the documents *)

Lemma day_count_perm (k : string) (l l' : list User) :
  Permutation l l' -> day_count k l = day_count k l'.
Proof.
  intros H. unfold day_count. f_equal. apply Permutation_length, filter_perm, H.
Qed.

Lemma usersPerDay_perm (l l' : list User) :
  Permutation l l' -> usersPerDay l = usersPerDay l'.
Proof.
  intros H. apply map_eq. intros k.
  rewrite !usersPerDay_lookup, (day_count_perm k l l' H). reflexivity.
Qed.

Lemma count_rows_perm (p : EngagementRow -> bool) (l l' : list EngagementRow) :
  Permutation l l' -> count_rows p l = count_rows p l'.
Proof.
  intros H. unfold count_rows. f_equal. apply Permutation_length, filter_perm, H.
Qed.

(** X5. The find queries of the handlers ask for no order (or, in
    [/user-engagement], one that leaves ties open). As long as the
    points of the users add up, in magnitude, to less than [2^53], so
    that the additions of [totalPoints] do not round, the numbers of the
    responses do not depend on the order in which the documents come:
    for two orders of the same users and challenges, [/overview] and
    [/traffic] answer the same, and so do the summary of
    [/user-engagement] and the overview of [/submissions]. *)
Theorem counts_ignore_order
  (now today : Z) (users users' : list User)
  (challenges challenges' : list Challenge) :
  Permutation users users' -> Permutation challenges challenges' ->
  sum_list_Z (fun u => Z.abs (points u)) users < 2 ^ 53 ->
  overview now users challenges = overview now users' challenges'
  /\ traffic now today users = traffic now today users'
  /\ fst (user_engagement now users) = fst (user_engagement now users')
  /\ sd_overview (submissions users challenges)
     = sd_overview (submissions users' challenges').
Proof.
  intros Hu Hc Hb. repeat split.
  - assert (E : reduce_add (fun user => of_Z (or_0 (points user))) users
                = reduce_add (fun user => of_Z (or_0 (points user))) users').
    { change (ov_totalPoints (overview now users [])
              = ov_totalPoints (overview now users' [])).
      rewrite !overview_totalPoints.
      rewrite !points_sum_exact
        by (rewrite <- ?(sum_list_Z_perm _ _ _ Hu); exact Hb).
      rewrite (sum_list_Z_perm points _ _ Hu). reflexivity. }
    unfold overview. cbv zeta. rewrite E.
    rewrite !reduce_sum_sum_list.
    rewrite (countDocuments_perm (fun _ => true) _ _ Hu).
    rewrite (countDocuments_perm (created_gte (now - 30 * ms_per_day)) _ _ Hu).
    rewrite (countDocuments_perm (fun u => String.eqb (role u) "admin") _ _ Hu).
    rewrite (countDocuments_perm isBlocked _ _ Hu).
    rewrite (countDocuments_perm (fun _ => true) _ _ Hc).
    rewrite (countDocuments_perm isVisible _ _ Hc).
    rewrite (sum_list_Z_perm (fun user => length_or_0 (solvedChallenges user)) _ _ Hu).
    reflexivity.
  - unfold traffic. cbv zeta.
    rewrite (countDocuments_perm (created_gte (now - 30 * ms_per_day)) _ _ Hu).
    rewrite (countDocuments_perm (created_gte (now - 7 * ms_per_day)) _ _ Hu).
    rewrite (countDocuments_perm (created_gte today) _ _ Hu).
    rewrite (usersPerDay_perm _ _
               (filter_perm (created_gte (now - 30 * ms_per_day)) _ _ Hu)).
    reflexivity.
  - cbn [user_engagement fst]. unfold engagement_summary.
    assert (Hr : Permutation (List.map (engagement_row now) users)
                   (List.map (engagement_row now) users'))
      by (apply Permutation_map, Hu).
    rewrite (count_rows_perm is_high _ _ Hr), (count_rows_perm is_medium _ _ Hr),
      (count_rows_perm is_low _ _ Hr), (count_rows_perm is_inactive _ _ Hr).
    reflexivity.
  - cbn [submissions sd_overview].
    pose proof (user_step_totals users
                  {| acc_total := 0; acc_successful := 0; acc_byUser := [] |})
      as [-> ->].
    pose proof (user_step_totals users'
                  {| acc_total := 0; acc_successful := 0; acc_byUser := [] |})
      as [-> ->].
    rewrite (sum_list_Z_perm solved_count _ _ Hu). reflexivity.
Qed.

Lemma counts_ignore_order_witness :
  overview 1793491200000 sample_users sample_challenges
  = overview 1793491200000 (rev sample_users) (rev sample_challenges)
  /\ traffic 1793491200000 1793491200000 sample_users
     = traffic 1793491200000 1793491200000 (rev sample_users)
  /\ fst (user_engagement 1793491200000 sample_users)
     = fst (user_engagement 1793491200000 (rev sample_users))
  /\ sd_overview (submissions sample_users sample_challenges)
     = sd_overview (submissions (rev sample_users) (rev sample_challenges)).
Proof.
  apply (counts_ignore_order 1793491200000 1793491200000
           sample_users (rev sample_users)
           sample_challenges (rev sample_challenges));
    [apply Permutation_rev | apply Permutation_rev | vm_compute; reflexivity].
Defined.

(** *** Sorted lists with the same elements *)

Lemma sorted_perm_eq {A} (R : A -> A -> Prop) (l1 l2 : list A) :
  (forall a b, R a b -> R b a -> a = b) ->
  StronglySorted R l1 -> StronglySorted R l2 -> Permutation l1 l2 -> l1 = l2.
Proof.
  intros Hanti. revert l2. induction l1 as [|x l1 IH]; intros l2 H1 H2 HP.
  - apply Permutation_nil in HP. congruence.
  - destruct l2 as [|y l2].
    { symmetry in HP. apply Permutation_nil in HP. discriminate. }
    apply StronglySorted_inv in H1 as [H1 F1].
    apply StronglySorted_inv in H2 as [H2 F2].
    assert (x = y) as <-.
    { assert (Hx : In x (y :: l2))
        by (eapply Permutation_in; [exact HP | left; reflexivity]).
      assert (Hy : In y (x :: l1))
        by (eapply Permutation_in; [symmetry; exact HP | left; reflexivity]).
      destruct Hx as [->|Hx]; [reflexivity|].
      destruct Hy as [->|Hy]; [reflexivity|].
      apply Hanti.
      - exact (proj1 (List.Forall_forall _ _) F1 y Hy).
      - exact (proj1 (List.Forall_forall _ _) F2 x Hx). }
    f_equal. apply IH; [assumption..|].
    eapply Permutation_cons_inv. exact HP.
Qed.

Lemma StronglySorted_map {A B} (f : A -> B) (R : B -> B -> Prop) (l : list A) :
  StronglySorted (fun a b => R (f a) (f b)) l -> StronglySorted R (List.map f l).
Proof.
  induction 1 as [|x l _ IH F]; simpl; constructor; [assumption|].
  apply List.Forall_forall. intros b Hb. apply in_map_iff in Hb as (a & <- & Ha).
  exact (proj1 (List.Forall_forall _ _) F a Ha).
Qed.

Lemma category_entry_perm (k : string) (cs cs' : list Challenge) :
  Permutation cs cs' -> category_entry k cs = category_entry k cs'.
Proof.
  intros H. unfold category_entry. destruct (inherited k); [reflexivity|].
  pose proof (filter_perm (in_category k) _ _ H) as HP.
  pose proof (Permutation_length HP) as HL.
  pose proof (sum_list_Z_perm solves _ _ HP) as HS.
  destruct (List.filter (in_category k) cs), (List.filter (in_category k) cs');
    try discriminate; [reflexivity|].
  rewrite HL, HS. reflexivity.
Qed.

Lemma difficulty_entry_perm (k : string) (cs cs' : list Challenge) :
  Permutation cs cs' ->
  sum_list_Z (fun c => Z.abs (ch_points c)) cs < 2 ^ 53 ->
  difficulty_entry k cs = difficulty_entry k cs'.
Proof.
  intros H Hb. unfold difficulty_entry. destruct (inherited k); [reflexivity|].
  pose proof (filter_perm (in_difficulty k) _ _ H) as HP.
  pose proof (Permutation_length HP) as HL.
  pose proof (sum_list_Z_perm ch_points _ _ HP) as HS.
  assert (E : number_sum (List.map ch_points (List.filter (in_difficulty k) cs))
              = number_sum (List.map ch_points (List.filter (in_difficulty k) cs'))).
  { pose proof (sum_list_Z_filter_le (fun c => Z.abs (ch_points c))
                  (in_difficulty k) cs ltac:(intros; lia)) as Hle.
    rewrite !points_sum_exact
      by (rewrite <- ?(sum_list_Z_perm _ _ _ HP); lia).
    rewrite HS. reflexivity. }
  destruct (List.filter (in_difficulty k) cs), (List.filter (in_difficulty k) cs');
    try discriminate; [reflexivity|].
  rewrite HL, E. reflexivity.
Qed.

Lemma solves_desc_perm (cs cs' : list Challenge) :
  Permutation cs cs' ->
  List.map solves (js_sort by_solves_desc cs)
  = List.map solves (js_sort by_solves_desc cs').
Proof.
  intros H. apply (sorted_perm_eq (fun a b => b <= a)).
  - intros a b. lia.
  - apply StronglySorted_map, by_solves_desc_sorted.
  - apply StronglySorted_map, by_solves_desc_sorted.
  - apply Permutation_map.
    rewrite (js_sort_perm by_solves_desc cs), (js_sort_perm by_solves_desc cs').
    exact H.
Qed.

Lemma solves_asc_perm (cs cs' : list Challenge) :
  Permutation cs cs' ->
  List.map solves (js_sort by_solves_asc cs)
  = List.map solves (js_sort by_solves_asc cs').
Proof.
  intros H. apply (sorted_perm_eq (fun a b => a <= b)).
  - intros a b. lia.
  - apply StronglySorted_map, by_solves_asc_sorted.
  - apply StronglySorted_map, by_solves_asc_sorted.
  - apply Permutation_map.
    rewrite (js_sort_perm by_solves_asc cs), (js_sort_perm by_solves_asc cs').
    exact H.
Qed.

Lemma brief_solves (l : list Challenge) :
  List.map cb_solves (List.map brief (slice0 5 l)) = firstn 5 (List.map solves l).
Proof.
  unfold slice0. rewrite List.map_map. cbn [brief cb_solves].
  symmetry. apply firstn_map.
Qed.

(** X6. [/challenge-stats] reads the challenges in no particular order.
    For two orders of the same challenges, [byCategory] is the same
    object, and so is [byDifficulty] as long as the points of the
    challenges add up, in magnitude, to less than [2^53] (so that the
    additions of [avgPoints] do not round); the solve counts listed in
    [topChallenges] and in [leastSolved] are the same (which of several
    equally solved challenges is listed may differ), [solvedChallenges]
    has the same rows in another order, and [submissionsByChallenge] of
    [/submissions] lists the same counts. *)
Theorem challenge_stats_ignore_order
  (users : list User) (challenges challenges' : list Challenge) :
  Permutation challenges challenges' ->
  sum_list_Z (fun c => Z.abs (ch_points c)) challenges < 2 ^ 53 ->
  let st := challenge_stats challenges in
  let st' := challenge_stats challenges' in
  byCategory st = byCategory st'
  /\ byDifficulty st = byDifficulty st'
  /\ List.map cb_solves (topChallenges st) = List.map cb_solves (topChallenges st')
  /\ List.map cb_solves (leastSolved st) = List.map cb_solves (leastSolved st')
  /\ Permutation (st_solvedChallenges st) (st_solvedChallenges st')
  /\ List.map cs_submissions
       (submissionsByChallenge (submissions users challenges))
     = List.map cs_submissions
         (submissionsByChallenge (submissions users challenges')).
Proof.
  intros H Hb. cbv zeta. repeat split.
  - apply map_eq. intros k. cbn [challenge_stats byCategory].
    rewrite !byCategory_fold. apply category_entry_perm, H.
  - apply map_eq. intros k. cbn [challenge_stats byDifficulty].
    rewrite !byDifficulty_fold. apply difficulty_entry_perm; assumption.
  - cbn [challenge_stats topChallenges]. rewrite !brief_solves.
    f_equal. apply solves_desc_perm, H.
  - cbn [challenge_stats leastSolved]. rewrite !brief_solves.
    f_equal. apply solves_asc_perm.
    rewrite (js_sort_perm by_solves_desc challenges),
      (js_sort_perm by_solves_desc challenges'). exact H.
  - cbn [challenge_stats st_solvedChallenges]. rewrite !solvedChallenges_fold.
    apply Permutation_map, filter_perm, H.
  - rewrite !submissionsByChallenge_sorted_filter.
    apply (sorted_perm_eq (fun a b => b <= a)).
    + intros a b. lia.
    + apply StronglySorted_map.
      eapply StronglySorted_weaken; [|apply js_sort_sorted].
      * intros a b. cbv beta. lia.
      * intros a b c. lia.
      * intros a b. lia.
    + apply StronglySorted_map.
      eapply StronglySorted_weaken; [|apply js_sort_sorted].
      * intros a b. cbv beta. lia.
      * intros a b c. lia.
      * intros a b. lia.
    + apply Permutation_map. rewrite !js_sort_perm.
      apply Permutation_map, filter_perm, H.
Qed.

Lemma challenge_stats_ignore_order_witness :
  let st := challenge_stats sample_challenges in
  let st' := challenge_stats (rev sample_challenges) in
  byCategory st = byCategory st'
  /\ byDifficulty st = byDifficulty st'
  /\ List.map cb_solves (topChallenges st) = List.map cb_solves (topChallenges st')
  /\ List.map cb_solves (leastSolved st) = List.map cb_solves (leastSolved st')
  /\ Permutation (st_solvedChallenges st) (st_solvedChallenges st')
  /\ List.map cs_submissions
       (submissionsByChallenge (submissions sample_users sample_challenges))
     = List.map cs_submissions
         (submissionsByChallenge
            (submissions sample_users (rev sample_challenges))).
Proof.
  apply (challenge_stats_ignore_order sample_users
           sample_challenges (rev sample_challenges));
    [apply Permutation_rev | vm_compute; reflexivity].
Defined.

(** ** The listings of the submission analytics *)

Lemma user_submissions_length (u : User) :
  us_submissions (user_submissions u)
  = Z.of_nat (length (us_challenges (user_submissions u))).
Proof.
  unfold user_submissions, length_or_0. simpl.
  destruct (solvedChallenges u); simpl; [rewrite length_map|]; reflexivity.
Qed.

Lemma by_submissions_sorted {A} (key : A -> Z) (l : list A) :
  StronglySorted (fun a b => key b <= key a)
    (js_sort (fun a b => key b - key a) l).
Proof.
  eapply StronglySorted_weaken; [|apply js_sort_sorted].
  - intros a b. cbv beta. lia.
  - intros a b c. lia.
  - intros a b. lia.
Qed.

Lemma by_submissions_stable {A} (key : A -> Z) (k : Z) (l : list A) :
  List.filter (fun a => key a =? k) (js_sort (fun a b => key b - key a) l)
  = List.filter (fun a => key a =? k) l.
Proof. apply js_sort_stable. intros a b. lia. Qed.

(** X7. [submissionsByUser] of [/submissions] lists exactly the users
    with at least one solved challenge, each once: it is a rearrangement
    of their rows into descending order of [submissions] in which users
    with the same count keep the order of the collection. Every row has
    [submissions >= 1], which is the length of its [challenges] array,
    and the [submissions] of the rows add up to [totalSubmissions]. *)
Theorem submissionsByUser_listing
  (users : list User) (challenges : list Challenge) :
  let rows := submissionsByUser (submissions users challenges) in
  let solvers := List.filter (fun u => 0 <? solved_count u) users in
  Permutation rows (List.map user_submissions solvers)
  /\ StronglySorted (fun a b => us_submissions b <= us_submissions a) rows
  /\ (forall k,
        List.filter (fun r => us_submissions r =? k) rows
        = List.map user_submissions
            (List.filter (fun u => solved_count u =? k) solvers))
  /\ Forall (fun r => 1 <= us_submissions r
                      /\ us_submissions r = Z.of_nat (length (us_challenges r)))
       rows
  /\ sum_list_Z us_submissions rows
     = totalSubmissions (sd_overview (submissions users challenges)).
Proof.
  cbv zeta. rewrite submissionsByUser_sorted_filter.
  set (solvers := List.filter (fun u => 0 <? solved_count u) users).
  split; [apply js_sort_perm|].
  split; [apply (by_submissions_sorted us_submissions)|].
  split.
  { intros k. rewrite (by_submissions_stable us_submissions).
    apply filter_map_comm. }
  split.
  { apply List.Forall_forall. intros r Hr.
    apply (Permutation_in _ (js_sort_perm _ _)) in Hr.
    apply in_map_iff in Hr as (u & <- & Hu).
    apply List.filter_In in Hu as [_ Hu].
    split; [|apply user_submissions_length].
    cbn [user_submissions us_submissions]. unfold solved_count in Hu. lia. }
  rewrite (sum_list_Z_perm _ _ _ (js_sort_perm _ _)), sum_list_Z_map.
  cbn [user_submissions us_submissions].
  rewrite (proj1 (submissions_total users challenges)).
  apply (sum_list_Z_filter_pos solved_count), solved_count_pos.
Qed.

(** X8. [submissionsByChallenge] of [/submissions] lists exactly the
    challenges with at least one solver, in descending order of
    [submissions], equally solved challenges in the order of the
    collection. Every row has [submissions >= 1]; the rows add up to the
    sum of the lengths of [solvedBy] over all challenges, and there are
    as many rows as [/challenge-stats] has [solvedChallenges]. *)
Theorem submissionsByChallenge_listing
  (users : list User) (challenges : list Challenge) :
  let rows := submissionsByChallenge (submissions users challenges) in
  let solved := List.filter (fun c => 0 <? solves c) challenges in
  Permutation rows (List.map challenge_submissions solved)
  /\ StronglySorted (fun a b => cs_submissions b <= cs_submissions a) rows
  /\ (forall k,
        List.filter (fun r => cs_submissions r =? k) rows
        = List.map challenge_submissions
            (List.filter (fun c => solves c =? k) solved))
  /\ Forall (fun r => 1 <= cs_submissions r) rows
  /\ sum_list_Z cs_submissions rows = sum_list_Z solves challenges
  /\ length rows = length (st_solvedChallenges (challenge_stats challenges)).
Proof.
  cbv zeta. rewrite submissionsByChallenge_sorted_filter.
  set (solved := List.filter (fun c => 0 <? solves c) challenges).
  split; [apply js_sort_perm|].
  split; [apply (by_submissions_sorted cs_submissions)|].
  split.
  { intros k. rewrite (by_submissions_stable cs_submissions).
    apply filter_map_comm. }
  split.
  { apply List.Forall_forall. intros r Hr.
    apply (Permutation_in _ (js_sort_perm _ _)) in Hr.
    apply in_map_iff in Hr as (c & <- & Hc).
    apply List.filter_In in Hc as [_ Hc].
    cbn [challenge_submissions cs_submissions]. lia. }
  split.
  { rewrite (sum_list_Z_perm _ _ _ (js_sort_perm _ _)), sum_list_Z_map.
    cbn [challenge_submissions cs_submissions].
    apply (sum_list_Z_filter_pos solves), solves_nonneg. }
  rewrite (Permutation_length (js_sort_perm _ _)).
  cbn [challenge_stats st_solvedChallenges].
  rewrite solvedChallenges_fold, !length_map. unfold solved. f_equal.
  apply List.filter_ext. intros c. symmetry. apply has_solvers_solves.
Qed.

(** ** The leaderboard query *)

Lemma StronglySorted_app_cross {A} (R : A -> A -> Prop) (l1 l2 : list A) :
  StronglySorted R (l1 ++ l2) ->
  StronglySorted R l1
  /\ forall a b, In a l1 -> In b l2 -> R a b.
Proof.
  induction l1 as [|x l1 IH]; simpl; intros H.
  - split; [constructor|]. intros a b [].
  - apply StronglySorted_inv in H as [H F]. destruct (IH H) as [S1 C].
    split.
    + constructor; [exact S1|].
      apply List.Forall_forall. intros a Ha.
      apply (proj1 (List.Forall_forall _ _) F). apply in_or_app. auto.
    + intros a b [<-|Ha] Hb; [|auto].
      apply (proj1 (List.Forall_forall _ _) F). apply in_or_app. auto.
Qed.

Lemma topUsersData_length (l : list User) : length (topUsersData l) = length l.
Proof. unfold topUsersData. apply length_imap. Qed.

(** X9. [/leaderboard-stats] with its query: the rows are those of the
    listed users, who are the whole collection when it has at most ten
    users and ten of them otherwise; the listed users are in descending
    order of points, and no user left out has more points than a listed
    one. *)
Theorem leaderboard_top_ten (users : list User) :
  let rows := leaderboard_stats users in
  length rows = Nat.min 10 (length users)
  /\ exists listed rest : list User,
       rows = topUsersData listed
       /\ Permutation users (listed ++ rest)
       /\ length listed = Nat.min 10 (length users)
       /\ StronglySorted (fun a b => points b <= points a) listed
       /\ (forall u w, In u listed -> In w rest -> points w <= points u)
       /\ List.map lr_points rows = List.map points listed
       /\ List.map lr_username rows = List.map username listed.
Proof.
  cbv zeta. unfold leaderboard_stats, find_top_users.
  set (sorted := js_sort by_points_desc users).
  assert (HL : length (firstn 10 sorted) = Nat.min 10 (length users)).
  { rewrite length_firstn. unfold sorted.
    rewrite (Permutation_length (js_sort_perm by_points_desc users)).
    reflexivity. }
  split; [rewrite topUsersData_length; exact HL|].
  exists (firstn 10 sorted), (skipn 10 sorted).
  assert (HS : StronglySorted (fun a b => points b <= points a) sorted).
  { eapply StronglySorted_weaken; [|apply js_sort_sorted].
    - intros a b. unfold by_points_desc. lia.
    - unfold by_points_desc. intros a b c. lia.
    - unfold by_points_desc. intros a b. lia. }
  rewrite <- (firstn_skipn 10 sorted) in HS.
  apply StronglySorted_app_cross in HS as [HS HC].
  split; [reflexivity|].
  split; [rewrite firstn_skipn; symmetry; apply js_sort_perm|].
  split; [exact HL|].
  split; [exact HS|].
  split; [exact HC|].
  generalize (firstn 10 sorted). intros l. unfold topUsersData.
  assert (G : forall (l : list User) (g : nat -> nat),
            List.map lr_points
              (imap (fun index user =>
                       {| lr_rank := Z.of_nat (g index) + 1;
                          lr_username := username user;
                          lr_points := points user;
                          lr_challengesSolved :=
                            length_or_0 (solvedChallenges user) |}) l)
            = List.map points l
            /\ List.map lr_username
                 (imap (fun index user =>
                          {| lr_rank := Z.of_nat (g index) + 1;
                             lr_username := username user;
                             lr_points := points user;
                             lr_challengesSolved :=
                               length_or_0 (solvedChallenges user) |}) l)
               = List.map username l).
  { clear. induction l as [|u l IH]; intros g; [split; reflexivity|].
    cbn [imap List.map lr_points lr_username].
    destruct (IH (fun i => g (S i))) as [E1 E2].
    unfold compose. split; f_equal; assumption. }
  exact (G l (fun i => i)).
Qed.

(** ** The most and the least solved challenges *)

Lemma In_firstn {A} (n : nat) (l : list A) (x : A) :
  In x (firstn n l) -> In x l.
Proof.
  intros H. rewrite <- (firstn_skipn n l). apply in_or_app. left. exact H.
Qed.

Lemma sorted_head_bound {A} (R : A -> A -> Prop) (l : list A) (a b : A) :
  (forall x, R x x) -> StronglySorted R l -> head l = Some a -> In b l -> R a b.
Proof.
  intros Hrefl HS Hh Hb. destruct l as [|x l]; [discriminate|].
  injection Hh as ->. destruct Hb as [<-|Hb]; [apply Hrefl|].
  apply StronglySorted_inv in HS as [_ F].
  exact (proj1 (List.Forall_forall _ _) F b Hb).
Qed.

Lemma head_map_firstn {A B} (f : A -> B) (n : nat) (l : list A) (b : B) :
  head (List.map f (firstn n l)) = Some b ->
  exists a, head l = Some a /\ b = f a.
Proof.
  destruct l as [|a l]; [rewrite firstn_nil; discriminate|].
  destruct n; [discriminate|]. simpl. intros [= <-]. eauto.
Qed.

(** X10. In [/challenge-stats], [topChallenges] and [leastSolved] each
    have five entries, or as many as there are challenges if fewer;
    every entry is the summary of a challenge of the collection. The
    first entry of [topChallenges] has the largest number of solves of
    the collection, the first entry of [leastSolved] the smallest; with
    at most five challenges both lists show all of them. *)
Theorem top_least_extremes (challenges : list Challenge) :
  let st := challenge_stats challenges in
  length (topChallenges st) = Nat.min 5 (length challenges)
  /\ length (leastSolved st) = Nat.min 5 (length challenges)
  /\ (forall b, In b (topChallenges st) \/ In b (leastSolved st) ->
        exists c, In c challenges /\ b = brief c)
  /\ (forall b c, head (topChallenges st) = Some b -> In c challenges ->
        solves c <= cb_solves b)
  /\ (forall b c, head (leastSolved st) = Some b -> In c challenges ->
        cb_solves b <= solves c)
  /\ ((length challenges <= 5)%nat ->
      Permutation (topChallenges st) (List.map brief challenges)
      /\ Permutation (leastSolved st) (List.map brief challenges)).
Proof.
  cbv zeta. cbn [challenge_stats topChallenges leastSolved]. unfold slice0.
  set (c1 := js_sort by_solves_desc challenges).
  set (c2 := js_sort by_solves_asc c1).
  assert (P1 : Permutation c1 challenges) by apply js_sort_perm.
  assert (P2 : Permutation c2 challenges)
    by (etransitivity; [apply js_sort_perm | exact P1]).
  split.
  { rewrite length_map, length_firstn, (Permutation_length P1). reflexivity. }
  split.
  { rewrite length_map, length_firstn, (Permutation_length P2). reflexivity. }
  split.
  { intros b [Hb|Hb]; apply in_map_iff in Hb as (c & <- & Hc);
      exists c; (split; [|reflexivity]).
    - apply (Permutation_in _ P1). eapply In_firstn; exact Hc.
    - apply (Permutation_in _ P2). eapply In_firstn; exact Hc. }
  split.
  { intros b c Hh Hc. apply head_map_firstn in Hh as (a & Ha & ->).
    cbn [brief cb_solves].
    apply (sorted_head_bound (fun a b => solves b <= solves a) c1 a c);
      [intros; lia | apply by_solves_desc_sorted | exact Ha |].
    apply (Permutation_in _ (Permutation_sym P1)), Hc. }
  split.
  { intros b c Hh Hc. apply head_map_firstn in Hh as (a & Ha & ->).
    cbn [brief cb_solves].
    apply (sorted_head_bound (fun a b => solves a <= solves b) c2 a c);
      [intros; lia | apply by_solves_asc_sorted | exact Ha |].
    apply (Permutation_in _ (Permutation_sym P2)), Hc. }
  intros Hlen.
  rewrite !firstn_all2
    by (rewrite ?(Permutation_length P1), ?(Permutation_length P2); exact Hlen).
  split; apply Permutation_map; assumption.
Qed.

(** X11. The two sorts of [/challenge-stats] run on the same array, the
    second on what the first left. This makes no difference to
    [leastSolved]: it is the list obtained by sorting the collection as
    it was fetched in ascending order of solves; in particular equally
    solved challenges appear in the order of the collection, not in the
    reverse order in which the first sort could have been undone. *)
Theorem leastSolved_from_collection (challenges : list Challenge) :
  js_sort by_solves_asc (js_sort by_solves_desc challenges)
  = js_sort by_solves_asc challenges
  /\ leastSolved (challenge_stats challenges)
     = List.map brief (slice0 5 (js_sort by_solves_asc challenges)).
Proof.
  assert (E : js_sort by_solves_asc (js_sort by_solves_desc challenges)
              = js_sort by_solves_asc challenges).
  { apply (stable_sorted_unique solves).
    - apply by_solves_asc_sorted.
    - apply by_solves_asc_sorted.
    - intros k. change (fun a => solves a =? k) with (same_solves k).
      rewrite !(js_sort_stable by_solves_asc) by apply same_solves_asc.
      apply js_sort_stable, same_solves_desc. }
  split; [exact E|].
  cbn [challenge_stats leastSolved]. rewrite E. reflexivity.
Qed.

(** ** Documents without their array *)

Lemma fold_left_same_map {A S} (f : S -> A -> S) (g : A -> A) (l : list A) (s : S) :
  (forall s x, f s (g x) = f s x) ->
  fold_left f (List.map g l) s = fold_left f l s.
Proof.
  intros H. revert s. induction l as [|x l IH]; intros s; simpl; [reflexivity|].
  rewrite H. apply IH.
Qed.

Lemma filter_same_map {A} (p : A -> bool) (g : A -> A) (l : list A) :
  (forall x, p (g x) = p x) ->
  List.filter p (List.map g l) = List.map g (List.filter p l).
Proof.
  intros H. rewrite filter_map_comm. f_equal. apply List.filter_ext, H.
Qed.

Lemma countDocuments_same_map {A} (p : A -> bool) (g : A -> A) (l : list A) :
  (forall x, p (g x) = p x) ->
  countDocuments p (List.map g l) = countDocuments p l.
Proof.
  intros H. unfold countDocuments. rewrite filter_same_map by exact H.
  rewrite length_map. reflexivity.
Qed.

Lemma sort_insert_same_map {A} (cmp : A -> A -> Z) (g : A -> A) (x : A) (s : list A) :
  (forall a b, cmp (g a) (g b) = cmp a b) ->
  sort_insert cmp (g x) (List.map g s) = List.map g (sort_insert cmp x s).
Proof.
  intros H. induction s as [|y s IH]; simpl; [reflexivity|].
  rewrite H. destruct (cmp x y <=? 0); simpl; [reflexivity|].
  rewrite IH. reflexivity.
Qed.

Lemma js_sort_same_map {A} (cmp : A -> A -> Z) (g : A -> A) (l : list A) :
  (forall a b, cmp (g a) (g b) = cmp a b) ->
  js_sort cmp (List.map g l) = List.map g (js_sort cmp l).
Proof.
  intros H. induction l as [|x l IH]; simpl; [reflexivity|].
  rewrite IH. apply sort_insert_same_map, H.
Qed.

Lemma length_or_0_default {A} (arr : option (list A)) :
  length_or_0 (Some (default [] arr)) = length_or_0 arr.
Proof. destruct arr; reflexivity. Qed.

Lemma solves_with_array (c : Challenge) : solves (with_solvers_array c) = solves c.
Proof. apply length_or_0_default. Qed.

Lemma stats_step_with_array (st : Stats) (c : Challenge) :
  stats_step st (with_solvers_array c) = stats_step st c.
Proof.
  unfold stats_step, add_category, add_difficulty, add_solved.
  rewrite solves_with_array, !has_solvers_solves, solves_with_array.
  unfold solved_row. cbn [with_solvers_array title category difficulty
                            ch_points solvedBy default from_option].
  reflexivity.
Qed.

Lemma user_step_with_array (acc : UserAcc) (u : User) :
  user_step acc (with_solved_array u) = user_step acc u.
Proof.
  unfold user_step, user_submissions.
  cbn [with_solved_array username email points solvedChallenges].
  rewrite length_or_0_default.
  destruct (solvedChallenges u); reflexivity.
Qed.

Lemma challenge_step_with_array (acc : list ChallengeSubmissions) (c : Challenge) :
  challenge_step acc (with_solvers_array c) = challenge_step acc c.
Proof.
  unfold challenge_step, challenge_submissions. rewrite solves_with_array.
  reflexivity.
Qed.

Lemma topUsersData_with_array (l : list User) :
  topUsersData (List.map with_solved_array l) = topUsersData l.
Proof.
  unfold topUsersData.
  assert (G : forall (l : list User) (g : nat -> nat),
            imap (fun index user =>
                    {| lr_rank := Z.of_nat (g index) + 1;
                       lr_username := username user;
                       lr_points := points user;
                       lr_challengesSolved :=
                         length_or_0 (solvedChallenges user) |})
              (List.map with_solved_array l)
            = imap (fun index user =>
                      {| lr_rank := Z.of_nat (g index) + 1;
                         lr_username := username user;
                         lr_points := points user;
                         lr_challengesSolved :=
                           length_or_0 (solvedChallenges user) |}) l).
  { clear. induction l as [|u l IH]; intros g; [reflexivity|].
    cbn [imap List.map]. f_equal.
    - cbn [with_solved_array username points solvedChallenges].
      rewrite length_or_0_default. reflexivity.
    - exact (IH (fun i => g (S i))). }
  exact (G l (fun i => i)).
Qed.

(** X12. A user document has no [solvedChallenges] array, or a challenge
    no [solvedBy] array: every handler answers as if the array were
    there and empty. Giving each document of the collections its array
    changes none of the six responses. *)
Theorem missing_arrays_read_as_empty
  (now today : Z) (users : list User) (challenges : list Challenge) :
  let users' := List.map with_solved_array users in
  let challenges' := List.map with_solvers_array challenges in
  overview now users' challenges' = overview now users challenges
  /\ user_engagement now users' = user_engagement now users
  /\ challenge_stats challenges' = challenge_stats challenges
  /\ traffic now today users' = traffic now today users
  /\ leaderboard_stats users' = leaderboard_stats users
  /\ submissions users' challenges' = submissions users challenges.
Proof.
  cbv zeta. repeat split.
  - unfold overview, reduce_sum, reduce_add. cbv zeta.
    rewrite !countDocuments_same_map by reflexivity.
    rewrite !fold_left_same_map; [reflexivity|..];
      intros s u; cbn [with_solved_array solvedChallenges points];
      rewrite ?length_or_0_default; reflexivity.
  - unfold user_engagement. cbv zeta. rewrite List.map_map.
    assert (E : List.map (fun x => engagement_row now (with_solved_array x)) users
                = List.map (engagement_row now) users).
    { apply List.map_ext. intros u. unfold engagement_row.
      cbn [with_solved_array username points solvedChallenges createdAt isBlocked].
      rewrite length_or_0_default. reflexivity. }
    rewrite E. reflexivity.
  - unfold challenge_stats, slice0. cbv zeta.
    rewrite (fold_left_same_map stats_step) by apply stats_step_with_array.
    rewrite (js_sort_same_map by_solves_desc)
      by (intros a b; unfold by_solves_desc; rewrite !solves_with_array;
          reflexivity).
    rewrite (js_sort_same_map by_solves_asc)
      by (intros a b; unfold by_solves_asc; rewrite !solves_with_array;
          reflexivity).
    rewrite !firstn_map, !List.map_map.
    assert (E : forall l, List.map (fun x => brief (with_solvers_array x)) l
                          = List.map brief l).
    { intros l. apply List.map_ext. intros c. unfold brief.
      rewrite solves_with_array. reflexivity. }
    rewrite !E. reflexivity.
  - unfold traffic, usersPerDay. cbv zeta.
    rewrite !countDocuments_same_map by reflexivity.
    rewrite filter_same_map by reflexivity.
    rewrite (fold_left_same_map count_day) by reflexivity.
    reflexivity.
  - unfold leaderboard_stats, find_top_users.
    rewrite (js_sort_same_map by_points_desc) by reflexivity.
    rewrite firstn_map. apply topUsersData_with_array.
  - unfold submissions. cbv zeta.
    rewrite (fold_left_same_map user_step) by apply user_step_with_array.
    rewrite (fold_left_same_map challenge_step)
      by apply challenge_step_with_array.
    reflexivity.
Qed.

(** ** Whole days since the registration *)

Lemma Math_floor_float_neg (x : number) (v : Q) (e z : Z) :
  is_float x true v e -> (inject_Z z <= - v < inject_Z z + 1)%Q ->
  Math_floor x = of_Z z.
Proof.
  intros Hx Hz. pose proof (is_float_binade _ _ _ _ Hx) as [Hb _].
  pose proof (Q2pow_pos (e + 52)) as Hp.
  destruct Hx as (m & -> & Hd & Hv). unfold Math_floor. cbn [cond_Zopp].
  pose proof (floor_scaled_spec (- Zpos m) e) as Hf.
  rewrite inject_Z_opp in Hf.
  assert (Hf' : (inject_Z (floor_scaled (- Z.pos m) e) <= - v
                 < inject_Z (floor_scaled (- Z.pos m) e) + 1)%Q)
    by (rewrite Hv; lra).
  assert (E : floor_scaled (- Zpos m) e = z) by (apply inject_Z_lt_1; lra).
  rewrite E. destruct (Z.eqb_spec z 0) as [->|Hne]; [|reflexivity].
  change (inject_Z 0) with 0%Q in Hz. lra.
Qed.

Lemma days_quotient (a : Z) :
  0 < a < 2 ^ 52 ->
  forall s : bool,
  exists v e,
    is_float (div (of_Z (cond_Zopp s a)) (of_Z ms_per_day)) s v e
    /\ (inject_Z (a / ms_per_day) <= v)%Q
    /\ (if a mod ms_per_day =? 0
        then (v == inject_Z (a / ms_per_day))%Q
        else (inject_Z (a / ms_per_day) < v < inject_Z (a / ms_per_day) + 1)%Q).
Proof.
  intros Ha s.
  assert (H53 : 2 ^ 52 < 2 ^ 53) by (apply Z.pow_lt_mono_r; lia).
  assert (Hz : cond_Zopp s a <> 0) by (destruct s; simpl; lia).
  assert (Hz53 : Z.abs (cond_Zopp s a) < 2 ^ 53) by (destruct s; simpl; lia).
  destruct (of_Z_float _ Hz Hz53) as (ea & Hfa & Hea).
  replace (cond_Zopp s a <? 0) with s in Hfa
    by (destruct s; simpl; symmetry; [apply Z.ltb_lt | apply Z.ltb_ge]; lia).
  replace (Z.abs (cond_Zopp s a)) with a in Hfa by (destruct s; simpl; lia).
  change ms_per_day with 86400000.
  destruct (of_Z_pos_float 86400000 ltac:(lia)) as (em & Hfm & Hem).
  destruct (div_float _ _ _ _ _ _ _ _ Hfa Hfm ltac:(lia) ltac:(lia))
    as (v & E & e & Hf & Hr).
  rewrite xorb_false_r in Hf. exists v, e. split; [exact Hf|].
  pose proof (Z_div_mod a 86400000 ltac:(lia)) as Hdm.
  unfold Z.modulo, Z.div.
  destruct (Z.div_eucl a 86400000) as [k r]. destruct Hdm as [Hk Hr0].
  assert (HkQ : (inject_Z a == 86400000 * inject_Z k + inject_Z r)%Q).
  { change 86400000%Q with (inject_Z 86400000).
    rewrite <- inject_Z_mult, <- inject_Z_plus, Hk. reflexivity. }
  assert (Qa : (inject_Z a < 4503599627370496)%Q).
  { destruct Ha as [_ Ha]. rewrite Zlt_Qlt in Ha. exact Ha. }
  change (inject_Z 86400000) with 86400000%Q in Hr.
  set (x := (inject_Z a / 86400000)%Q) in *.
  assert (Hx : (86400000 * x == inject_Z a)%Q) by (unfold x; field).
  pose proof (rounded_rel _ _ _ _ Hr) as Hrel.
  apply Qabs_Qle_condition in Hrel.
  change (2 ^ 53)%positive with 9007199254740992%positive in Hrel.
  assert (Qr0 : (0 <= inject_Z r)%Q)
    by (change 0%Q with (inject_Z 0); rewrite <- Zle_Qle; lia).
  destruct (Z.eqb_spec r 0) as [->|Hne].
  - change (inject_Z 0) with 0%Q in HkQ.
    assert (Hxk : (x == inject_Z k * Q2pow 0)%Q)
      by (change (Q2pow 0) with 1%Q; lra).
    assert (HE : E <= 0).
    { pose proof (rounded_binade _ _ _ _ Hr) as [B1 _].
      assert (E + 52 < 53); [|lia]. apply Q2pow_lt_inv.
      rewrite (Q2pow_Z 53) by lia.
      change (inject_Z (2 ^ 53)) with 9007199254740992%Q. lra. }
    pose proof (rounded_exact _ _ _ _ k 0 Hr Hxk HE) as Hv.
    change (Q2pow 0) with 1%Q in Hxk.
    split; [|rewrite Hv, Hxk; ring]. lra.
  - assert (Qr1 : (1 <= inject_Z r)%Q)
      by (change 1%Q with (inject_Z 1); rewrite <- Zle_Qle; lia).
    assert (Qr2 : (inject_Z r <= 86399999)%Q)
      by (change 86399999%Q with (inject_Z 86399999); rewrite <- Zle_Qle; lia).
    split; [|split]; lra.
Qed.

Lemma days_floor (d : Z) :
  Z.abs d < 2 ^ 52 ->
  Math_floor (div (of_Z d) (of_Z ms_per_day)) = of_Z (d / ms_per_day).
Proof.
  intros Hd. destruct (Z.eq_dec d 0) as [->|Hne]; [vm_compute; reflexivity|].
  destruct (Z.ltb_spec d 0) as [Hneg|Hpos].
  - destruct (days_quotient (- d) ltac:(lia) true) as (v & e & Hf & H0 & H1).
    cbn [cond_Zopp] in Hf. rewrite Z.opp_involutive in Hf.
    apply (Math_floor_float_neg _ v e); [exact Hf|].
    assert (Hm : 0 < ms_per_day) by (unfold ms_per_day; lia).
    revert H1.
    destruct (Z.eqb_spec ((- d) mod ms_per_day) 0) as [Hr|Hr]; intros H1.
    + assert (Hq : d / ms_per_day = - ((- d) / ms_per_day))
        by (revert Hr; generalize ms_per_day Hm; intros;
            Z.to_euclidean_division_equations; nia).
      rewrite Hq, inject_Z_opp. lra.
    + assert (Hq : d / ms_per_day = - ((- d) / ms_per_day) - 1)
        by (revert Hr; generalize ms_per_day Hm; intros;
            Z.to_euclidean_division_equations; nia).
      rewrite Hq. unfold Z.sub. rewrite inject_Z_plus, !inject_Z_opp.
      change (inject_Z 1) with 1%Q. lra.
  - destruct (days_quotient d ltac:(lia) false) as (v & e & Hf & H0 & H1).
    cbn [cond_Zopp] in Hf.
    apply (Math_floor_float _ v e); [exact Hf|].
    destruct (d mod ms_per_day =? 0); lra.
Qed.

(** X13. [daysActive] of [/user-engagement] is computed on Numbers:
    the difference of the two time values divided by 86400000, then
    [Math.floor]. For a clock and a registration less than [2^52]
    milliseconds apart it is exactly the whole number of days between
    them, rounded down: also for a registration dated after the clock,
    where it is negative ([-1] during the first day). The rows come in
    the order of the users and carry their name, date and standing. *)
Theorem daysActive_whole_days (now : Z) (users : list User) :
  Forall (fun u => Z.abs (now - createdAt u) < 2 ^ 52) users ->
  let rows := snd (user_engagement now users) in
  length rows = length users
  /\ forall (i : nat) (u : User), users !! i = Some u ->
       exists r, rows !! i = Some r
         /\ er_username r = username u
         /\ er_joinedDate r = createdAt u
         /\ er_isActive r = negb (isBlocked u)
         /\ er_daysActive r = of_Z ((now - createdAt u) / ms_per_day).
Proof.
  intros Hall. cbv zeta. cbn [user_engagement snd].
  split; [apply length_map|].
  intros i u Hu. exists (engagement_row now u).
  split.
  { change (List.map (engagement_row now) users)
      with (engagement_row now <$> users).
    rewrite list_lookup_fmap, Hu. reflexivity. }
  repeat split. cbn [engagement_row er_daysActive].
  apply days_floor.
  rewrite Forall_forall in Hall. apply Hall.
  eapply list_elem_of_lookup_2. exact Hu.
Qed.

Lemma daysActive_whole_days_witness :
  let rows := snd (user_engagement 1793577599999 sample_users) in
  length rows = length sample_users
  /\ forall (i : nat) (u : User), sample_users !! i = Some u ->
       exists r, rows !! i = Some r
         /\ er_username r = username u
         /\ er_joinedDate r = createdAt u
         /\ er_isActive r = negb (isBlocked u)
         /\ er_daysActive r = of_Z ((1793577599999 - createdAt u) / ms_per_day).
Proof.
  apply (daysActive_whole_days 1793577599999 sample_users).
  repeat constructor.
Defined.

(** ** The range of the two rates *)

Lemma attempts_ratio (n : Z) :
  4 <= n -> 7 * n <= 6 * (n + 3 * n / 10).
Proof. intros Hn. Z.to_euclidean_division_equations. lia. Qed.

(** X14. The rates of [/submissions] follow from the assumed share of
    failures alone. With 1 to 3 successful submissions the estimate of
    the failed ones is 0, and the rates are 100.00 and 0.00; from 4 on
    the success rate lies between 76.92 and 85.71 (which it reaches
    with 6 submissions) and the failure rate between 14.29 and 23.08
    (fewer than [2^36] submissions). *)
Theorem success_rate_range (n : Z) :
  0 < n < 2 ^ 36 ->
  exists s,
    success_rate n = JFixed (FxDec false s)
    /\ failure_rate n = FxDec false (10000 - s)
    /\ 7692 <= s <= 10000
    /\ (n <= 3 -> s = 10000 /\ estimate_failed n = of_Z 0)
    /\ (4 <= n -> s <= 8571)
    /\ (n = 6 -> s = 8571).
Proof.
  intros Hn. destruct (success_rate_nearest n Hn) as (s & Hs & Hnear & Hrange).
  exists s. split; [exact Hs|]. split.
  { unfold failure_rate. rewrite Hs. cbn [to_number].
    apply failure_rate_complement, Hrange. }
  split; [exact Hrange|]. unfold nearest_percent in Hnear.
  split; [|split].
  - intros H3. split.
    + assert (C : n = 1 \/ n = 2 \/ n = 3) by lia.
      destruct C as [-> | [-> | ->]];
        [change (1 + 3 * 1 / 10) with 1 in Hnear
        |change (2 + 3 * 2 / 10) with 2 in Hnear
        |change (3 + 3 * 3 / 10) with 3 in Hnear]; lia.
    + rewrite estimate_failed_exact by exact Hn. f_equal.
      Z.to_euclidean_division_equations. lia.
  - intros H4. pose proof (attempts_ratio n H4) as Hr.
    set (t := n + 3 * n / 10) in *.
    destruct (Z.le_gt_cases s 8571) as [|Hgt]; [assumption|exfalso].
    assert (8572 * t <= s * t) by nia. lia.
  - intros ->. change (6 + 3 * 6 / 10) with 7 in Hnear. lia.
Qed.

Lemma success_rate_range_witness :
  exists s,
    success_rate 13 = JFixed (FxDec false s)
    /\ failure_rate 13 = FxDec false (10000 - s)
    /\ 7692 <= s <= 10000
    /\ (13 <= 3 -> s = 10000 /\ estimate_failed 13 = of_Z 0)
    /\ (4 <= 13 -> s <= 8571)
    /\ (13 = 6 -> s = 8571).
Proof. apply (success_rate_range 13). lia. Defined.

(** ** Reading the two-decimal strings back *)

Lemma toFixed2_parse (neg : bool) (s : Z) :
  0 < s < 10 ^ 15 ->
  toFixed2 (fixed2_to_number (FxDec neg s)) = FxDec neg s.
Proof.
  intros Hs. unfold fixed2_to_number.
  replace (s =? 0) with false by (symmetry; apply Z.eqb_neq; lia).
  assert (H53 : 10 ^ 15 < 2 ^ 53) by reflexivity.
  assert (Hz : cond_Zopp neg s <> 0) by (destruct neg; simpl; lia).
  assert (Hz53 : Z.abs (cond_Zopp neg s) < 2 ^ 53) by (destruct neg; simpl; lia).
  destruct (of_Z_float _ Hz Hz53) as (es & Hfs & Hes).
  replace (cond_Zopp neg s <? 0) with neg in Hfs
    by (destruct neg; simpl; symmetry; [apply Z.ltb_lt | apply Z.ltb_ge]; lia).
  replace (Z.abs (cond_Zopp neg s)) with s in Hfs by (destruct neg; simpl; lia).
  destruct (of_Z_pos_float 100 ltac:(lia)) as (eh & Hfh & Heh).
  destruct (div_float _ _ _ _ _ _ _ _ Hfs Hfh ltac:(lia) ltac:(lia))
    as (v & E & e & Hf & Hr).
  rewrite xorb_false_r in Hf.
  assert (Qs0 : (1 <= inject_Z s)%Q)
    by (change 1%Q with (inject_Z 1); rewrite <- Zle_Qle; lia).
  assert (Qs1 : (inject_Z s < 1000000000000000)%Q).
  { destruct Hs as [_ Hs]. rewrite Zlt_Qlt in Hs. exact Hs. }
  pose proof (rounded_rel _ _ _ _ Hr) as Hrel.
  apply Qabs_Qle_condition in Hrel.
  change (2 ^ 53)%positive with 9007199254740992%positive in Hrel.
  change (inject_Z 100) with 100%Q in *.
  set (q := (inject_Z s / 100)%Q) in *.
  assert (Hq : (100 * q == inject_Z s)%Q) by (unfold q; field).
  destruct (toFixed2_float _ _ _ _ Hf) as (n & -> & Hn).
  { change (inject_Z (10 ^ 21)) with 1000000000000000000000%Q. lra. }
  f_equal. apply inject_Z_lt_1; lra.
Qed.

(** X15. [/submissions] sends [parseFloat] of the two strings that
    [toFixed(2)] made. Nothing is lost on the way: a two-decimal string
    of up to 15 digits, other than zero, read as a Number and printed
    with two decimals again is the same string (while ["-0.00"] comes
    back as ["0.00"]); so the Numbers [successRate] and [failureRate]
    of the response print as the two rates that were computed (fewer
    than [2^36] submissions). *)
Theorem rates_read_back :
  (forall (neg : bool) (s : Z), 0 < s < 10 ^ 15 ->
     toFixed2 (fixed2_to_number (FxDec neg s)) = FxDec neg s)
  /\ toFixed2 (fixed2_to_number (FxDec false 0)) = FxDec false 0
  /\ toFixed2 (fixed2_to_number (FxDec true 0)) = FxDec false 0
  /\ (forall (users : list User) (challenges : list Challenge),
        let ov := sd_overview (submissions users challenges) in
        totalSubmissions ov < 2 ^ 36 ->
        exists s,
          0 <= s <= 10000
          /\ toFixed2 (successRate ov) = FxDec false s
          /\ toFixed2 (failureRate ov) = FxDec false (10000 - s)
          /\ failure_rate (totalSubmissions ov) = FxDec false (10000 - s)
          /\ (0 < totalSubmissions ov ->
              success_rate (totalSubmissions ov) = JFixed (FxDec false s))).
Proof.
  split; [exact toFixed2_parse|]. split; [reflexivity|]. split; [reflexivity|].
  intros users challenges ov Hlt.
  assert (Hn : 0 <= totalSubmissions ov < 2 ^ 36).
  { split; [|exact Hlt]. unfold ov.
    rewrite (proj1 (submissions_total users challenges)).
    apply solved_count_nonneg. }
  destruct (rates_complementary _ Hn) as (s & Hs & Hf & _ & H0 & H1).
  assert (Hr : 0 <= s <= 10000).
  { destruct (Z.eq_dec (totalSubmissions ov) 0) as [E|E].
    - destruct (H0 E) as [_ ->]. lia.
    - destruct (success_rate_nearest (totalSubmissions ov) ltac:(lia))
        as (s' & Hs' & _ & Hr').
      destruct (H1 ltac:(lia)) as [Hs1 _]. rewrite Hs1 in Hs'.
      injection Hs' as ->. lia. }
  exists s. split; [exact Hr|].
  assert (R : forall k, 0 <= k <= 10000 ->
                toFixed2 (fixed2_to_number (FxDec false k)) = FxDec false k).
  { intros k Hk. destruct (Z.eq_dec k 0) as [->|]; [reflexivity|].
    apply toFixed2_parse. lia. }
  split.
  { change (successRate ov) with (to_number (success_rate (totalSubmissions ov))).
    rewrite Hs. apply R, Hr. }
  split.
  { change (failureRate ov)
      with (fixed2_to_number (failure_rate (totalSubmissions ov))).
    rewrite Hf. apply R. lia. }
  split; [exact Hf|].
  intros Hpos. exact (proj1 (H1 Hpos)).
Qed.

(** ** The keys of the daily breakdown and the days *)

(** X16. The keys of [dailyBreakdown] stand for days of the UTC
    calendar (while [today] counts from the midnight of the server's
    time zone). Two users registered on the same UTC day have the same
    key; with the dates in the years 0000 to 9999 two users with the
    same key registered on the same UTC day, and the entry under a
    user's key is the number of users of the 30-day window registered
    on that very day. *)
Theorem dailyBreakdown_utc_days (now today : Z) (all_users : list User) :
  Forall (fun w => four_digit_year (createdAt w)) all_users ->
  (forall u u', JsDate.Day (createdAt u) = JsDate.Day (createdAt u') ->
                day_key u = day_key u')
  /\ (forall u u', In u all_users -> In u' all_users ->
        day_key u = day_key u' ->
        JsDate.Day (createdAt u) = JsDate.Day (createdAt u'))
  /\ (forall u, In u all_users -> now - 30 * ms_per_day <= createdAt u ->
        dailyBreakdown (traffic now today all_users) !! day_key u
        = Some (countDocuments
                  (same_utc_day (now - 30 * ms_per_day) (createdAt u))
                  all_users)
        /\ 1 <= countDocuments
                  (same_utc_day (now - 30 * ms_per_day) (createdAt u))
                  all_users).
Proof.
  intros Hall. pose proof (proj1 (List.Forall_forall _ _) Hall) as H4.
  split; [|split].
  - intros u u' H. rewrite !day_key_date. apply date_string_of_day, H.
  - intros u u' Hu Hu' H. rewrite !day_key_date in H.
    apply date_string_day; auto.
  - intros u Hu Hge. cbn [traffic dailyBreakdown].
    rewrite usersPerDay_lookup.
    assert (E : day_count (day_key u)
                  (List.filter (created_gte (now - 30 * ms_per_day)) all_users)
                = countDocuments
                    (same_utc_day (now - 30 * ms_per_day) (createdAt u))
                    all_users).
    { unfold day_count, countDocuments. rewrite filter_filter_and.
      do 2 f_equal. apply List.filter_ext_in. intros w Hw.
      unfold same_utc_day. f_equal. unfold on_day.
      destruct (String.eqb_spec (day_key w) (day_key u)) as [Hk|Hk].
      - symmetry. apply Z.eqb_eq. rewrite !day_key_date in Hk.
        apply date_string_day; auto.
      - symmetry. apply Z.eqb_neq. intros Hd. apply Hk.
        rewrite !day_key_date. apply date_string_of_day, Hd. }
    rewrite E.
    assert (P : 1 <= countDocuments
                       (same_utc_day (now - 30 * ms_per_day) (createdAt u))
                       all_users).
    { apply in_split in Hu as (l1 & l2 & ->).
      rewrite countDocuments_app.
      pose proof (countDocuments_bounds
                    (same_utc_day (now - 30 * ms_per_day) (createdAt u)) l1).
      pose proof (countDocuments_bounds
                    (same_utc_day (now - 30 * ms_per_day) (createdAt u)) l2).
      unfold countDocuments at 2. simpl.
      unfold same_utc_day at 2, created_gte.
      replace (now - 30 * ms_per_day <=? createdAt u) with true
        by (symmetry; apply Z.leb_le; exact Hge).
      rewrite Z.eqb_refl. simpl.
      unfold countDocuments in *. lia. }
    split; [|exact P].
    destruct (Z.eqb_spec (countDocuments
                            (same_utc_day (now - 30 * ms_per_day) (createdAt u))
                            all_users) 0); [lia|reflexivity].
Qed.

Lemma dailyBreakdown_utc_days_witness :
  (forall u u', JsDate.Day (createdAt u) = JsDate.Day (createdAt u') ->
                day_key u = day_key u')
  /\ (forall u u', In u sample_users -> In u' sample_users ->
        day_key u = day_key u' ->
        JsDate.Day (createdAt u) = JsDate.Day (createdAt u'))
  /\ (forall u, In u sample_users ->
        1793491200000 - 30 * ms_per_day <= createdAt u ->
        dailyBreakdown (traffic 1793491200000 1793491200000 sample_users)
          !! day_key u
        = Some (countDocuments
                  (same_utc_day (1793491200000 - 30 * ms_per_day) (createdAt u))
                  sample_users)
        /\ 1 <= countDocuments
                  (same_utc_day (1793491200000 - 30 * ms_per_day) (createdAt u))
                  sample_users).
Proof.
  apply (dailyBreakdown_utc_days 1793491200000 1793491200000 sample_users).
  repeat constructor; vm_compute; congruence.
Defined.

(** ** The entry of a category *)

Lemma filter_nil_iff {A} (p : A -> bool) (l : list A) :
  List.filter p l = [] <-> forall x, In x l -> p x = false.
Proof.
  induction l as [|x l IH]; simpl.
  - split; [intros _ y []|reflexivity].
  - destruct (p x) eqn:Hp.
    + split; [discriminate|]. intros H. specialize (H x (or_introl eq_refl)).
      congruence.
    + rewrite IH. split.
      * intros H y [<-|Hy]; auto.
      * intros H y Hy. apply H. right. exact Hy.
Qed.

Lemma sum_list_Z_nonneg {A} (f : A -> Z) (l : list A) :
  (forall x, 0 <= f x) -> 0 <= sum_list_Z f l.
Proof.
  intros Hf. unfold sum_list_Z. induction l as [|x l IH]; simpl; [lia|].
  specialize (Hf x). lia.
Qed.

(** X17. [byCategory] of [/challenge-stats], label by label: a label
    has no entry when it names a member of [Object.prototype] or when no
    challenge carries it, and only then; any other has the number of its
    challenges as [count] (at least 1) and the sum of their solves as
    [solved] (never negative). [byDifficulty] likewise has entries for
    the difficulties that occur and do not name such a member, and for
    no other label. *)
Theorem byCategory_count_and_solved (challenges : list Challenge) (k : string) :
  let st := challenge_stats challenges in
  byCategory st !! k
  = (if inherited k then None
     else match List.filter (in_category k) challenges with
          | [] => None
          | l => Some {| cat_count := Z.of_nat (length l);
                         cat_solved := sum_list_Z solves l |}
          end)
  /\ (byCategory st !! k = None
      <-> inherited k = true \/ forall c, In c challenges -> category c <> k)
  /\ (forall e, byCategory st !! k = Some e ->
        1 <= cat_count e <= Z.of_nat (length challenges) /\ 0 <= cat_solved e)
  /\ (byDifficulty st !! k = None
      <-> inherited k = true \/ forall c, In c challenges -> difficulty c <> k).
Proof.
  cbv zeta. cbn [challenge_stats byCategory byDifficulty].
  rewrite byCategory_fold, byDifficulty_fold.
  unfold category_entry, difficulty_entry.
  split; [reflexivity|].
  destruct (inherited k) eqn:Hk.
  { split; [split; auto|]. split; [discriminate|]. split; auto. }
  split; [|split].
  - pose proof (filter_nil_iff (in_category k) challenges) as H.
    destruct (List.filter (in_category k) challenges) as [|c l].
    + split; [|reflexivity]. intros _. right. intros c Hc Hc'.
      pose proof (proj1 H eq_refl c Hc) as Hf. unfold in_category in Hf.
      rewrite Hc', String.eqb_refl in Hf. discriminate.
    + split; [discriminate|]. intros [Hi|Hno]; [discriminate|]. exfalso.
      assert (Hnil : c :: l = []); [|discriminate].
      apply H. intros x Hx. unfold in_category.
      apply String.eqb_neq, Hno, Hx.
  - intros e He.
    pose proof (List.filter_length_le (in_category k) challenges) as Hle.
    pose proof (sum_list_Z_nonneg solves
                  (List.filter (in_category k) challenges) solves_nonneg) as Hs.
    destruct (List.filter (in_category k) challenges) as [|c l];
      [discriminate|].
    injection He as <-. cbn [cat_count cat_solved].
    cbn [length] in *. split; [lia|exact Hs].
  - pose proof (filter_nil_iff (in_difficulty k) challenges) as H.
    destruct (List.filter (in_difficulty k) challenges) as [|c l].
    + split; [|reflexivity]. intros _. right. intros c Hc Hc'.
      pose proof (proj1 H eq_refl c Hc) as Hf. unfold in_difficulty in Hf.
      rewrite Hc', String.eqb_refl in Hf. discriminate.
    + split; [discriminate|]. intros [Hi|Hno]; [discriminate|]. exfalso.
      assert (Hnil : c :: l = []); [|discriminate].
      apply H. intros x Hx. unfold in_difficulty.
      apply String.eqb_neq, Hno, Hx.
Qed.

(** * Scenarios *)

Example overview_of_nothing (now : Z) :
  overview now [] []
  = {| ov_users_total := 0; ov_users_active := 0; ov_users_admins := 0;
       ov_users_blocked := 0; ov_challenges_total := 0;
       ov_challenges_visible := 0; ov_challenges_hidden := 0;
       ov_submissions_total := 0; ov_avgPerUser := JNum (S754_zero false);
       ov_totalPoints := S754_zero false |}.
Proof. reflexivity. Qed.

Example overview_average_of_three :
  ov_avgPerUser (overview 1793491200000 sample_users [])
  = JFixed (FxDec false 11667)
  /\ fixed2_string (FxDec false 11667) = Some "116.67"%string.
Proof. split; vm_compute; reflexivity. Qed.

Example leaderboard_of_three :
  List.map (fun r => (lr_rank r, lr_username r, lr_points r))
    (leaderboard_stats sample_users)
  = [(1, "carol", 200); (2, "alice", 100); (3, "bob", 50)]%string.
Proof. vm_compute. reflexivity. Qed.

Example engagement_of_three :
  fst (user_engagement 1793491200000 sample_users)
  = {| highEngagement := 1; mediumEngagement := 1; lowEngagement := 1;
       inactive := 0 |}.
Proof. vm_compute. reflexivity. Qed.

Example stats_of_three :
  let st := challenge_stats sample_challenges in
  byCategory st !! "web"%string = Some {| cat_count := 2; cat_solved := 2 |}
  /\ byDifficulty st !! "easy"%string
     = Some {| diff_count := 2; avgPoints := of_Z 300 |}
  /\ List.map sr_title (st_solvedChallenges st) = ["login"; "overflow"]%string
  /\ List.map cb_title (topChallenges st)
     = ["login"; "overflow"; "cookies"]%string
  /\ List.map cb_title (leastSolved st)
     = ["cookies"; "overflow"; "login"]%string.
Proof. repeat split; vm_compute; reflexivity. Qed.

Example traffic_of_three :
  dailyBreakdown (traffic 1793491200000 1793491200000 sample_users)
    !! "2026-11-01"%string = Some 3
  /\ JsDate.toISOString 1793491200123 = "2026-11-01T00:00:00.123Z"%string
  /\ JsDate.toISOString 951868799999 = "2000-02-29T23:59:59.999Z"%string.
Proof. repeat split; vm_compute; reflexivity. Qed.

(** Two counts whose rate falls halfway between two hundredths: 78.125
    is a Number and is printed upwards, 76.925 is not and the Number
    below it is printed. *)
Example success_rate_halfway :
  success_rate 25 = JFixed (FxDec false 7813)
  /\ success_rate 3077 = JFixed (FxDec false 7692).
Proof. split; vm_compute; reflexivity. Qed.

Example lit_0_3_bits : lit_0_3 = S754_finite false 5404319552844595 (-54).
Proof. vm_compute. reflexivity. Qed.

(** Beyond [2^53] the order of the additions shows in a sum of points,
    and a total can miss what was added. *)
Example points_beyond_2_53 :
  number_sum [2 ^ 53; 1; 1] = of_Z (2 ^ 53)
  /\ number_sum [1; 1; 2 ^ 53] = of_Z (2 ^ 53 + 2)
  /\ number_sum [2 ^ 53; 1; 1; - 2 ^ 53] = of_Z 0
  /\ avgPointsPerUser (number_sum [2 ^ 53; 1; 1; - 2 ^ 53]) 4
     = JFixed (FxDec false 0).
Proof. repeat split; vm_compute; reflexivity. Qed.

(** Labels that name members of [Object.prototype] leave no entry. *)
Example stats_of_prototype_labels :
  let st := challenge_stats prototype_challenges in
  byCategory st !! "web"%string = Some {| cat_count := 1; cat_solved := 2 |}
  /\ byCategory st !! "constructor"%string = None
  /\ byDifficulty st !! "hard"%string
     = Some {| diff_count := 1; avgPoints := of_Z 300 |}
  /\ byDifficulty st !! "__proto__"%string = None
  /\ List.map sr_title (st_solvedChallenges st) = ["login"; "ghost"]%string.
Proof. repeat split; vm_compute; reflexivity. Qed.
